(** * forqan_obs: a shallow embedding of the Quran plugin's core logic

    The development follows the TypeScript sources:
    - [utils/helpers.ts]            padNumber, stripHtml
    - [utils/quranApi.ts]           the records of the remote API and its queries
    - [renderers/MushafRenderer.ts] chapter cache, line grouping, page rendering
    - [generators/VaultGenerator.ts] the vault generator
    - [modals/CreateCollectionModal.ts] the collection builder

    JavaScript numbers that the program only uses as integers (ids, verse
    numbers, line numbers, page numbers) are [Z]; the one place where the
    source divides ([buildJuzPageMap] and its fallback) is computed on
    binary64 floats.  JavaScript strings are [string]s holding UTF-8.
    Asynchronous code is sequential code in a state-and-exception monad over
    a [World] that holds the remote service, the chapter cache, the vault
    and the user interface log. *)

From Stdlib Require Import ZArith Floats.
From stdpp Require Import gmap strings list pretty sorting.

Set Warnings "-register-all".

Open Scope string_scope.
Open Scope list_scope.
Open Scope Z_scope.

(* ===================================================================== *)
(** * Part I: definitions *)
(* ===================================================================== *)

(** ** JavaScript strings *)

(** [String(n)] for an integral number. *)
Definition String_of_number (n : Z) : string := pretty n.

(** Template literals and [+=] are concatenations. *)
Definition cat (parts : list string) : string := String.concat "" parts.

(** [arr.join(sep)]. *)
Definition join (sep : string) (parts : list string) : string :=
  String.concat sep parts.

Fixpoint repeat_string (n : nat) (s : string) : string :=
  match n with
  | O => ""
  | S k => s +:+ repeat_string k s
  end.

(** [s.padStart(targetLength, padString)]: the filler is repeated and cut to
    the missing length; a string that is long enough is returned as it is. *)
Definition padStart (s : string) (targetLength : nat) (padString : string) : string :=
  let len := String.length s in
  if (targetLength <=? len)%nat then s
  else if String.eqb padString "" then s
  else
    let fillLen := (targetLength - len)%nat in
    String.substring 0 fillLen (repeat_string fillLen padString) +:+ s.

(** The double quote, which template literals of the source contain. *)
Definition dquote : string := String (Ascii.ascii_of_nat 34) "".

(** The line feed of the template literals. *)
Definition nl : string := String (Ascii.ascii_of_nat 10) "".

(** ** JavaScript numbers where the source divides *)

(** The number nearest to an integer (exact below 2^53). *)
Definition number_of_Z (z : Z) : float :=
  SF2Prim (binary_normalize 53 1024 z 0 false).

(** The integer value of a finite float scaled by [2^e], rounded down after
    adding [bias / 2^(-e)]; all in exact integer arithmetic. *)
Definition scaled_floor (s : bool) (m : positive) (e : Z) (num den : Z) : Z :=
  let v := if s then Z.neg m else Z.pos m in
  match e with
  | Zneg k => (den * v + num * 2 ^ Z.pos k) / (den * 2 ^ Z.pos k)
  | _ => v * 2 ^ e
  end.

(** [Math.round(x)]: the nearest integer, ties towards plus infinity;
    NaN and the infinities are returned as they are. *)
Definition Math_round (x : float) : float :=
  match Prim2SF x with
  | S754_finite s m e =>
      if 0 <=? e then x else number_of_Z (scaled_floor s m e 1 2)
  | _ => x
  end.

(** [Math.ceil(x)]: the least integer not below [x]. *)
Definition Math_ceil (x : float) : float :=
  match Prim2SF x with
  | S754_finite s m e =>
      if 0 <=? e then x else number_of_Z (- scaled_floor (negb s) m e 0 1)
  | _ => x
  end.

(** The integer an integral finite number stands for (0 for the others,
    which the program never stores in an integer position). *)
Definition Z_of_number (x : float) : Z :=
  match Prim2SF x with
  | S754_finite s m e => scaled_floor s m e 0 1
  | _ => 0
  end.

(** ** utils/helpers.ts *)

(** Pad a number to a fixed width with leading zeros. *)
Definition padNumber (n : Z) (width : nat) : string :=
  padStart (String_of_number n) width "0".

(** The fragment of the DOM the helpers and the renderer use: text nodes and
    elements with a tag, a class name and children. *)
Inductive Node : Type :=
  | TextNode (data : string)
  | Element (tag : string) (className : string) (children : list Node).

(** The [textContent] getter: the concatenated data of all text
    descendants, in document order. *)
Fixpoint textContent (n : Node) : string :=
  match n with
  | TextNode data => data
  | Element _ _ children =>
      (fix go (l : list Node) : string :=
         match l with
         | [] => ""
         | c :: rest => textContent c +:+ go rest
         end) children
  end.

(** The [textContent] setter: every child is replaced by one text node
    holding the string verbatim (by none when the string is empty).  The
    string is not parsed as markup. *)
Definition set_textContent (n : Node) (value : string) : Node :=
  match n with
  | TextNode _ => TextNode value
  | Element tag cls _ =>
      Element tag cls (if String.eqb value "" then [] else [TextNode value])
  end.

(** [document.createElement(tag)]. *)
Definition createElement (tag : string) : Node := Element tag "" [].

(** [stripHtml]: documented in the source as "Sanitize HTML string to plain
    text, stripping all tags."  *)
Definition stripHtml (html : string) : string :=
  let div := createElement "div" in
  let div := set_textContent div html in
  textContent div.

(** [parent.createEl(tag, { text, cls })] of the host: a new element with the
    class name and, when [text] is given, that text as its content.  The
    caller appends it to the parent's children. *)
Definition createEl (tag : string) (text : option string) (cls : string) : Node :=
  match text with
  | Some t => set_textContent (Element tag cls []) t
  | None => Element tag cls []
  end.

(** Children are appended to an element created earlier. *)
Definition appendChildren (n : Node) (more : list Node) : Node :=
  match n with
  | TextNode d => TextNode d
  | Element tag cls children => Element tag cls (children ++ more)
  end.

(** ** JavaScript [Map] and [Set] with number keys

    Both iterate in insertion order, which the page footer and the page list
    of a collection depend on, so they are association lists without
    duplicate keys: [set] on a present key replaces the value in place, on
    an absent key appends. *)

Definition JsMap (V : Type) : Type := list (Z * V).

Fixpoint Map_get {V : Type} (k : Z) (m : JsMap V) : option V :=
  match m with
  | [] => None
  | (k', v) :: rest => if k' =? k then Some v else Map_get k rest
  end.

Fixpoint Map_set {V : Type} (k : Z) (v : V) (m : JsMap V) : JsMap V :=
  match m with
  | [] => [(k, v)]
  | (k', v') :: rest =>
      if k' =? k then (k, v) :: rest else (k', v') :: Map_set k v rest
  end.

Definition Map_keys {V : Type} (m : JsMap V) : list Z := map fst m.
Definition Map_values {V : Type} (m : JsMap V) : list V := map snd m.

Definition JsSet : Type := list Z.

Definition includes (x : Z) (l : list Z) : bool := existsb (Z.eqb x) l.

Definition Set_add (x : Z) (s : JsSet) : JsSet :=
  if includes x s then s else s ++ [x].

(** [new Set(array)]. *)
Definition Set_of (l : list Z) : JsSet := foldl (fun s x => Set_add x s) [] l.

(** [array.sort((a, b) => a - b)]. *)
Definition sort_numeric (l : list Z) : list Z := merge_sort Z.le l.

(** ** utils/quranApi.ts: the records of the remote API *)

Module Chapter.
Record t : Type := mk {
  id : Z;
  revelation_place : string;
  revelation_order : Z;
  bismillah_pre : bool;
  name_simple : string;
  name_complex : string;
  name_arabic : string;
  verses_count : Z;
  pages : list Z;
  translated_name : string * string
}.
End Chapter.

Module Translation.
Record t : Type := mk {
  id : Z;
  resource_id : Z;
  text : string
}.
End Translation.

(** [text_uthmani] and [page_number] are only present when the request asks
    for the field; the source guards both ([?? ""] and a truthiness test),
    so they are optional here.  [translations] is optional in the source. *)
Module Verse.
Record t : Type := mk {
  id : Z;
  verse_number : Z;
  verse_key : string;
  chapter_id : Z;
  text_uthmani : option string;
  page_number : option Z;
  juz_number : Z;
  hizb_number : Z;
  translations : option (list Translation.t)
}.
End Verse.

Module Juz.
Record t : Type := mk {
  id : Z;
  juz_number : Z;
  verse_mapping : list (string * string);
  first_verse_id : Z;
  last_verse_id : Z;
  verses_count : Z
}.
End Juz.

Inductive CharType : Type := char_word | char_end | char_pause.

Definition CharType_name (c : CharType) : string :=
  match c with
  | char_word => "word"
  | char_end => "end"
  | char_pause => "pause"
  end.

Module Word.
Record t : Type := mk {
  id : Z;
  position : Z;
  text_uthmani : string;
  char_type_name : CharType;
  line_number : Z;
  page_number : Z
}.
End Word.

(** [VerseWithWords extends Verse]. *)
Module VerseWithWords.
Record t : Type := mk {
  verse : Verse.t;
  words : list Word.t
}.
Definition verse_number (v : t) : Z := Verse.verse_number (verse v).
Definition chapter_id (v : t) : Z := Verse.chapter_id (verse v).
End VerseWithWords.

Record GetVersesOptions : Type := {
  opt_translations : option (list Z);
  opt_perPage : option Z;
  opt_fields : option string
}.

(** The requests [fetchJson] is called with: the path and the query
    parameters each API function builds. *)
Inductive Request : Type :=
  | ReqChapters (language : string)
  | ReqChapter (id : Z) (language : string)
  | ReqVersesByChapter (chapterId : Z) (per_page : Z) (fields : string)
      (translations : option string)
  | ReqVersesByPage (page : Z) (per_page : Z) (fields : string)
      (translations : option string)
  | ReqJuzs
  | ReqVersesByPageWithWords (page : Z) (per_page : Z) (fields : string)
      (word_fields : string).

(** What the typed wrappers read out of the JSON answer. *)
Definition Response (r : Request) : Type :=
  match r with
  | ReqChapters _ => list Chapter.t
  | ReqChapter _ _ => Chapter.t
  | ReqVersesByChapter _ _ _ _ => list Verse.t
  | ReqVersesByPage _ _ _ _ => list Verse.t
  | ReqJuzs => list Juz.t
  | ReqVersesByPageWithWords _ _ _ _ => list VerseWithWords.t
  end.

(** ** Exceptions *)

(** A thrown value: an [Error] with its message, or anything else with the
    string [String(e)] gives for it. *)
Inductive Thrown : Type :=
  | ErrorObject (message : string)
  | OtherValue (repr : string).

(** [e instanceof Error ? e.message : String(e)]. *)
Definition message_of (e : Thrown) : string :=
  match e with
  | ErrorObject m => m
  | OtherValue s => s
  end.

Inductive Result (A : Type) : Type :=
  | Ok (a : A)
  | Throw (e : Thrown).
Arguments Ok {A} a.
Arguments Throw {A} e.

Definition is_Ok {A : Type} (r : Result A) : bool :=
  match r with Ok _ => true | Throw _ => false end.

(** ** The world the program runs in *)

(** The remote service: a request is answered or rejected, and the service
    may change state with every request. *)
Definition Remote (RS : Type) : Type :=
  forall r : Request, RS -> Result (Response r) * RS.

(** The host's document store: a path holds a file with its text or a
    folder. *)
Inductive Entry : Type :=
  | File (content : string)
  | Folder.

Inductive VaultOp : Type :=
  | OpExists (path : string) (found : bool)
  | OpCreateFolder (path : string)
  | OpCreate (path : string) (content : string).

(** What the user sees, and what is done to a render target. *)
Inductive UiEvent : Type :=
  | NoticeShown (message : string)
  | NoticeSet (message : string)
  | NoticeHidden
  | ModalClosed
  | FileOpened (path : string)
  | Slept (ms : Z)
  | ContainerEmptied
  | ContainerCreateEl (cls : string) (text : string)
  | RenderMushafPage (page : Z).

(** Every effect of a run is recorded, in one chronological trace. *)
Inductive Event : Type :=
  | EvFetch (r : Request) (ok : bool)
  | EvVault (op : VaultOp)
  | EvUi (e : UiEvent).

(** The trace is newest first. *)
Record World (RS : Type) : Type := mkWorld {
  w_remote : RS;
  w_trace : list Event;
  w_chaptersCache : option (list Chapter.t);
  w_vault : gmap string Entry;
  w_today : string
}.
Arguments mkWorld {RS}.
Arguments w_remote {RS}.
Arguments w_trace {RS}.
Arguments w_chaptersCache {RS}.
Arguments w_vault {RS}.
Arguments w_today {RS}.

(** The vault operations of a trace, and its fetches. *)
Definition vault_ops (t : list Event) : list VaultOp :=
  omap (fun ev => match ev with EvVault op => Some op | _ => None end) t.

Definition fetch_events (t : list Event) : list (Request * bool) :=
  omap (fun ev => match ev with EvFetch r ok => Some (r, ok) | _ => None end) t.

(** Sequential code with exceptions over the world; an exception keeps the
    effects that happened before it. *)
Definition M (RS : Type) (A : Type) : Type := World RS -> Result A * World RS.

Definition ret {RS A : Type} (a : A) : M RS A := fun w => (Ok a, w).

Definition bind {RS A B : Type} (m : M RS A) (k : A -> M RS B) : M RS B :=
  fun w =>
    match m w with
    | (Ok a, w') => k a w'
    | (Throw e, w') => (Throw e, w')
    end.

(** [try { m } catch (e) { handler(e) }]. *)
Definition try_catch {RS A : Type} (m : M RS A) (handler : Thrown -> M RS A) : M RS A :=
  fun w =>
    match m w with
    | (Ok a, w') => (Ok a, w')
    | (Throw e, w') => handler e w'
    end.

Notation "'let*' x ':=' m 'in' k" := (bind m (fun x => k))
  (at level 10, x name, m at level 100, k at level 200).
Notation "m ';;' k" := (bind m (fun _ => k))
  (at level 100, k at level 200, right associativity).

(** [for (const x of items) body(x)]. *)
Fixpoint for_each {RS A : Type} (items : list A) (body : A -> M RS unit) : M RS unit :=
  match items with
  | [] => ret tt
  | x :: rest => body x ;; for_each rest body
  end.

Section Program.

Context {RS : Type}.

(** The remote service behind [requestUrl], and the host's
    [normalizePath]; neither is part of the repository. *)
Variable remote : Remote RS.
Variable normalizePath : string -> string.

Definition log (ev : Event) : M RS unit :=
  fun w => (Ok tt, mkWorld (w_remote w) (ev :: w_trace w) (w_chaptersCache w)
                     (w_vault w) (w_today w)).

Definition ui (e : UiEvent) : M RS unit := log (EvUi e).

(** [fetchJson]: one round trip; a failure of any kind rejects. *)
Definition fetchJson (r : Request) : M RS (Response r) :=
  fun w =>
    let '(res, s') := remote r (w_remote w) in
    (res, mkWorld s' (EvFetch r (is_Ok res) :: w_trace w) (w_chaptersCache w)
            (w_vault w) (w_today w)).

(** *** The host's vault

    The vault belongs to the host application, not to the repository.
    [getAbstractFileByPath] returns the file or folder at a path or null;
    [createFolder] and [create] reject when the path is taken, with the
    host's messages, and leave the vault as it is. *)
Definition getAbstractFileByPath (path : string) : M RS (option Entry) :=
  fun w =>
    let found := w_vault w !! path in
    (Ok found,
     mkWorld (w_remote w) (EvVault (OpExists path (bool_decide (is_Some found))) :: w_trace w)
       (w_chaptersCache w) (w_vault w) (w_today w)).

Definition vault_put (op : VaultOp) (path : string) (e : Entry) (taken : string) : M RS unit :=
  fun w =>
    let w' := mkWorld (w_remote w) (EvVault op :: w_trace w) (w_chaptersCache w)
                (w_vault w) (w_today w) in
    match w_vault w !! path with
    | Some _ => (Throw (ErrorObject taken), w')
    | None =>
        (Ok tt, mkWorld (w_remote w) (EvVault op :: w_trace w) (w_chaptersCache w)
                  (<[path := e]> (w_vault w)) (w_today w))
    end.

Definition createFolder (path : string) : M RS unit :=
  vault_put (OpCreateFolder path) path Folder "Folder already exists.".

Definition create (path : string) (content : string) : M RS unit :=
  vault_put (OpCreate path content) path (File content) "File already exists.".

(** *** utils/quranApi.ts: the queries *)

Definition getChapters (language : string) : M RS (list Chapter.t) :=
  fetchJson (ReqChapters language).

Definition getChapter (id : Z) (language : string) : M RS Chapter.t :=
  fetchJson (ReqChapter id language).

Definition translations_param (options : GetVersesOptions) : option string :=
  (fun ids => join "," (map String_of_number ids)) <$> opt_translations options.

Definition verses_by_chapter_request (chapterId : Z) (options : GetVersesOptions) : Request :=
  ReqVersesByChapter chapterId
    (default 300 (opt_perPage options))
    (default "text_uthmani,chapter_id" (opt_fields options))
    (translations_param options).

Definition getVersesByChapter (chapterId : Z) (options : GetVersesOptions) : M RS (list Verse.t) :=
  fetchJson (verses_by_chapter_request chapterId options).

Definition verses_by_page_request (page : Z) (options : GetVersesOptions) : Request :=
  ReqVersesByPage page
    (default 50 (opt_perPage options))
    (default "text_uthmani,chapter_id" (opt_fields options))
    (translations_param options).

Definition getVersesByPage (page : Z) (options : GetVersesOptions) : M RS (list Verse.t) :=
  fetchJson (verses_by_page_request page options).

Definition getJuzs : M RS (list Juz.t) := fetchJson ReqJuzs.

Definition page_request (page : Z) : Request :=
  ReqVersesByPageWithWords page 50 "text_uthmani,chapter_id"
    "text_uthmani,line_number,page_number,position,char_type_name".

Definition getVersesByPageWithWords (page : Z) : M RS (list VerseWithWords.t) :=
  fetchJson (page_request page).

(** *** renderers/MushafRenderer.ts *)

Definition set_chaptersCache (c : option (list Chapter.t)) : M RS unit :=
  fun w => (Ok tt, mkWorld (w_remote w) (w_trace w) c (w_vault w) (w_today w)).

Definition clearChaptersCache : M RS unit := set_chaptersCache None.

(** The cache is tested for null only ([!chaptersCache]; an empty array is
    truthy); [language] is used by the fetch alone. *)
Definition getCachedChapters (language : string) : M RS (list Chapter.t) :=
  fun w =>
    match w_chaptersCache w with
    | None =>
        (let* chapters := getChapters language in
         set_chaptersCache (Some chapters) ;;
         ret chapters) w
    | Some cached => (Ok cached, w)
    end.

(** Group all words across all verses by their line_number. *)
Definition groupWordsByLine (verses : list VerseWithWords.t) : JsMap (list Word.t) :=
  foldl (fun lineMap verse =>
           foldl (fun lineMap word =>
                    let existing := default [] (Map_get (Word.line_number word) lineMap) in
                    Map_set (Word.line_number word) (existing ++ [word]) lineMap)
                 lineMap (VerseWithWords.words verse))
        [] verses.

(** One pass of the loop of [buildSurahStartLines]. *)
Definition mark_surah_start (map : JsMap Z) (verse : VerseWithWords.t) : JsMap Z :=
  if (VerseWithWords.verse_number verse =? 1)
     && (0 <? length (VerseWithWords.words verse))%nat
  then
    match VerseWithWords.words verse with
    | firstWord :: _ =>
        Map_set (Word.line_number firstWord) (VerseWithWords.chapter_id verse) map
    | [] => map
    end
  else map.

(** For each verse where verse_number === 1, record which line its first
    word falls on. *)
Definition buildSurahStartLines (verses : list VerseWithWords.t) : JsMap Z :=
  foldl mark_surah_start [] verses.

(** Resolve a Map<chapterId, Chapter> for the given IDs using the cache. *)
Definition getChaptersForIds (chapterIds : list Z) (language : string) : M RS (JsMap Chapter.t) :=
  let* all := getCachedChapters language in
  ret (foldl (fun map ch =>
                if includes (Chapter.id ch) chapterIds
                then Map_set (Chapter.id ch) ch map
                else map)
             [] all).

(** The invocation phrase shown under a surah header. *)
Definition bismillah_text : string :=
  "بِسْمِ اللَّهِ الرَّحْمَٰنِ الرَّحِيمِ".

Definition middle_dot : string := "·".
Definition right_arrow : string := "→".

Definition empty (container : Node) : Node :=
  match container with
  | TextNode d => TextNode d
  | Element tag cls _ => Element tag cls []
  end.

Definition surah_header (chapter : Chapter.t) : Node :=
  let headerEl := createEl "div" None "mushaf-surah-header" in
  appendChildren headerEl
    [createEl "span" (Some (Chapter.name_arabic chapter)) "mushaf-surah-name"].

Definition bismillah_banner : Node :=
  createEl "div" (Some bismillah_text) "mushaf-bismillah".

Definition word_span (word : Word.t) : Node :=
  let wordEl :=
    createEl "span" None
      ("mushaf-word mushaf-word-" +:+ CharType_name (Word.char_type_name word)) in
  set_textContent wordEl (Word.text_uthmani word).

Definition line_block (words : list Word.t) : Node :=
  appendChildren (createEl "div" None "mushaf-line") (map word_span words).

(** The blocks one pass of the line loop appends to the page element. *)
Definition render_line (lineMap : JsMap (list Word.t)) (chapters : JsMap Chapter.t)
    (surahStartLines : JsMap Z) (lineNum : Z) : list Node :=
  let words := default [] (Map_get lineNum lineMap) in
  let heading :=
    match Map_get lineNum surahStartLines with
    | Some startChapterId =>
        match Map_get startChapterId chapters with
        | Some chapter =>
            surah_header chapter ::
            (if negb (startChapterId =? 9) && negb (startChapterId =? 1)
             then [bismillah_banner]
             else [])
        | None => []
        end
    | None => []
    end in
  heading ++ [line_block words].

Definition page_footer (page : Z) (chapters : JsMap Chapter.t) : Node :=
  let chapterNames :=
    join (" " +:+ middle_dot +:+ " ") (map Chapter.name_simple (Map_values chapters)) in
  appendChildren (createEl "div" None "mushaf-page-footer")
    [createEl "span" (Some chapterNames) "mushaf-footer-surahs";
     createEl "span" (Some (String_of_number page)) "mushaf-footer-page"].

(** The children of the page element: the render plan. *)
Definition page_plan (page : Z) (lineMap : JsMap (list Word.t))
    (chapters : JsMap Chapter.t) (surahStartLines : JsMap Z) : list Node :=
  let lineNumbers := sort_numeric (Map_keys lineMap) in
  concat (map (render_line lineMap chapters surahStartLines) lineNumbers)
  ++ [page_footer page chapters].

(** Render a full Mushaf page into the given container element. *)
Definition renderMushafPage (container : Node) (page : Z)
    (lineMap : JsMap (list Word.t)) (chapters : JsMap Chapter.t)
    (surahStartLines : JsMap Z) : Node :=
  let container := empty container in
  let pageEl :=
    appendChildren (createEl "div" None "mushaf-page")
      (page_plan page lineMap chapters surahStartLines) in
  appendChildren container [pageEl].

(** Fetch data for a page and render it into a container.  The function
    returns the container as it has left it.  Inside [try] the container is
    only touched by [renderMushafPage], which is the last statement and does
    not throw, so the handler finds it as it was before [try]. *)
Definition fetchAndRenderPage (container : Node) (page : Z) (language : string) : M RS Node :=
  ui ContainerEmptied ;;
  let container := empty container in
  ui (ContainerCreateEl "quran-loading" "Loading...") ;;
  let container :=
    appendChildren container [createEl "div" (Some "Loading...") "quran-loading"] in
  try_catch
    (let* verses := getVersesByPageWithWords page in
     let lineMap := groupWordsByLine verses in
     let chapterIds := Set_of (map VerseWithWords.chapter_id verses) in
     let* chapters := getChaptersForIds chapterIds language in
     let surahStartLines := buildSurahStartLines verses in
     ui (RenderMushafPage page) ;;
     ret (renderMushafPage container page lineMap chapters surahStartLines))
    (fun e =>
       ui ContainerEmptied ;;
       let container := empty container in
       let msg := message_of e in
       ui (ContainerCreateEl "quran-error" ("Error: " +:+ msg)) ;;
       ret (appendChildren container
              [createEl "div" (Some ("Error: " +:+ msg)) "quran-error"])).

(** *** The plugin's settings (settings.ts) *)

Inductive ViewMode : Type := view_verse | view_mushaf.

Definition ViewMode_name (m : ViewMode) : string :=
  match m with
  | view_verse => "verse"
  | view_mushaf => "mushaf"
  end.

Record QuranPluginSettings : Type := {
  defaultTranslation : Z;
  showArabic : bool;
  showTranslation : bool;
  fontSize : Z;
  language : string;
  defaultNoteViewMode : ViewMode;
  includeMushafInGeneration : bool
}.

Variable settings : QuranPluginSettings.

(** A template literal that spans lines: every line ends with a line feed. *)
Definition unlines (l : list string) : string :=
  cat (map (fun s => s +:+ nl) l).

(** [array[i]] inside a template literal. *)
Definition show_item (x : option Z) : string :=
  match x with
  | Some n => String_of_number n
  | None => "undefined"
  end.

(** *** generators/VaultGenerator.ts *)

Record VaultGeneratorOptions : Type := {
  includeTranslation : bool;
  translationId : Z;
  includeMushaf : option bool;
  defaultViewMode : option ViewMode
}.

Definition baseFolder : string := "Quran".

Definition createFolders : M RS unit :=
  let folders := ["Surahs"; "Pages"; "Juz"; "Collections"] in
  for_each folders (fun folder =>
    let path := normalizePath (cat [baseFolder; "/"; folder]) in
    let* found := getAbstractFileByPath path in
    match found with
    | Some _ => ret tt
    | None => createFolder path
    end).

Definition buildSurahContent (chapter : Chapter.t) : string :=
  let pages := Chapter.pages chapter in
  let pageLinks :=
    join nl (map (fun p => cat ["- [[Page "; padNumber p 3; "]]"]) pages) in
  unlines [
    "---";
    cat ["surah: "; String_of_number (Chapter.id chapter)];
    cat ["name_arabic: "; dquote; Chapter.name_arabic chapter; dquote];
    cat ["name_english: "; dquote; Chapter.name_simple chapter; dquote];
    cat ["verses_count: "; String_of_number (Chapter.verses_count chapter)];
    cat ["revelation_place: "; dquote; Chapter.revelation_place chapter; dquote];
    cat ["pages: ["; join ", " (map String_of_number pages); "]"];
    cat ["status: "; dquote; "not_started"; dquote];
    cat ["tags: [quran, surah, "; Chapter.revelation_place chapter; "]"];
    "---";
    "";
    cat ["# "; Chapter.name_simple chapter];
    "";
    cat ["## "; Chapter.name_arabic chapter];
    "";
    "| Property | Value |";
    "|----------|-------|";
    cat ["| **English** | "; Chapter.name_simple chapter; " |"];
    cat ["| **Verses** | "; String_of_number (Chapter.verses_count chapter); " |"];
    cat ["| **Revelation** | "; Chapter.revelation_place chapter; " |"];
    cat ["| **Pages** | "; show_item (head pages); " - "; show_item (last pages); " |"];
    "";
    "## Pages in this Surah";
    "";
    pageLinks;
    "";
    "## Reading Progress";
    "";
    "- [ ] Started reading";
    "- [ ] Completed reading";
    "- [ ] Memorized";
    "";
    "## Notes";
    ""
  ].

Definition surah_path (chapter : Chapter.t) : string :=
  let fileName :=
    cat [padNumber (Chapter.id chapter) 3; " - "; Chapter.name_simple chapter; ".md"] in
  normalizePath (cat [baseFolder; "/Surahs/"; fileName]).

Definition generateSurahNotes : M RS unit :=
  let* chapters := getChapters (language settings) in
  for_each chapters (fun chapter =>
    let path := surah_path chapter in
    let* found := getAbstractFileByPath path in
    match found with
    | Some _ => ret tt
    | None =>
        let content := buildSurahContent chapter in
        create path content
    end).

(** The approximate page range of a juz, as the source computes it on
    floating-point numbers. *)
Definition approxStartPage (juz : Juz.t) : float :=
  (Math_round (((number_of_Z (Juz.juz_number juz) - 1) / 30) * 604) + 1)%float.

Definition approxEndPage (juz : Juz.t) : float :=
  Math_round ((number_of_Z (Juz.juz_number juz) / 30) * 604)%float.

(** [page >= approxStartPage && page <= approxEndPage]. *)
Definition page_in_juz (page : Z) (juz : Juz.t) : bool :=
  (approxStartPage juz <=? number_of_Z page)%float
  && (number_of_Z page <=? approxEndPage juz)%float.

(** The inner loop: the first juz whose range holds the page is recorded,
    and the loop is left. *)
Fixpoint assign_page (page : Z) (juzs : list Juz.t) (pageToJuz : JsMap Z) : JsMap Z :=
  match juzs with
  | [] => pageToJuz
  | juz :: rest =>
      if page_in_juz page juz
      then Map_set page (Juz.juz_number juz) pageToJuz
      else assign_page page rest pageToJuz
  end.

Definition all_pages : list Z := seqZ 1 604.

Definition buildJuzPageMap (juzs : list Juz.t) : JsMap Z :=
  foldl (fun pageToJuz page => assign_page page juzs pageToJuz) [] all_pages.

(** [juzPageMap.get(page) ?? Math.ceil(page / 20)]. *)
Definition juzNumber_of_page (juzPageMap : JsMap Z) (page : Z) : Z :=
  match Map_get page juzPageMap with
  | Some j => j
  | None => Z_of_number (Math_ceil (number_of_Z page / 20)%float)
  end.

Definition translation_text (verse : Verse.t) : option string :=
  match Verse.translations verse with
  | Some (t :: _) => Some (stripHtml (Translation.text t))
  | _ => None
  end.

Definition buildPageContent (page : Z) (verses : list Verse.t)
    (chapters : list Chapter.t) (juzNumber : Z) (options : VaultGeneratorOptions) : string :=
  let surahLinks :=
    join ", "
      (map (fun c => cat ["[["; padNumber (Chapter.id c) 3; " - "; Chapter.name_simple c;
                          "|"; Chapter.name_simple c; "]]"]) chapters) in
  let firstVerse := default "" (Verse.verse_key <$> head verses) in
  let lastVerse := default "" (Verse.verse_key <$> last verses) in
  let versesContent :=
    foldl (fun versesContent verse =>
             let translationText :=
               if includeTranslation options
               then default "" (translation_text verse)
               else "" in
             versesContent +:+
             unlines [
               cat ["### "; Verse.verse_key verse];
               "";
               cat ["> "; default "" (Verse.text_uthmani verse)];
               "";
               translationText;
               "";
               "---";
               ""
             ])
          "" verses in
  let includeMushaf := default false (includeMushaf options) in
  let defaultMode := default view_verse (defaultViewMode options) in
  let viewToggleBlock :=
    if includeMushaf
    then unlines [
           "```quran-view-toggle";
           ViewMode_name defaultMode;
           "```";
           "";
           "```quran-mushaf";
           "```";
           ""
         ]
    else "" in
  cat [
    unlines [
      "---";
      cat ["page: "; String_of_number page];
      cat ["juz: "; String_of_number juzNumber];
      cat ["surahs: ["; join ", " (map (fun c => String_of_number (Chapter.id c)) chapters); "]"];
      cat ["first_verse: "; dquote; firstVerse; dquote];
      cat ["last_verse: "; dquote; lastVerse; dquote];
      cat ["status: "; dquote; "not_read"; dquote];
      "memorized: false";
      cat ["tags: [quran, page, juz-"; String_of_number juzNumber; "]"];
      "---";
      "";
      cat ["# Page "; String_of_number page];
      "";
      cat ["**Surahs:** "; surahLinks];
      cat ["**Juz:** [[Juz "; padNumber juzNumber 2; "]]"];
      cat ["**Verses:** "; firstVerse; " "; right_arrow; " "; lastVerse];
      "";
      "---";
      ""
    ];
    viewToggleBlock;
    versesContent;
    unlines [
      "";
      "## Status";
      "";
      "- [ ] Read";
      "- [ ] Memorized";
      "- [ ] Reviewed"
    ]
  ].

Definition page_path (page : Z) : string :=
  let fileName := cat ["Page "; padNumber page 3; ".md"] in
  normalizePath (cat [baseFolder; "/Pages/"; fileName]).

Definition page_chapters (chapterMap : JsMap Chapter.t) (verses : list Verse.t) : list Chapter.t :=
  let chapterIds :=
    Set_of (filter (fun id => 0 < id) (map Verse.chapter_id verses)) in
  omap (fun id => Map_get id chapterMap) chapterIds.

Definition page_options (options : VaultGeneratorOptions) : GetVersesOptions :=
  {| opt_translations :=
       if includeTranslation options then Some [translationId options] else None;
     opt_perPage := Some 50;
     opt_fields := None |}.

Definition generatePageNotes (options : VaultGeneratorOptions) : M RS unit :=
  let* allChapters := getChapters (language settings) in
  let chapterMap :=
    foldl (fun m ch => Map_set (Chapter.id ch) ch m) [] allChapters in
  let* juzs := getJuzs in
  let juzPageMap := buildJuzPageMap juzs in
  for_each all_pages (fun page =>
    let path := page_path page in
    let* found := getAbstractFileByPath path in
    match found with
    | Some _ => ret tt
    | None =>
        let* verses := getVersesByPage page (page_options options) in
        let chapters := page_chapters chapterMap verses in
        let juzNumber := juzNumber_of_page juzPageMap page in
        let content := buildPageContent page verses chapters juzNumber options in
        create path content ;;
        (* Rate-limit: pause every 10 pages *)
        if Z.rem page 10 =? 0
        then ui (NoticeShown (cat ["Generated "; String_of_number page; "/604 pages..."])) ;;
             ui (Slept 100)
        else ret tt
    end).

Definition index_content : string :=
  unlines [
    "---";
    "tags: [quran, index]";
    "---";
    "";
    "# Quran Index";
    "";
    "## Quick Navigation";
    "";
    "### By Surah";
    "```dataview";
    cat ["TABLE name_arabic as "; dquote; "Arabic"; dquote; ", verses_count as ";
         dquote; "Verses"; dquote; ", status"];
    cat ["FROM "; dquote; "Quran/Surahs"; dquote];
    "SORT surah ASC";
    "```";
    "";
    "### Reading Progress";
    "```dataview";
    cat ["TABLE length(filter(file.tasks, (t) => t.completed)) as "; dquote; "Completed"; dquote];
    cat ["FROM "; dquote; "Quran/Pages"; dquote];
    cat ["WHERE status = "; dquote; "read"; dquote];
    "```";
    "";
    "### Memorization Progress";
    "```dataview";
    "LIST";
    cat ["FROM "; dquote; "Quran/Pages"; dquote];
    "WHERE memorized = true";
    "SORT page ASC";
    "```";
    "";
    "## Statistics";
    "";
    "- **Total Surahs:** 114";
    "- **Total Pages:** 604";
    "- **Total Juz:** 30"
  ].

Definition index_path : string := normalizePath (cat [baseFolder; "/_Index.md"]).

Definition generateIndex : M RS unit :=
  let path := index_path in
  let* found := getAbstractFileByPath path in
  match found with
  | Some _ => ret tt
  | None => create path index_content
  end.

(** The body of [try] in [generateFullVault]. *)
Definition generate_steps (options : VaultGeneratorOptions) : M RS unit :=
  createFolders ;;
  ui (NoticeSet "Generating surah notes...") ;;
  generateSurahNotes ;;
  ui (NoticeSet "Generating page notes (this may take a few minutes)...") ;;
  generatePageNotes options ;;
  ui (NoticeSet "Generating index...") ;;
  generateIndex ;;
  ui NoticeHidden ;;
  ui (NoticeShown "Quran vault generated successfully!").

Definition generateFullVault (options : VaultGeneratorOptions) : M RS unit :=
  ui (NoticeShown "Generating Quran ault...") ;;
  try_catch (generate_steps options)
    (fun e =>
       ui NoticeHidden ;;
       let msg := message_of e in
       ui (NoticeShown ("Vault generation failed: " +:+ msg))).

(** *** modals/CreateCollectionModal.ts *)

Record VerseRange : Type := {
  surah : Z;
  startVerse : Z;
  endVerse : Z;
  label : option string
}.

Definition PRESETS : list (string * list VerseRange) := [
  ("Ayatul Kursi", [ {| surah := 2; startVerse := 255; endVerse := 255; label := None |} ]);
  ("Moses Story (Al-Kahf)",
   [ {| surah := 18; startVerse := 60; endVerse := 82; label := Some "Moses & Khidr" |} ]);
  ("Surah Yasin", [ {| surah := 36; startVerse := 1; endVerse := 83; label := None |} ]);
  ("Surah Al-Mulk", [ {| surah := 67; startVerse := 1; endVerse := 30; label := None |} ]);
  ("Last 10 Surahs",
   map (fun i => {| surah := 105 + i; startVerse := 1; endVerse := 999; label := None |})
       (seqZ 0 10));
  ("Friday Recitation",
   [ {| surah := 18; startVerse := 1; endVerse := 10; label := Some "First 10" |};
     {| surah := 18; startVerse := 101; endVerse := 110; label := Some "Last 10" |} ])
].

(** A number or [Infinity]. *)
Inductive Bound : Type :=
  | Finite (n : Z)
  | Infinity.

Definition le_bound (n : Z) (b : Bound) : bool :=
  match b with
  | Finite m => n <=? m
  | Infinity => true
  end.

(** The sub-heading and the cross-link of a range. *)
Definition range_heading (range : VerseRange) (chapter : Chapter.t) : string :=
  let label :=
    default (cat [String_of_number (surah range); ":";
                  String_of_number (startVerse range); "-";
                  String_of_number (endVerse range)])
            (label range) in
  cat [nl; "## "; Chapter.name_simple chapter; " ("; label; ")"; nl]
  +:+ cat ["**Link:** [["; padNumber (surah range) 3; " - ";
           Chapter.name_simple chapter; "]]"; nl; nl].

Definition range_filter (range : VerseRange) (allVerses : list Verse.t) : list Verse.t :=
  let maxVerse := if endVerse range =? 999 then Infinity else Finite (endVerse range) in
  filter (fun v => startVerse range <= Verse.verse_number v
                   ∧ le_bound (Verse.verse_number v) maxVerse = true)
         allVerses.

(** What the inner loop appends to the body for one verse. *)
Definition verse_block (verse : Verse.t) : string :=
  cat ["### "; Verse.verse_key verse; nl; nl]
  +:+ cat ["> "; default "" (Verse.text_uthmani verse); nl; nl]
  +:+ match translation_text verse with
      | Some t => cat [t; nl; nl]
      | None => ""
      end
  +:+ cat ["---"; nl; nl].

Definition add_verse (acc : JsSet * string) (verse : Verse.t) : JsSet * string :=
  let '(allPages, body) := acc in
  let allPages :=
    match Verse.page_number verse with
    | Some p => if p =? 0 then allPages else Set_add p allPages
    | None => allPages
    end in
  (allPages, body +:+ verse_block verse).

Definition collection_options : GetVersesOptions :=
  {| opt_translations := Some [defaultTranslation settings];
     opt_perPage := Some 300;
     opt_fields := Some "text_uthmani,chapter_id,page_number" |}.

(** The loop over the ranges, with the page set and the body it grows. *)
Fixpoint collect_ranges (ranges : list VerseRange) (acc : JsSet * string) : M RS (JsSet * string) :=
  match ranges with
  | [] => ret acc
  | range :: rest =>
      let* chapter := getChapter (surah range) (language settings) in
      let acc := (acc.1, acc.2 +:+ range_heading range chapter) in
      let* allVerses := getVersesByChapter (surah range) collection_options in
      let filtered := range_filter range allVerses in
      collect_ranges rest (foldl add_verse acc filtered)
  end.

(** [JSON.stringify] of a string: quotes, backslashes and control
    characters are escaped. *)
Definition hex_digit (n : nat) : string :=
  String.substring n 1 "0123456789abcdef".

Definition json_escape_char (c : Ascii.ascii) : string :=
  let n := Ascii.nat_of_ascii c in
  if (n =? 34)%nat then "\" +:+ dquote
  else if (n =? 92)%nat then "\\"
  else if (n =? 8)%nat then "\b"
  else if (n =? 12)%nat then "\f"
  else if (n =? 10)%nat then "\n"
  else if (n =? 13)%nat then "\r"
  else if (n =? 9)%nat then "\t"
  else if (n <? 32)%nat then "\u00" +:+ hex_digit (n / 16) +:+ hex_digit (n mod 16)
  else String c "".

Fixpoint json_escape (s : string) : string :=
  match s with
  | EmptyString => ""
  | String c rest => json_escape_char c +:+ json_escape rest
  end.

Definition json_string (s : string) : string := cat [dquote; json_escape s; dquote].

Definition json_key (k : string) : string := cat [dquote; k; dquote; ":"].

Definition json_range (r : VerseRange) : string :=
  cat ["{";
       json_key "surah"; String_of_number (surah r); ",";
       json_key "startVerse"; String_of_number (startVerse r); ",";
       json_key "endVerse"; String_of_number (endVerse r);
       match label r with
       | Some l => cat [","; json_key "label"; json_string l]
       | None => ""
       end;
       "}"].

(** [JSON.stringify(this.ranges)]. *)
Definition json_ranges (ranges : list VerseRange) : string :=
  cat ["["; join "," (map json_range ranges); "]"].

(** [name.replace(/[^a-zA-Z0-9 _-]/g, "_")].  The source replaces UTF-16
    code units; on UTF-8 that is one underscore for the lead byte of a two
    or three byte character, two for the lead byte of a four byte one, and
    nothing for a continuation byte. *)
Definition safe_char (c : Ascii.ascii) : string :=
  let n := Ascii.nat_of_ascii c in
  if ((97 <=? n) && (n <=? 122) || (65 <=? n) && (n <=? 90)
      || (48 <=? n) && (n <=? 57) || (n =? 32) || (n =? 95) || (n =? 45))%nat
  then String c ""
  else if (n <? 128)%nat then "_"
  else if (n <? 192)%nat then ""
  else if (n <? 240)%nat then "_"
  else "__".

Fixpoint sanitize_name (s : string) : string :=
  match s with
  | EmptyString => ""
  | String c rest => safe_char c +:+ sanitize_name rest
  end.

Definition collection_content (collectionName today : string)
    (ranges : list VerseRange) (sortedPages : list Z) (body : string) : string :=
  cat [
    unlines [
      "---";
      "type: collection";
      cat ["name: "; dquote; collectionName; dquote];
      cat ["created: "; today];
      cat ["ranges: "; json_ranges ranges];
      cat ["pages: ["; join ", " (map String_of_number sortedPages); "]"];
      cat ["status: "; dquote; "not_started"; dquote];
      "tags: [quran, collection, custom]";
      "---";
      "";
      cat ["# "; collectionName];
      ""
    ];
    body;
    unlines [
      "";
      "## Progress";
      "";
      "- [ ] Started";
      "- [ ] Completed";
      "- [ ] Memorized";
      "";
      "## Notes";
      ""
    ]
  ].

Definition collection_path (collectionName : string) : string :=
  let safeName := sanitize_name collectionName in
  let fileName := cat [safeName; ".md"] in
  normalizePath (cat ["Quran/Collections/"; fileName]).

(** [new Date().toISOString().split("T")[0]]. *)
Definition current_date : M RS string := fun w => (Ok (w_today w), w).

(** What [createCollection] does with the page set and the body once the
    loop over the ranges is through. *)
Definition write_collection (collectionName : string) (ranges : list VerseRange)
    (built : JsSet * string) : M RS unit :=
  let allPages := built.1 in
  let body := built.2 in
  let sortedPages := sort_numeric allPages in
  let* today := current_date in
  let content := collection_content collectionName today ranges sortedPages body in
  let path := collection_path collectionName in
  (* Ensure Collections folder exists *)
  let folderPath := normalizePath "Quran/Collections" in
  let* folder := getAbstractFileByPath folderPath in
  match folder with
  | Some _ => ret tt
  | None => createFolder folderPath
  end ;;
  create path content ;;
  ui NoticeHidden ;;
  ui (NoticeShown (cat ["Collection "; dquote; collectionName; dquote; " created!"])) ;;
  ui ModalClosed ;;
  let* file := getAbstractFileByPath path in
  match file with
  | Some (File _) => ui (FileOpened path)
  | _ => ret tt
  end.

(** The body of [try] in [createCollection]. *)
Definition collection_steps (collectionName : string) (ranges : list VerseRange) : M RS unit :=
  let* built := collect_ranges ranges ([], "") in
  write_collection collectionName ranges built.

Definition createCollection (collectionName : string) (ranges : list VerseRange) : M RS unit :=
  if String.eqb collectionName "" || (length ranges =? 0)%nat
  then ui (NoticeShown "Please provide a name and at least one verse range.")
  else
    ui (NoticeShown "Creating collection...") ;;
    try_catch (collection_steps collectionName ranges)
      (fun e =>
         ui NoticeHidden ;;
         let msg := message_of e in
         ui (NoticeShown ("Error creating collection: " +:+ msg))).

End Program.

(** The settings a fresh installation starts with (settings.ts). *)
Definition DEFAULT_SETTINGS : QuranPluginSettings :=
  {| defaultTranslation := 20; showArabic := true; showTranslation := true;
     fontSize := 24; language := "en"; defaultNoteViewMode := view_verse;
     includeMushafInGeneration := true |}.

(** ** The views *)

(** [el.addClass(cls)] of the host is [classList.add]: the class attribute
    is split at ASCII whitespace into an ordered set of tokens, the token
    is added when it is not there, and the set is written back with single
    spaces.  The tokens the program adds are not empty and have no
    whitespace. *)
Definition is_ascii_whitespace (c : Ascii.ascii) : bool :=
  let n := Ascii.nat_of_ascii c in
  ((n =? 9) || (n =? 10) || (n =? 12) || (n =? 13) || (n =? 32))%nat.

Fixpoint split_tokens (s : string) (current : string) : list string :=
  match s with
  | EmptyString => if String.eqb current "" then [] else [current]
  | String c rest =>
      if is_ascii_whitespace c
      then (if String.eqb current "" then [] else [current]) ++ split_tokens rest ""
      else split_tokens rest (current +:+ String c "")
  end.

Definition add_token (tokens : list string) (token : string) : list string :=
  if existsb (String.eqb token) tokens then tokens else tokens ++ [token].

Definition class_tokens (className : string) : list string :=
  foldl add_token [] (split_tokens className "").

Definition addClass (n : Node) (cls : string) : Node :=
  match n with
  | TextNode d => TextNode d
  | Element tag className children =>
      Element tag (join " " (add_token (class_tokens className) cls)) children
  end.

(** *** views/SurahListView.ts *)

Definition surah_item (chapter : Chapter.t) : Node :=
  let item := createEl "div" None "surah-item" in
  let info :=
    appendChildren (createEl "div" None "surah-info")
      [createEl "span" (Some (Chapter.name_simple chapter)) "surah-name-transliterated";
       createEl "span"
         (Some (cat [String_of_number (Chapter.verses_count chapter); " verses ";
                     middle_dot; " "; Chapter.revelation_place chapter]))
         "surah-meta"] in
  appendChildren item
    [createEl "span" (Some (String_of_number (Chapter.id chapter))) "surah-number";
     info;
     createEl "span" (Some (Chapter.name_arabic chapter)) "surah-name-arabic"].

Definition renderChapterList (container : Node) (chapters : list Chapter.t) : Node :=
  let container := empty container in
  let list := appendChildren (createEl "div" None "surah-list") (map surah_item chapters) in
  appendChildren container
    [createEl "h2" (Some "Surahs of the Quran") "surah-list-header"; list].

Definition surah_list_error (e : Thrown) : Node :=
  createEl "div" (Some ("Error loading surahs: " +:+ message_of e)) "quran-error".

(** *** views/MushafView.ts

    The state of the view: the page it is on, and the two elements
    [loadPage] looks up in the view's container, which are there once the
    view has been opened: the page wrapper, and the page input with its
    value.  Pages are integers: the view starts on page 1 and the buttons
    add or subtract 1.  [leaf.updateHeader], a call of the host that
    redraws the header from [getDisplayText], changes nothing of this
    state. *)
Record MushafView : Type := {
  currentPage : Z;
  wrapper : option Node;
  pageInput : option string
}.

Definition getDisplayText (view : MushafView) : string :=
  cat ["Mushaf - Page "; String_of_number (currentPage view)].

Section Views.

Context {RS : Type}.
Variable remote : Remote RS.
Variable settings : QuranPluginSettings.

(** [onOpen] of the surah list: [chapters] is the field of the view, which
    is assigned when the list arrives. *)
Definition SurahListView_onOpen (chapters : list Chapter.t) (container : Node)
  : M RS (list Chapter.t * Node) :=
  let container := empty container in
  let container := addClass container "quran-surah-list" in
  let container :=
    appendChildren container [createEl "div" (Some "Loading surahs...") "quran-loading"] in
  try_catch
    (let* fetched := getChapters remote (language settings) in
     ret (fetched, renderChapterList container fetched))
    (fun e =>
       let container := empty container in
       ret (chapters, appendChildren container [surah_list_error e])).

(** The source assigns [currentPage] and the value of the input before it
    calls [fetchAndRenderPage]; that call does not throw (it catches what
    its requests throw), so the state is the same when it is put together
    after the call. *)
Definition loadPage (view : MushafView) (page : Z) : M RS MushafView :=
  match wrapper view with
  | None => ret view
  | Some wrapperEl =>
      let input := (fun _ => String_of_number page) <$> pageInput view in
      let* wrapperEl := fetchAndRenderPage remote wrapperEl page (language settings) in
      ret {| currentPage := page; wrapper := Some wrapperEl; pageInput := input |}
  end.

Definition navigatePage (view : MushafView) (delta : Z) : M RS MushafView :=
  let next := currentPage view + delta in
  if (1 <=? next) && (next <=? 604)
  then loadPage view next
  else ret view.

End Views.

(** *** main.ts: [parsePage]

    [line.match(/^\s*page\s*:\s*(\d+)\s*$/i)] on each line of the source.
    The classes of the expression do not overlap where they meet, so the
    match is found without backtracking.  [\s] is the white space and the
    line terminators of the language: the ASCII ones, and U+00A0, U+1680,
    U+2000 to U+200A, U+2028, U+2029, U+202F, U+205F, U+3000 and U+FEFF,
    here in UTF-8. *)
Definition is_space3 (n1 n2 n3 : nat) : bool :=
  ((n1 =? 225) && (n2 =? 154) && (n3 =? 128)
   || (n1 =? 226) && (n2 =? 128)
      && ((128 <=? n3) && (n3 <=? 138) || (n3 =? 168) || (n3 =? 169) || (n3 =? 175))
   || (n1 =? 226) && (n2 =? 129) && (n3 =? 159)
   || (n1 =? 227) && (n2 =? 128) && (n3 =? 128)
   || (n1 =? 239) && (n2 =? 187) && (n3 =? 191))%nat.

Definition is_space1 (n : nat) : bool :=
  ((9 <=? n) && (n <=? 13) || (n =? 32))%nat.

(** What is left after [\s*]. *)
Fixpoint skip_space (s : string) : string :=
  match s with
  | EmptyString => EmptyString
  | String c1 rest1 =>
      let n1 := Ascii.nat_of_ascii c1 in
      if is_space1 n1 then skip_space rest1
      else
        match rest1 with
        | EmptyString => s
        | String c2 rest2 =>
            let n2 := Ascii.nat_of_ascii c2 in
            if ((n1 =? 194) && (n2 =? 160))%nat then skip_space rest2
            else
              match rest2 with
              | EmptyString => s
              | String c3 rest3 =>
                  if is_space3 n1 n2 (Ascii.nat_of_ascii c3) then skip_space rest3 else s
              end
        end
  end.

(** One letter, in either case ([upper] is the code of the capital). *)
Definition expect_letter (upper : nat) (s : string) : option string :=
  match s with
  | String c rest =>
      let n := Ascii.nat_of_ascii c in
      if ((n =? upper) || (n =? upper + 32))%nat then Some rest else None
  | EmptyString => None
  end.

Definition expect_colon (s : string) : option string :=
  match s with
  | String c rest => if (Ascii.nat_of_ascii c =? 58)%nat then Some rest else None
  | EmptyString => None
  end.

Definition is_digit (c : Ascii.ascii) : bool :=
  let n := Ascii.nat_of_ascii c in ((48 <=? n) && (n <=? 57))%nat.

(** [\d+], greedy: the digits and what follows them. *)
Fixpoint take_digits (s : string) : string * string :=
  match s with
  | String c rest =>
      if is_digit c
      then let '(digits, after) := take_digits rest in (String c digits, after)
      else ("", s)
  | EmptyString => ("", "")
  end.

(** The capture group of a line that matches. *)
Definition match_page_line (line : string) : option string :=
  let s := skip_space line in
  s ← expect_letter 80 s;
  s ← expect_letter 65 s;
  s ← expect_letter 71 s;
  s ← expect_letter 69 s;
  s ← expect_colon (skip_space s);
  let '(digits, after) := take_digits (skip_space s) in
  if String.eqb digits "" then None
  else if String.eqb (skip_space after) "" then Some digits
  else None.

(** The integer a string of decimal digits stands for. *)
Fixpoint decimal_value (digits : string) (acc : Z) : Z :=
  match digits with
  | String c rest =>
      decimal_value rest (10 * acc + Z.of_nat (Ascii.nat_of_ascii c - 48))
  | EmptyString => acc
  end.

(** [Number(digits)]: the number nearest to the integer. *)
Definition Number_of_digits (digits : string) : float :=
  number_of_Z (decimal_value digits 0).

(** [source.split("\n")]. *)
Fixpoint split_lines (s : string) (current : string) : list string :=
  match s with
  | EmptyString => [current]
  | String c rest =>
      if (Ascii.nat_of_ascii c =? 10)%nat
      then current :: split_lines rest ""
      else split_lines rest (current +:+ String c "")
  end.

(** The loop of [parsePage]: the first line that matches decides. *)
Fixpoint first_page (lines : list string) : option float :=
  match lines with
  | [] => None
  | line :: rest =>
      match match_page_line line with
      | Some digits => Some (Number_of_digits digits)
      | None => first_page rest
      end
  end.

Definition parsePage (source : string) : option float :=
  first_page (split_lines source "").

(** ** The vocabulary of the properties *)

(** Whether [needle] occurs in [s]. *)
Fixpoint occurs (needle s : string) : bool :=
  String.prefix needle s
  || match s with
     | EmptyString => false
     | String _ rest => occurs needle rest
     end.

(** How often [needle] occurs in [s], overlapping occurrences included. *)
Fixpoint count_occurrences (needle s : string) : nat :=
  ((if String.prefix needle s then 1 else 0)
   + match s with
     | EmptyString => 0
     | String _ rest => count_occurrences needle rest
     end)%nat.

(** The calls of the module that read the cache. *)
Inductive CacheCall : Type :=
  | CallGetCached (language : string)
  | CallGetForIds (chapterIds : list Z) (language : string).

Definition error_block (e : Thrown) : Node :=
  createEl "div" (Some ("Error: " +:+ message_of e)) "quran-error".

(** The verse starts a section on line [line]: it is the first verse of its
    section and its first word is on that line. *)
Definition starts_on (verse : VerseWithWords.t) (line : Z) : Prop :=
  VerseWithWords.verse_number verse = 1
  /\ exists firstWord rest,
       VerseWithWords.words verse = firstWord :: rest
       /\ Word.line_number firstWord = line.

Definition is_banner (n : Node) : bool :=
  match n with
  | Element _ cls _ => String.eqb cls "mushaf-bismillah"
  | TextNode _ => false
  end.

Definition count_banners (plan : list Node) : nat :=
  length (List.filter is_banner plan).

(** A line gets a banner: a marker is on it, for a section other than 1
    and 9 whose metadata is in the lookup. *)
Definition banner_line (chapters : JsMap Chapter.t) (surahStartLines : JsMap Z)
    (lineNum : Z) : bool :=
  match Map_get lineNum surahStartLines with
  | Some c =>
      match Map_get c chapters with
      | Some _ => negb (c =? 9) && negb (c =? 1)
      | None => false
      end
  | None => false
  end.

(** A juz record with a given number; the other fields play no part in the
    mapping. *)
Definition juz_numbered (j : Z) : Juz.t := Juz.mk j j [] 0 0 0.

Definition thirty_juzs : list Juz.t := map juz_numbered (seqZ 1 30).

(** The juz whose approximate range holds the page (0 if there is none). *)
Definition juz_holding (page : Z) : Z :=
  default 0 (find (fun j => page_in_juz page (juz_numbered j)) (seqZ 1 30)).

(** The last page of the approximate range of juz [j]. *)
Definition last_page_of (j : Z) : Z := Z_of_number (approxEndPage (juz_numbered j)).

(** The item blocks of a list of verses, one after the other. *)
Definition verse_blocks (verses : list Verse.t) : string :=
  cat (map verse_block verses).

(** The body a range contributes. *)
Definition range_output (range : VerseRange) (chapter : Chapter.t)
    (allVerses : list Verse.t) : string :=
  range_heading range chapter +:+ verse_blocks (range_filter range allVerses).

Definition ayatul_kursi : VerseRange :=
  {| surah := 2; startVerse := 255; endVerse := 255; label := None |}.

Definition kahf_first : VerseRange :=
  {| surah := 18; startVerse := 1; endVerse := 10; label := None |}.

Definition kahf_second : VerseRange :=
  {| surah := 18; startVerse := 5; endVerse := 15; label := None |}.

Definition is_fetch (ev : Event) : Prop :=
  match ev with EvFetch _ _ => True | _ => False end.

Definition no_fetch (ev : Event) : Prop :=
  match ev with EvFetch _ _ => False | _ => True end.

Definition created_path (op : VaultOp) : option string :=
  match op with
  | OpCreate path _ => Some path
  | OpCreateFolder path => Some path
  | OpExists _ _ => None
  end.

(** Every creation comes right after an existence check of the same path
    that found nothing (the operations are newest first). *)
Fixpoint guarded (ops : list VaultOp) : bool :=
  match ops with
  | [] => true
  | op :: earlier =>
      match created_path op with
      | None => guarded earlier
      | Some path =>
          match earlier with
          | OpExists checked false :: _ => String.eqb path checked && guarded earlier
          | _ => false
          end
      end
  end.

Section Vocabulary.

Context {RS : Type}.
Variable remote : Remote RS.
Variable settings : QuranPluginSettings.

Definition run_call (c : CacheCall) : M RS unit :=
  match c with
  | CallGetCached language => getCachedChapters remote language ;; ret tt
  | CallGetForIds ids language => getChaptersForIds remote ids language ;; ret tt
  end.

(** The world after a round trip. *)
Definition fetched (w : World RS) (r : Request) (ok : bool) (s' : RS) : World RS :=
  mkWorld s' (EvFetch r ok :: w_trace w) (w_chaptersCache w) (w_vault w) (w_today w).

Definition chapter_request (range : VerseRange) : Request :=
  ReqChapter (surah range) (language settings).

Definition verses_request (range : VerseRange) : Request :=
  verses_by_chapter_request (surah range) (collection_options settings).

(** An action is tame for [P]: it changes no existing entry of the vault,
    and the events it adds to the trace all satisfy [P]. *)
Definition tame (P : Event -> Prop) {A : Type} (m : M RS A) : Prop :=
  forall w,
    w_vault w ⊆ w_vault (m w).2
    /\ exists new, w_trace (m w).2 = new ++ w_trace w /\ Forall P new.

(** The remote service answers a request the same way whenever it is
    asked. *)
Definition stationary : Prop :=
  forall (r : Request) (s s' : RS), (remote r s).1 = (remote r s').1.

(** The creations of an action are all guarded. *)
Definition checks_first {A : Type} (m : M RS A) : Prop :=
  forall w, exists new,
    w_trace (m w).2 = new ++ w_trace w /\ guarded (vault_ops new) = true.

(** Running the action again, on a vault that holds at least what the first
    run left, gives the same result and changes nothing; after a failure,
    on the vault as the first run left it. *)
Definition reruns {A : Type} (m : M RS A) : Prop :=
  forall w,
    match m w with
    | (Ok a, w1) =>
        forall w', w_vault w1 ⊆ w_vault w' ->
          (m w').1 = Ok a /\ w_vault (m w').2 = w_vault w'
    | (Throw e, w1) =>
        forall w', w_vault w' = w_vault w1 ->
          (m w').1 = Throw e /\ w_vault (m w').2 = w_vault w'
    end.

(** The three together; only the last needs the remote service to be
    stationary. *)
Definition steady {A : Type} (m : M RS A) : Prop :=
  tame (fun _ => True) m /\ checks_first m /\ (stationary -> reruns m).

(** The idiom of the generator: look the path up; leave if something is
    there; otherwise run [absent]. *)
Definition skip_if_exists (path : string) (absent : M RS unit) : M RS unit :=
  let* found := getAbstractFileByPath path in
  match found with
  | Some _ => ret tt
  | None => absent
  end.

(** Run on a vault without [path], the action either puts an entry at
    [path], by one creation of that path and no other vault operation, or
    throws without a vault operation; which of the two does not depend on
    the world when the remote service is stationary. *)
Definition creates (path : string) (absent : M RS unit) : Prop :=
  (forall w, w_vault w !! path = None ->
     exists new,
       w_trace (absent w).2 = new ++ w_trace w
       /\ (((absent w).1 = Ok tt
            /\ (exists entry, w_vault (absent w).2 = <[path := entry]> (w_vault w))
            /\ exists op, vault_ops new = [op] /\ created_path op = Some path)
           \/ ((exists e, (absent w).1 = Throw e)
               /\ w_vault (absent w).2 = w_vault w
               /\ vault_ops new = [])))
  /\ (stationary ->
      forall w w', w_vault w !! path = None -> w_vault w' !! path = None ->
        (absent w).1 = (absent w').1).

(** The world after an existence check. *)
Definition checked (w : World RS) (path : string) : World RS :=
  mkWorld (w_remote w)
    (EvVault (OpExists path (bool_decide (is_Some (w_vault w !! path)))) :: w_trace w)
    (w_chaptersCache w) (w_vault w) (w_today w).

(** An action that cannot fail and leaves the vault alone. *)
Definition silent (post : M RS unit) : Prop :=
  forall w,
    (post w).1 = Ok tt
    /\ w_vault (post w).2 = w_vault w
    /\ exists new, w_trace (post w).2 = new ++ w_trace w /\ vault_ops new = [].

Definition failure_notice (e : Thrown) : M RS unit :=
  ui NoticeHidden ;;
  ui (NoticeShown ("Vault generation failed: " +:+ message_of e)).

(** The world once the generator has shown its first notice. *)
Definition started (w : World RS) : World RS :=
  mkWorld (w_remote w) (EvUi (NoticeShown "Generating Quran ault...") :: w_trace w)
    (w_chaptersCache w) (w_vault w) (w_today w).

(** The world once the collection builder has shown its first notice. *)
Definition creating (w : World RS) : World RS :=
  mkWorld (w_remote w) (EvUi (NoticeShown "Creating collection...") :: w_trace w)
    (w_chaptersCache w) (w_vault w) (w_today w).

(** The end of a run of the collection builder that has built its body and
    then finds the document in the vault: the folder is looked up, [create]
    is called for the document and rejected, the error is shown. *)
Definition rejected_collection_trace (collectionName : string) (ranges : list VerseRange)
    (built : JsSet * string) (normalizePath : string -> string) (w : World RS) : list Event :=
  [EvUi (NoticeShown "Error creating collection: File already exists.");
   EvUi NoticeHidden;
   EvVault (OpCreate (collection_path normalizePath collectionName)
              (collection_content collectionName (w_today w) ranges
                 (sort_numeric built.1) built.2));
   EvVault (OpExists (normalizePath "Quran/Collections") true)].

End Vocabulary.

(** ** Further vocabulary *)

Definition zero_char : Ascii.ascii := Ascii.ascii_of_nat 48.

(** The characters the class [[a-zA-Z0-9 _-]] of [createCollection] holds. *)
Definition is_safe_char (c : Ascii.ascii) : bool :=
  let n := Ascii.nat_of_ascii c in
  ((97 <=? n) && (n <=? 122) || (65 <=? n) && (n <=? 90)
   || (48 <=? n) && (n <=? 57) || (n =? 32) || (n =? 95) || (n =? 45))%nat.

Fixpoint all_chars (p : Ascii.ascii -> bool) (s : string) : bool :=
  match s with
  | EmptyString => true
  | String c rest => p c && all_chars p rest
  end.

(** The words of a page in the order the verses carry them. *)
Definition all_words (verses : list VerseWithWords.t) : list Word.t :=
  concat (map VerseWithWords.words verses).

Definition on_line (line : Z) (word : Word.t) : bool :=
  Word.line_number word =? line.

(** One pass of the inner loop of [groupWordsByLine]. *)
Definition add_word (lineMap : JsMap (list Word.t)) (word : Word.t) : JsMap (list Word.t) :=
  let existing := default [] (Map_get (Word.line_number word) lineMap) in
  Map_set (Word.line_number word) (existing ++ [word]) lineMap.

(** The verse is the first of its section and its first word is on
    [line]. *)
Definition starts_on_line (line : Z) (verse : VerseWithWords.t) : bool :=
  (VerseWithWords.verse_number verse =? 1)
  && match VerseWithWords.words verse with
     | firstWord :: _ => Word.line_number firstWord =? line
     | [] => false
     end.

(** The map [getChaptersForIds] builds from the cached list. *)
Definition chapters_for_ids (chapterIds : list Z) (all : list Chapter.t) : JsMap Chapter.t :=
  foldl (fun map ch =>
           if includes (Chapter.id ch) chapterIds
           then Map_set (Chapter.id ch) ch map
           else map)
        [] all.

Definition has_id (id : Z) (ch : Chapter.t) : bool := Chapter.id ch =? id.

Definition is_line_block (n : Node) : bool :=
  match n with
  | Element _ cls _ => String.eqb cls "mushaf-line"
  | TextNode _ => false
  end.

(** The events of the loading line and of the error block, newest first. *)
Definition loading_events : list Event :=
  [EvUi (ContainerCreateEl "quran-loading" "Loading..."); EvUi ContainerEmptied].

Definition error_events (e : Thrown) : list Event :=
  [EvUi (ContainerCreateEl "quran-error" ("Error: " +:+ message_of e));
   EvUi ContainerEmptied].

(** The page element [fetchAndRenderPage] builds from the verses of a page
    and the list of all chapters. *)
Definition page_element (page : Z) (verses : list VerseWithWords.t)
    (all : list Chapter.t) : Node :=
  Element "div" "mushaf-page"
    (page_plan page (groupWordsByLine verses)
       (chapters_for_ids (Set_of (map VerseWithWords.chapter_id verses)) all)
       (buildSurahStartLines verses)).



Definition success_notice : Event :=
  EvUi (NoticeShown "Quran vault generated successfully!").

Definition failure_events (e : Thrown) : list Event :=
  [EvUi (NoticeShown ("Vault generation failed: " +:+ message_of e)); EvUi NoticeHidden].

Definition folder_paths (normalizePath : string -> string) : list string :=
  map (fun folder => normalizePath (cat [baseFolder; "/"; folder]))
      ["Surahs"; "Pages"; "Juz"; "Collections"].

(** The paths a complete run of the generator fills, whatever the remote
    service answers: the four folders, the 604 page documents and the
    index. *)
Definition generated_paths (normalizePath : string -> string) : list string :=
  folder_paths normalizePath
  ++ map (page_path normalizePath) all_pages
  ++ [index_path normalizePath].

(** The event is the request of the generator for the verses of
    [page]. *)
Definition fetches_page (options : VaultGeneratorOptions) (page : Z) (ev : Event) : Prop :=
  exists ok, ev = EvFetch (verses_by_page_request page (page_options options)) ok.

Section Outcomes.

Context {RS : Type}.
Variable remote : Remote RS.



(** When the action succeeds, the vault holds an entry at each of the
    paths. *)
Definition provides (paths : list string) {A : Type} (m : M RS A) : Prop :=
  forall w,
    is_Ok (m w).1 = true ->
    Forall (fun path => is_Some (w_vault (m w).2 !! path)) paths.


(** Run on a vault that holds [path], the action keeps it there and adds
    only events that satisfy [P]. *)
Definition quiet (P : Event -> Prop) (path : string) {A : Type} (m : M RS A) : Prop :=
  forall w,
    is_Some (w_vault w !! path) ->
    is_Some (w_vault (m w).2 !! path)
    /\ exists new, w_trace (m w).2 = new ++ w_trace w /\ Forall P new.

End Outcomes.

(** The page a verse adds to the page set of a collection: none when the
    field is missing or zero. *)
Definition nonzero_page (verse : Verse.t) : option Z :=
  match Verse.page_number verse with
  | Some p => if p =? 0 then None else Some p
  | None => None
  end.

(** The two requests the collection builder makes for a range. *)
Definition range_requests (settings : QuranPluginSettings) (range : VerseRange)
  : list (Request * bool) :=
  [(chapter_request settings range, true); (verses_request settings range, true)].

(** The world the validation of [createCollection] leaves. *)
Definition refused {RS : Type} (w : World RS) : World RS :=
  mkWorld (w_remote w)
    (EvUi (NoticeShown "Please provide a name and at least one verse range.") :: w_trace w)
    (w_chaptersCache w) (w_vault w) (w_today w).

(** What [createCollection] does once the body is built, on a vault that
    has neither the folder nor the document, newest first. *)
Definition written_events (normalizePath : string -> string) (collectionName today : string)
    (ranges : list VerseRange) (built : JsSet * string) : list Event :=
  let path := collection_path normalizePath collectionName in
  let content :=
    collection_content collectionName today ranges (sort_numeric built.1) built.2 in
  [EvUi (FileOpened path);
   EvVault (OpExists path true);
   EvUi ModalClosed;
   EvUi (NoticeShown (cat ["Collection "; dquote; collectionName; dquote; " created!"]));
   EvUi NoticeHidden;
   EvVault (OpCreate path content);
   EvVault (OpCreateFolder (normalizePath "Quran/Collections"));
   EvVault (OpExists (normalizePath "Quran/Collections") false)].

(** The event creates nothing, or creates a path inside the folder
    [Quran]. *)
Definition under_quran (normalizePath : string -> string) (ev : Event) : Prop :=
  match ev with
  | EvVault op =>
      match created_path op with
      | Some path => exists rest, path = normalizePath ("Quran/" +:+ rest)
      | None => True
      end
  | _ => True
  end.

(** ** Sample data for the examples *)

Definition sample_chapter (id : Z) (name : string) (verses : Z) (pages : list Z) : Chapter.t :=
  Chapter.mk id "makkah" id true name name name verses pages ("english", name).

Definition al_fatihah : Chapter.t := sample_chapter 1 "Al-Fatihah" 7 [1].
Definition al_baqarah : Chapter.t := sample_chapter 2 "Al-Baqarah" 286 (seqZ 2 48).
Definition al_kahf : Chapter.t := sample_chapter 18 "Al-Kahf" 110 (seqZ 293 12).

Definition sample_chapters : list Chapter.t := [al_fatihah; al_baqarah; al_kahf].

Definition sample_verse (chapter n page : Z) : Verse.t :=
  Verse.mk (chapter * 1000 + n) n
    (cat [String_of_number chapter; ":"; String_of_number n]) chapter
    (Some "...") (Some page) 1 1
    (Some [Translation.mk 1 20 "<p>meaning</p>"]).

Definition sample_verses (chapter : Z) : list Verse.t :=
  if chapter =? 1 then map (fun n => sample_verse 1 n 1) (seqZ 1 7)
  else if chapter =? 2 then map (fun n => sample_verse 2 n 42) [254; 255; 256]
  else if chapter =? 18 then map (fun n => sample_verse 18 n 293) (seqZ 1 20)
  else [].

Definition sample_word (line : Z) (text : string) : Word.t :=
  Word.mk 1 1 text char_word line 2.

(** Section 2 starts on line 3 of the page. *)
Definition opening_verse : VerseWithWords.t :=
  VerseWithWords.mk (sample_verse 2 1 2) [sample_word 3 "a"; sample_word 3 "b"].

Definition second_verse : VerseWithWords.t :=
  VerseWithWords.mk (sample_verse 2 2 2) [sample_word 4 "c"].

(** The first verse of another section, with its first word on line 3 as
    well. *)
Definition clashing_verse : VerseWithWords.t :=
  VerseWithWords.mk (sample_verse 3 1 2) [sample_word 3 "d"].

Definition not_found : Thrown := ErrorObject "Request failed, status 404".

(** A remote service without state: three chapters, some verses, the
    thirty juzs, and a rejection for what it does not have. *)
Definition sample_remote : Remote unit :=
  fun r s =>
    (match r return Result (Response r) with
     | ReqChapters _ => Ok sample_chapters
     | ReqChapter id _ =>
         match find (fun c => Chapter.id c =? id) sample_chapters with
         | Some c => Ok c
         | None => Throw not_found
         end
     | ReqVersesByChapter id _ _ _ => Ok (sample_verses id)
     | ReqVersesByPage page _ _ _ => Ok (if page =? 1 then sample_verses 1 else [])
     | ReqJuzs => Ok thirty_juzs
     | ReqVersesByPageWithWords page _ _ _ =>
         if (1 <=? page) && (page <=? 604)
         then Ok [opening_verse; second_verse]
         else Throw not_found
     end, s).

(** [normalizePath] on the paths of the program, which are normal. *)
Definition same_path (path : string) : string := path.

Definition sample_world : World unit := mkWorld tt [] None ∅ "2026-01-01".

(** A vault that holds the folder of the collections. *)
Definition folder_world : World unit :=
  mkWorld tt [] None (<["Quran/Collections" := Folder]> ∅) "2026-01-01".

(** A vault that already holds the folder and the document of the
    collection "Ayatul Kursi". *)
Definition taken_world : World unit :=
  mkWorld tt [] None
    (<["Quran/Collections/Ayatul Kursi.md" := File "kept"]>
       (<["Quran/Collections" := Folder]> ∅))
    "2026-01-01".

Definition sample_options : VaultGeneratorOptions :=
  {| includeTranslation := true; translationId := 20;
     includeMushaf := Some true; defaultViewMode := None |}.

Definition sample_lines : JsMap (list Word.t) :=
  groupWordsByLine [opening_verse; second_verse].

Definition sample_markers : JsMap Z :=
  buildSurahStartLines [opening_verse; second_verse].

(** A collection whose second range names a section the service does not
    have. *)
Definition broken_ranges : list VerseRange :=
  [ayatul_kursi; {| surah := 115; startVerse := 1; endVerse := 3; label := None |}].


(** A world whose cache holds the three chapters. *)
Definition cached_world : World unit :=
  mkWorld tt [] (Some sample_chapters) ∅ "2026-01-01".

(** A vault that holds the document of page 1 and nothing else. *)
Definition resumed_world : World unit :=
  mkWorld tt [] None (<["Quran/Pages/Page 001.md" := File "kept"]> ∅) "2026-01-01".

Definition sample_chapter_of (range : VerseRange) : Chapter.t :=
  if surah range =? 2 then al_baqarah else al_kahf.

Definition sample_verses_of (range : VerseRange) : list Verse.t :=
  sample_verses (surah range).

(** The view on the last page of the book. *)
Definition last_page_view : MushafView :=
  {| currentPage := 604;
     wrapper := Some (Element "div" "mushaf-page-wrapper" []);
     pageInput := Some "604" |}.

(** A service that rejects its first request and answers the later ones
    as the sample service does; its state counts the requests. *)
Definition flaky_remote : Remote nat :=
  fun r s =>
    (match s with
     | O => Throw not_found
     | S _ => (sample_remote r tt).1
     end, S s).

Definition flaky_world : World nat := mkWorld 0%nat [] None ∅ "2026-01-01".

(** A record at position 255 of section 2 whose key field reads "9:9". *)
Definition odd_verse : Verse.t :=
  Verse.mk 2255 255 "9:9" 2 (Some "...") (Some 42) 1 1
    (Some [Translation.mk 1 20 "<p>meaning</p>"]).

(** The sample service, but with [odd_verse] as the only verse of section 2. *)
Definition odd_remote : Remote unit :=
  fun r s =>
    (match r as r' return Result (Response r') -> Result (Response r') with
     | ReqVersesByChapter id _ _ _ => fun answer => if id =? 2 then Ok [odd_verse] else answer
     | _ => fun answer => answer
     end (sample_remote r s).1, s).

(* ===================================================================== *)
(** * Part II: properties *)
(* ===================================================================== *)

(** ** Strings *)

Lemma append_cons (c : Ascii.ascii) (s t : string) :
  String c s +:+ t = String c (s +:+ t).
Proof. reflexivity. Qed.

Lemma append_empty_r (s : string) : s +:+ "" = s.
Proof.
  induction s as [|c s IH]; [reflexivity|].
  now rewrite append_cons, IH.
Qed.

Lemma append_assoc (a b c : string) : (a +:+ b) +:+ c = a +:+ (b +:+ c).
Proof.
  induction a as [|x a IH]; [reflexivity|].
  now rewrite !append_cons, IH.
Qed.

(** ** utils/helpers.ts *)

Example padNumber_7_3 : padNumber 7 3 = "007".
Proof. reflexivity. Qed.

Example padNumber_1234_3 : padNumber 1234 3 = "1234".
Proof. reflexivity. Qed.

(** Writing a string into [textContent] and reading it back gives the
    string: nothing is parsed, nothing is removed. *)
Lemma stripHtml_returns_input (html : string) : stripHtml html = html.
Proof.
  unfold stripHtml, createElement, set_textContent.
  destruct (String.eqb html "") eqn:E; simpl.
  - apply String.eqb_eq in E. now subst.
  - apply append_empty_r.
Qed.

(** C1 (the code departs from the claim): on a translation with nested
    tags [stripHtml] returns its input unchanged, so the tag markers are
    all still there. *)
Theorem stripHtml_keeps_nested_tags :
  let html := "<p>In the <b>name <i>of</i></b> God</p>" in
  stripHtml html = html
  /\ occurs "<b>" (stripHtml html) = true
  /\ occurs "</i>" (stripHtml html) = true
  /\ stripHtml html <> "In the name of God".
Proof. cbn zeta. rewrite stripHtml_returns_input. repeat split; try reflexivity. discriminate. Qed.

(** ** The chapter cache *)

Section Cache.

Context {RS : Type}.
Variable remote : Remote RS.

(** A call on a filled cache answers from the cache and leaves the world
    as it is, whatever the language. *)
Lemma getCachedChapters_filled (language : string) (w : World RS) (cached : list Chapter.t) :
  w_chaptersCache w = Some cached ->
  getCachedChapters remote language w = (Ok cached, w).
Proof. intros H. unfold getCachedChapters. now rewrite H. Qed.

(** A call on an empty cache asks the remote service, in the language
    given. *)
Lemma getCachedChapters_empty (language : string) (w : World RS) :
  w_chaptersCache w = None ->
  getCachedChapters remote language w =
    match remote (ReqChapters language) (w_remote w) with
    | (Ok chapters, s') =>
        (Ok chapters,
         mkWorld s' (EvFetch (ReqChapters language) true :: w_trace w)
           (Some chapters) (w_vault w) (w_today w))
    | (Throw e, s') =>
        (Throw e,
         mkWorld s' (EvFetch (ReqChapters language) false :: w_trace w)
           None (w_vault w) (w_today w))
    end.
Proof.
  intros H. unfold getCachedChapters. rewrite H.
  unfold bind, getChapters, fetchJson.
  destruct (remote (ReqChapters language) (w_remote w)) as [[chapters|e] s']; simpl.
  - reflexivity.
  - now rewrite H.
Qed.

Lemma getCachedChapters_fills (language : string) (w w1 : World RS) (chapters : list Chapter.t) :
  getCachedChapters remote language w = (Ok chapters, w1) ->
  w_chaptersCache w1 = Some chapters.
Proof.
  intros H. destruct (w_chaptersCache w) as [cached|] eqn:E.
  - rewrite (getCachedChapters_filled _ _ _ E) in H. now inversion H; subst.
  - rewrite (getCachedChapters_empty _ _ E) in H.
    destruct (remote (ReqChapters language) (w_remote w)) as [[cs|e] s'];
      inversion H; subst; reflexivity.
Qed.

Lemma run_call_filled (c : CacheCall) (w : World RS) (cached : list Chapter.t) :
  w_chaptersCache w = Some cached -> run_call remote c w = (Ok tt, w).
Proof.
  intros H. destruct c; unfold run_call, getChaptersForIds, bind;
    rewrite (getCachedChapters_filled _ _ _ H); reflexivity.
Qed.

Lemma run_calls_filled (calls : list CacheCall) (w : World RS) (cached : list Chapter.t) :
  w_chaptersCache w = Some cached -> for_each calls (run_call remote) w = (Ok tt, w).
Proof.
  intros H. induction calls as [|c calls IH]; simpl; [reflexivity|].
  unfold bind. now rewrite (run_call_filled _ _ _ H).
Qed.

(** C10: once [getCachedChapters l1] has filled the cache, a call with any
    language [l2] performs no fetch and returns the list fetched for [l1];
    so does any sequence of cache reads; after [clearChaptersCache] the next
    call fetches again, in the language it is given. *)
Theorem getCachedChapters_ignores_language
    (l1 l2 : string) (w w1 : World RS) (chapters : list Chapter.t) :
  w_chaptersCache w = None ->
  getCachedChapters remote l1 w = (Ok chapters, w1) ->
  fetch_events (w_trace w1) = (ReqChapters l1, true) :: fetch_events (w_trace w)
  /\ getCachedChapters remote l2 w1 = (Ok chapters, w1)
  /\ (forall calls, for_each calls (run_call remote) w1 = (Ok tt, w1))
  /\ (forall w2, clearChaptersCache w1 = (Ok tt, w2) ->
      exists ok,
        fetch_events (w_trace (getCachedChapters remote l2 w2).2)
        = (ReqChapters l2, ok) :: fetch_events (w_trace w1)).
Proof.
  intros Hempty Hget.
  pose proof (getCachedChapters_fills _ _ _ _ Hget) as Hfilled.
  repeat split.
  - rewrite (getCachedChapters_empty _ _ Hempty) in Hget.
    destruct (remote (ReqChapters l1) (w_remote w)) as [[cs|e] s'];
      inversion Hget; subst; reflexivity.
  - now apply getCachedChapters_filled.
  - intros calls. now apply run_calls_filled with (cached := chapters).
  - intros w2 Hclear. inversion Hclear; subst; clear Hclear.
    rewrite getCachedChapters_empty by reflexivity. simpl.
    destruct (remote (ReqChapters l2) (w_remote w1)) as [[cs|e] s'];
      eexists; reflexivity.
Qed.

End Cache.

(** ** The page view *)

Section PageView.

Context {RS : Type}.
Variable remote : Remote RS.


End PageView.

(** ** Maps in insertion order *)

Lemma Map_get_set {V : Type} (k k' : Z) (v : V) (m : JsMap V) :
  Map_get k (Map_set k' v m) = if k' =? k then Some v else Map_get k m.
Proof.
  induction m as [|[k0 v0] m IH]; simpl.
  - reflexivity.
  - destruct (k0 =? k') eqn:E0; simpl.
    + apply Z.eqb_eq in E0. subst k0. destruct (k' =? k); reflexivity.
    + rewrite IH. destruct (k0 =? k) eqn:E1; [|reflexivity].
      apply Z.eqb_eq in E1. subst k0. now rewrite Z.eqb_sym, E0.
Qed.

Lemma Map_get_set_eq {V : Type} (k : Z) (v : V) (m : JsMap V) :
  Map_get k (Map_set k v m) = Some v.
Proof. now rewrite Map_get_set, Z.eqb_refl. Qed.

Lemma Map_get_set_ne {V : Type} (k k' : Z) (v : V) (m : JsMap V) :
  k' <> k -> Map_get k (Map_set k' v m) = Map_get k m.
Proof. intros H. rewrite Map_get_set. now apply Z.eqb_neq in H as ->. Qed.

(** ** Section-start markers *)

Lemma mark_surah_start_starts (map : JsMap Z) (verse : VerseWithWords.t) (line : Z) :
  starts_on verse line ->
  mark_surah_start map verse = Map_set line (VerseWithWords.chapter_id verse) map.
Proof.
  intros [Hn (fw & rest & Hw & Hl)]. unfold mark_surah_start.
  rewrite Hn, Hw, <- Hl. reflexivity.
Qed.

Lemma mark_surah_start_cases (map : JsMap Z) (verse : VerseWithWords.t) :
  mark_surah_start map verse = map
  \/ exists line, starts_on verse line
       /\ mark_surah_start map verse
          = Map_set line (VerseWithWords.chapter_id verse) map.
Proof.
  unfold mark_surah_start, starts_on.
  destruct (VerseWithWords.verse_number verse =? 1) eqn:En; simpl; [|now left].
  apply Z.eqb_eq in En.
  destruct (VerseWithWords.words verse) as [|fw rest] eqn:Ew; simpl; [now left|].
  right. exists (Word.line_number fw). split; [|reflexivity].
  split; [exact En|]. now exists fw, rest.
Qed.

(** A marker of the result was in the map at the start or comes from a
    verse that starts its section on that line. *)
Lemma markers_come_from_starts (verses : list VerseWithWords.t) (map : JsMap Z) (line c : Z) :
  Map_get line (foldl mark_surah_start map verses) = Some c ->
  Map_get line map = Some c
  \/ exists verse, In verse verses /\ starts_on verse line
                   /\ VerseWithWords.chapter_id verse = c.
Proof.
  revert map. induction verses as [|v verses IH]; intros map H; simpl in *.
  - now left.
  - destruct (IH _ H) as [Hm | (u & Hin & Hs & Hc)].
    + destruct (mark_surah_start_cases map v) as [E | (l & Hs & E)]; rewrite E in Hm.
      * now left.
      * rewrite Map_get_set in Hm. destruct (l =? line) eqn:El.
        -- apply Z.eqb_eq in El. subst l. inversion Hm; subst.
           right. exists v. auto.
        -- now left.
    + right. exists u. auto.
Qed.

(** A marker stays as long as no later verse starts a section on its
    line. *)
Lemma marker_kept (verses : list VerseWithWords.t) (map : JsMap Z) (line c : Z) :
  Map_get line map = Some c ->
  (forall u, In u verses -> ~ starts_on u line) ->
  Map_get line (foldl mark_surah_start map verses) = Some c.
Proof.
  revert map. induction verses as [|v verses IH]; intros map Hm Hno; simpl.
  - exact Hm.
  - apply IH; [|intros u Hu; apply Hno; now right].
    destruct (mark_surah_start_cases map v) as [E | (l & Hs & E)]; rewrite E.
    + exact Hm.
    + rewrite Map_get_set_ne; [exact Hm|].
      intros ->. apply (Hno v); [now left | exact Hs].
Qed.

(** C4 (amended): let [verse] be the one item of the page with position 1
    in its section, with a first word on line [line], and let no later item
    start a section on that same line.  Then [buildSurahStartLines] maps
    [line] to that section, and maps no other line to it. *)
Theorem buildSurahStartLines_marks_first_word
    (before after : list VerseWithWords.t) (verse : VerseWithWords.t) (line : Z) :
  starts_on verse line ->
  (forall u, In u (before ++ after) ->
     VerseWithWords.verse_number u = 1 ->
     VerseWithWords.chapter_id u <> VerseWithWords.chapter_id verse) ->
  (forall u, In u after -> ~ starts_on u line) ->
  let markers := buildSurahStartLines (before ++ verse :: after) in
  Map_get line markers = Some (VerseWithWords.chapter_id verse)
  /\ forall other,
       Map_get other markers = Some (VerseWithWords.chapter_id verse) ->
       other = line.
Proof.
  intros Hs Huniq Hlater markers. subst markers. unfold buildSurahStartLines. split.
  - rewrite foldl_app. simpl. apply marker_kept; [|exact Hlater].
    rewrite (mark_surah_start_starts _ _ _ Hs). apply Map_get_set_eq.
  - intros other Hget.
    apply markers_come_from_starts in Hget as [Hnil | (u & Hin & Hu & Hc)].
    + discriminate Hnil.
    + apply in_app_or in Hin as [Hin | [-> | Hin]].
      * exfalso. apply (Huniq u); [apply in_or_app; now left | apply Hu | exact Hc].
      * destruct Hs as [_ (fw & r & Hw & Hl)], Hu as [_ (fw' & r' & Hw' & Hl')].
        rewrite Hw in Hw'. inversion Hw'; subst. reflexivity.
      * exfalso. apply (Huniq u); [apply in_or_app; now right | apply Hu | exact Hc].
Qed.

(** ** The invocation-phrase banner *)

Lemma count_banners_app (a b : list Node) :
  count_banners (a ++ b) = (count_banners a + count_banners b)%nat.
Proof. unfold count_banners. now rewrite List.filter_app, length_app. Qed.

Lemma render_line_count (lineMap : JsMap (list Word.t)) (chapters : JsMap Chapter.t)
    (marks : JsMap Z) (lineNum : Z) :
  count_banners (render_line lineMap chapters marks lineNum)
  = if banner_line chapters marks lineNum then 1%nat else 0%nat.
Proof.
  unfold render_line, banner_line.
  destruct (Map_get lineNum marks) as [c|]; [|reflexivity].
  destruct (Map_get c chapters) as [ch|]; [|reflexivity].
  destruct (negb (c =? 9) && negb (c =? 1)); reflexivity.
Qed.

Lemma render_lines_count (lineMap : JsMap (list Word.t)) (chapters : JsMap Chapter.t)
    (marks : JsMap Z) (lineNumbers : list Z) :
  count_banners (concat (map (render_line lineMap chapters marks) lineNumbers))
  = length (List.filter (banner_line chapters marks) lineNumbers).
Proof.
  induction lineNumbers as [|l ls IH]; [reflexivity|].
  simpl. rewrite count_banners_app, render_line_count, IH.
  destruct (banner_line chapters marks l); reflexivity.
Qed.

(** C5 (amended): in the plan of a page the banners are those of the lines
    of the line map that carry a marker for a section other than 1 and 9
    with metadata in the lookup, one per such line; there the banner comes
    immediately after that section's header and before the line; a line
    whose marker is for section 1 or 9 gets none. *)
Theorem renderMushafPage_banner
    (page : Z) (lineMap : JsMap (list Word.t)) (chapters : JsMap Chapter.t)
    (marks : JsMap Z) :
  let plan := page_plan page lineMap chapters marks in
  let lineNumbers := sort_numeric (Map_keys lineMap) in
  let line := render_line lineMap chapters marks in
  count_banners plan = length (List.filter (banner_line chapters marks) lineNumbers)
  /\ (forall lineNum c,
        Map_get lineNum marks = Some c -> c = 1 \/ c = 9 ->
        banner_line chapters marks lineNum = false
        /\ count_banners (line lineNum) = 0%nat)
  /\ (forall before lineNum after c chapter,
        lineNumbers = before ++ lineNum :: after ->
        Map_get lineNum marks = Some c -> c <> 1 -> c <> 9 ->
        Map_get c chapters = Some chapter ->
        banner_line chapters marks lineNum = true
        /\ count_banners (line lineNum) = 1%nat
        /\ plan = concat (map line before)
                  ++ [surah_header chapter; bismillah_banner;
                      line_block (default [] (Map_get lineNum lineMap))]
                  ++ concat (map line after) ++ [page_footer page chapters]).
Proof.
  cbn zeta. split; [|split].
  - unfold page_plan. rewrite count_banners_app, render_lines_count.
    apply Nat.add_0_r.
  - intros lineNum c Hm Hc.
    assert (Hb : banner_line chapters marks lineNum = false).
    { unfold banner_line. rewrite Hm.
      destruct (Map_get c chapters); [|reflexivity].
      destruct Hc; subst; reflexivity. }
    split; [exact Hb|]. now rewrite render_line_count, Hb.
  - intros before lineNum after c chapter Hsplit Hm H1 H9 Hch.
    assert (Hb : banner_line chapters marks lineNum = true).
    { unfold banner_line. rewrite Hm, Hch.
      apply Z.eqb_neq in H1, H9. now rewrite H1, H9. }
    split; [exact Hb|]. split; [now rewrite render_line_count, Hb|].
    unfold page_plan. rewrite Hsplit, map_app, concat_app. simpl.
    unfold render_line at 2. rewrite Hm, Hch.
    apply Z.eqb_neq in H1, H9. rewrite H1, H9. simpl.
    now rewrite <- !app_assoc.
Qed.

(** [renderMushafPage] puts the plan into one page element, alone in the
    container. *)
Lemma renderMushafPage_plan (tag cls : string) (stale : list Node) (page : Z)
    (lineMap : JsMap (list Word.t)) (chapters : JsMap Chapter.t) (marks : JsMap Z) :
  renderMushafPage (Element tag cls stale) page lineMap chapters marks
  = Element tag cls
      [Element "div" "mushaf-page" (page_plan page lineMap chapters marks)].
Proof. reflexivity. Qed.

(** ** The page-to-juz mapping *)

Lemma page_in_juz_number (page : Z) (juz : Juz.t) :
  page_in_juz page juz = page_in_juz page (juz_numbered (Juz.juz_number juz)).
Proof. reflexivity. Qed.

Lemma forallb_seqZ (f : Z -> bool) (m n : Z) :
  forallb f (seqZ m n) = true -> forall x, m <= x < m + n -> f x = true.
Proof.
  intros H x Hx. rewrite forallb_forall in H. apply H.
  apply list_elem_of_In, elem_of_seqZ. exact Hx.
Qed.

(** Among the numbers 1..30 exactly one range holds a given page: the
    ranges computed in floating point are disjoint and cover 1..604. *)
Lemma ranges_partition_pages (page j : Z) :
  1 <= page <= 604 -> 1 <= j <= 30 ->
  page_in_juz page (juz_numbered j) = (j =? juz_holding page).
Proof.
  intros Hp Hj.
  assert (H : forallb (fun p =>
                let jp := juz_holding p in
                forallb (fun k => Bool.eqb (page_in_juz p (juz_numbered k)) (k =? jp))
                        (seqZ 1 30))
              (seqZ 1 604) = true) by (vm_compute; reflexivity).
  pose proof (forallb_seqZ _ _ _ H page ltac:(lia)) as H1. cbn zeta in H1.
  pose proof (forallb_seqZ _ _ _ H1 j ltac:(lia)) as H2. cbn beta in H2.
  now apply Bool.eqb_prop in H2.
Qed.

Lemma juz_holding_bounds (page : Z) :
  1 <= page <= 604 -> 1 <= juz_holding page <= 30.
Proof.
  intros Hp.
  assert (H : forallb (fun p => (1 <=? juz_holding p) && (juz_holding p <=? 30))
                      (seqZ 1 604) = true) by (vm_compute; reflexivity).
  pose proof (forallb_seqZ _ _ _ H page ltac:(lia)) as H1. cbn beta in H1.
  apply andb_true_iff in H1 as [Ha Hb]. lia.
Qed.

Lemma juz_holding_step (page : Z) :
  1 <= page <= 603 -> juz_holding page <= juz_holding (page + 1).
Proof.
  intros Hp.
  assert (H : forallb (fun p => juz_holding p <=? juz_holding (p + 1))
                      (seqZ 1 603) = true) by (vm_compute; reflexivity).
  pose proof (forallb_seqZ _ _ _ H page ltac:(lia)) as H1. cbn beta in H1. lia.
Qed.

Lemma juz_holding_monotone (p q : Z) :
  1 <= p -> p <= q -> q <= 604 -> juz_holding p <= juz_holding q.
Proof.
  intros Hp Hpq Hq.
  replace q with (p + Z.of_nat (Z.to_nat (q - p))) in * by lia.
  induction (Z.to_nat (q - p)) as [|n IH].
  - rewrite Z.add_0_r. lia.
  - etransitivity; [apply IH; lia|].
    replace (p + Z.of_nat (S n)) with (p + Z.of_nat n + 1) by lia.
    apply juz_holding_step. lia.
Qed.

Lemma juz_holding_onto (j : Z) :
  1 <= j <= 30 -> exists page, 1 <= page <= 604 /\ juz_holding page = j.
Proof.
  intros Hj.
  assert (H : forallb (fun k =>
                let p := last_page_of k in
                (1 <=? p) && (p <=? 604) && (juz_holding p =? k))
              (seqZ 1 30) = true) by (vm_compute; reflexivity).
  pose proof (forallb_seqZ _ _ _ H j ltac:(lia)) as H1. cbn zeta beta in H1.
  apply andb_true_iff in H1 as [H1 H3]. apply andb_true_iff in H1 as [H1 H2].
  exists (last_page_of j). lia.
Qed.

(** With records numbered within 1..30 that include the holder of the page,
    the inner loop records the holder, in whatever order the records come. *)
Lemma assign_page_holder (page : Z) (juzs : list Juz.t) (pageToJuz : JsMap Z) :
  1 <= page <= 604 ->
  (forall j, In j (map Juz.juz_number juzs) -> 1 <= j <= 30) ->
  In (juz_holding page) (map Juz.juz_number juzs) ->
  assign_page page juzs pageToJuz = Map_set page (juz_holding page) pageToJuz.
Proof.
  intros Hp. induction juzs as [|juz rest IH]; intros Hall Hin; simpl in *.
  - destruct Hin.
  - rewrite page_in_juz_number, ranges_partition_pages by auto.
    destruct (Juz.juz_number juz =? juz_holding page) eqn:E.
    + apply Z.eqb_eq in E. now rewrite E.
    + apply Z.eqb_neq in E. apply IH; [auto|].
      destruct Hin as [Hin|Hin]; [contradiction | exact Hin].
Qed.

Lemma Map_get_fill_other (f : Z -> Z) (pages : list Z) (m : JsMap Z) (page : Z) :
  ~ In page pages ->
  Map_get page (foldl (fun m p => Map_set p (f p) m) m pages) = Map_get page m.
Proof.
  revert m. induction pages as [|q pages IH]; intros m Hnot; [reflexivity|].
  simpl. rewrite IH by (intros H; apply Hnot; now right).
  apply Map_get_set_ne. intros ->. apply Hnot. now left.
Qed.

Lemma Map_get_fill (f : Z -> Z) (pages : list Z) (m : JsMap Z) (page : Z) :
  In page pages ->
  Map_get page (foldl (fun m p => Map_set p (f p) m) m pages) = Some (f page).
Proof.
  revert m. induction pages as [|q pages IH]; intros m Hin; [destruct Hin|].
  simpl. destruct (in_dec Z.eq_dec page pages) as [Hlater|Hlast].
  - now apply IH.
  - destruct Hin as [->|Hin]; [|contradiction].
    rewrite Map_get_fill_other by exact Hlast. apply Map_get_set_eq.
Qed.

Lemma foldl_ext_in {A B : Type} (f g : A -> B -> A) (l : list B) (a : A) :
  (forall x y, In y l -> f x y = g x y) -> foldl f a l = foldl g a l.
Proof.
  revert a. induction l as [|y l IH]; intros a H; [reflexivity|].
  simpl. rewrite H by now left. apply IH. intros x z Hz. apply H. now right.
Qed.

Section JuzMap.

Variable juzs : list Juz.t.
Hypothesis all_present : forall j, 1 <= j <= 30 -> In j (map Juz.juz_number juzs).
Hypothesis none_else : forall j, In j (map Juz.juz_number juzs) -> 1 <= j <= 30.

Lemma buildJuzPageMap_holder (page : Z) :
  1 <= page <= 604 ->
  Map_get page (buildJuzPageMap juzs) = Some (juz_holding page).
Proof.
  intros Hp. unfold buildJuzPageMap.
  rewrite (foldl_ext_in _ (fun m p => Map_set p (juz_holding p) m)).
  - apply Map_get_fill. apply list_elem_of_In, elem_of_seqZ. lia.
  - intros m p Hin. apply list_elem_of_In, elem_of_seqZ in Hin.
    apply assign_page_holder; [lia | exact none_else |].
    apply all_present, juz_holding_bounds. lia.
Qed.

(** The fallback [Math.ceil(page / 20)] is never taken on 1..604. *)
Lemma juzNumber_of_page_holder (page : Z) :
  1 <= page <= 604 ->
  juzNumber_of_page (buildJuzPageMap juzs) page = juz_holding page.
Proof.
  intros Hp. unfold juzNumber_of_page. now rewrite buildJuzPageMap_holder.
Qed.

(** C2: given the juz records numbered 1..30 (in any order), the division
    the generator derives for a page of 1..604 is an integer of 1..30, does
    not decrease as the page grows, and every division of 1..30 is the
    division of some page. *)
Theorem page_to_juz_range_monotone_onto :
  let juzOf := juzNumber_of_page (buildJuzPageMap juzs) in
  (forall page, 1 <= page <= 604 -> 1 <= juzOf page <= 30)
  /\ (forall p q, 1 <= p -> p <= q -> q <= 604 -> juzOf p <= juzOf q)
  /\ (forall j, 1 <= j <= 30 -> exists page, 1 <= page <= 604 /\ juzOf page = j).
Proof.
  cbn zeta. split; [|split].
  - intros page Hp. rewrite juzNumber_of_page_holder by exact Hp.
    now apply juz_holding_bounds.
  - intros p q Hp Hpq Hq. rewrite !juzNumber_of_page_holder by lia.
    now apply juz_holding_monotone.
  - intros j Hj. destruct (juz_holding_onto j Hj) as (page & Hp & He).
    exists page. split; [exact Hp|]. now rewrite juzNumber_of_page_holder.
Qed.

End JuzMap.

Lemma thirty_juzs_numbers : map Juz.juz_number thirty_juzs = seqZ 1 30.
Proof. reflexivity. Qed.

(** The mapping for the thirty records in their order. *)
Lemma page_to_juz_thirty_juzs :
  let juzOf := juzNumber_of_page (buildJuzPageMap thirty_juzs) in
  (forall page, 1 <= page <= 604 -> 1 <= juzOf page <= 30)
  /\ (forall p q, 1 <= p -> p <= q -> q <= 604 -> juzOf p <= juzOf q)
  /\ (forall j, 1 <= j <= 30 -> exists page, 1 <= page <= 604 /\ juzOf page = j).
Proof.
  apply (page_to_juz_range_monotone_onto thirty_juzs).
  - intros j Hj. rewrite thirty_juzs_numbers.
    apply list_elem_of_In, elem_of_seqZ. lia.
  - intros j Hj. rewrite thirty_juzs_numbers in Hj.
    apply list_elem_of_In, elem_of_seqZ in Hj. lia.
Defined.

Example juz_of_some_pages :
  map (juzNumber_of_page (buildJuzPageMap thirty_juzs)) [1; 20; 21; 302; 303; 604]
  = [1; 1; 2; 15; 16; 30].
Proof. vm_compute. reflexivity. Qed.

(** ** The collection builder *)

Lemma cat_cons (x : string) (l : list string) : cat (x :: l) = x +:+ cat l.
Proof.
  unfold cat. destruct l as [|y l]; simpl; [now rewrite append_empty_r | reflexivity].
Qed.

Lemma foldl_add_verse_body (verses : list Verse.t) (acc : JsSet * string) :
  (foldl add_verse acc verses).2 = acc.2 +:+ verse_blocks verses.
Proof.
  revert acc. induction verses as [|v verses IH]; intros [pages body]; simpl.
  - now rewrite append_empty_r.
  - rewrite IH. unfold verse_blocks. simpl map. rewrite cat_cons.
    simpl. now rewrite append_assoc.
Qed.

Section Collection.

Context {RS : Type}.
Variable remote : Remote RS.
Variable normalizePath : string -> string.
Variable settings : QuranPluginSettings.

Lemma fetchJson_ok (r : Request) (w : World RS) (a : Response r) (s' : RS) :
  remote r (w_remote w) = (Ok a, s') ->
  fetchJson remote r w = (Ok a, fetched w r true s').
Proof. intros H. unfold fetchJson. now rewrite H. Qed.

Lemma fetchJson_throw (r : Request) (w : World RS) (e : Thrown) (s' : RS) :
  remote r (w_remote w) = (Throw e, s') ->
  fetchJson remote r w = (Throw e, fetched w r false s').
Proof. intros H. unfold fetchJson. now rewrite H. Qed.

(** One pass of the loop over the ranges, when both fetches are answered. *)
Lemma collect_ranges_step (range : VerseRange) (rest : list VerseRange)
    (acc : JsSet * string) (w : World RS)
    (chapter : Chapter.t) (allVerses : list Verse.t) (s1 s2 : RS) :
  remote (chapter_request settings range) (w_remote w) = (Ok chapter, s1) ->
  remote (verses_request settings range) s1 = (Ok allVerses, s2) ->
  collect_ranges remote settings (range :: rest) acc w
  = collect_ranges remote settings rest
      (foldl add_verse (acc.1, acc.2 +:+ range_heading range chapter)
             (range_filter range allVerses))
      (fetched (fetched w (chapter_request settings range) true s1)
               (verses_request settings range) true s2).
Proof.
  intros Hc Hv. unfold chapter_request in Hc. unfold verses_request in Hv.
  cbn [collect_ranges]. unfold bind, getChapter, getVersesByChapter, fetchJson.
  rewrite Hc. cbn [w_remote]. rewrite Hv. reflexivity.
Qed.

Lemma range_filter_ayatul_kursi (allVerses : list Verse.t) :
  range_filter ayatul_kursi allVerses
  = filter (fun v => Verse.verse_number v = 255) allVerses.
Proof.
  unfold range_filter. apply list_filter_iff. intros v. simpl.
  rewrite Z.leb_le. lia.
Qed.

Lemma body_after_range (range : VerseRange) (chapter : Chapter.t)
    (allVerses : list Verse.t) (acc : JsSet * string) :
  (foldl add_verse (acc.1, acc.2 +:+ range_heading range chapter)
         (range_filter range allVerses)).2
  = acc.2 +:+ range_output range chapter allVerses.
Proof.
  rewrite foldl_add_verse_body. unfold range_output. simpl.
  now rewrite append_assoc.
Qed.

(** *** Failure of a fetch *)

Lemma vault_ops_app (a b : list Event) : vault_ops (a ++ b) = vault_ops a ++ vault_ops b.
Proof. unfold vault_ops. apply omap_app. Qed.

Lemma vault_ops_fetches (new : list Event) : Forall is_fetch new -> vault_ops new = [].
Proof.
  induction 1 as [|ev new Hev _ IH]; [reflexivity|].
  destruct ev; try contradiction. exact IH.
Qed.

(** The loop over the ranges only fetches; it leaves the vault alone; it
    throws exactly when a fetch is rejected, and that fetch is its last
    effect. *)
Lemma collect_ranges_effects (ranges : list VerseRange) (acc : JsSet * string)
    (w w' : World RS) (res : Result (JsSet * string)) :
  collect_ranges remote settings ranges acc w = (res, w') ->
  w_vault w' = w_vault w
  /\ exists new,
       w_trace w' = new ++ w_trace w
       /\ Forall is_fetch new
       /\ match res with
          | Ok _ => forall r, EvFetch r false ∉ new
          | Throw e => exists r new', new = EvFetch r false :: new'
          end.
Proof.
  revert acc w. induction ranges as [|range rest IH]; intros acc w H.
  - inversion H; subst. split; [reflexivity|]. exists []. repeat split.
    + constructor.
    + intros r Hin. inversion Hin.
  - cbn [collect_ranges] in H. unfold bind, getChapter, getVersesByChapter, fetchJson in H.
    destruct (remote (ReqChapter (surah range) (language settings)) (w_remote w))
      as [[chapter|e] s1] eqn:Hc; cbn [w_remote] in H.
    + destruct (remote (verses_by_chapter_request (surah range) (collection_options settings)) s1)
        as [[allVerses|e] s2] eqn:Hv.
      * apply IH in H as [Hvault (new & Htrace & Hfetch & Hres)].
        split; [exact Hvault|].
        exists (new ++ [EvFetch (verses_by_chapter_request (surah range)
                                   (collection_options settings)) true;
                        EvFetch (ReqChapter (surah range) (language settings)) true]).
        split; [rewrite Htrace, <- app_assoc; reflexivity|]. split.
        -- apply Forall_app. split; [exact Hfetch|]. repeat constructor.
        -- destruct res as [a|e].
           ++ intros r Hin. apply elem_of_app in Hin as [Hin|Hin]; [now apply (Hres r)|].
              repeat (apply elem_of_cons in Hin as [Hin|Hin]; [discriminate Hin|]).
              inversion Hin.
           ++ destruct Hres as (r & new' & ->). eexists _, _. reflexivity.
      * inversion H; subst; clear H. split; [reflexivity|].
        eexists [_; _]. split; [reflexivity|]. split; [repeat constructor|].
        eexists _, _. reflexivity.
    + inversion H; subst; clear H. split; [reflexivity|].
      eexists [_]. split; [reflexivity|]. split; [repeat constructor|].
      eexists _, _. reflexivity.
Qed.


Lemma tame_ret (P : Event -> Prop) {A : Type} (a : A) : tame (RS:=RS) P (@ret RS A a).
Proof. intros w. split; [reflexivity|]. exists []. split; [reflexivity | constructor]. Qed.

Lemma tame_bind (P : Event -> Prop) {A B : Type} (m : M RS A) (k : A -> M RS B) :
  tame (RS:=RS) P m -> (forall a, tame (RS:=RS) P (k a)) -> tame (RS:=RS) P (bind m k).
Proof.
  intros Hm Hk w. unfold bind.
  destruct (Hm w) as [Hsub (new & Htrace & Hnew)].
  destruct (m w) as [[a|e] w1]; simpl in *.
  - destruct (Hk a w1) as [Hsub' (new' & Htrace' & Hnew')]. split.
    + etransitivity; eassumption.
    + exists (new' ++ new). split.
      * rewrite Htrace', Htrace. apply app_assoc.
      * apply Forall_app. split; assumption.
  - split; [exact Hsub|]. exists new. split; assumption.
Qed.

Lemma tame_try_catch (P : Event -> Prop) {A : Type} (m : M RS A) (h : Thrown -> M RS A) :
  tame (RS:=RS) P m -> (forall e, tame (RS:=RS) P (h e)) -> tame (RS:=RS) P (try_catch m h).
Proof.
  intros Hm Hh w. unfold try_catch.
  destruct (Hm w) as [Hsub (new & Htrace & Hnew)].
  destruct (m w) as [[a|e] w1]; simpl in *.
  - split; [exact Hsub|]. exists new. split; assumption.
  - destruct (Hh e w1) as [Hsub' (new' & Htrace' & Hnew')]. split.
    + etransitivity; eassumption.
    + exists (new' ++ new). split.
      * rewrite Htrace', Htrace. apply app_assoc.
      * apply Forall_app. split; assumption.
Qed.

Lemma tame_log (P : Event -> Prop) (ev : Event) : P ev -> tame (RS:=RS) P (@log RS ev).
Proof.
  intros Hev w. split; [reflexivity|]. exists [ev]. split; [reflexivity|].
  repeat constructor. exact Hev.
Qed.

Lemma tame_ui (P : Event -> Prop) (e : UiEvent) : P (EvUi e) -> tame (RS:=RS) P (@ui RS e).
Proof. apply tame_log. Qed.

Lemma tame_current_date (P : Event -> Prop) : tame (RS:=RS) P (@current_date RS).
Proof. intros w. split; [reflexivity|]. exists []. split; [reflexivity | constructor]. Qed.

Lemma tame_fetchJson (P : Event -> Prop) (r : Request) :
  (forall ok, P (EvFetch r ok)) -> tame (RS:=RS) P (fetchJson remote r).
Proof.
  intros HP w. unfold fetchJson.
  destruct (remote r (w_remote w)) as [res s']. split; [reflexivity|].
  eexists [_]. split; [reflexivity|]. repeat constructor. apply HP.
Qed.

Lemma tame_getAbstractFileByPath (P : Event -> Prop) (path : string) :
  (forall found, P (EvVault (OpExists path found))) ->
  tame (RS:=RS) P (@getAbstractFileByPath RS path).
Proof.
  intros HP w. split; [reflexivity|].
  eexists [_]. split; [reflexivity|]. repeat constructor. apply HP.
Qed.

Lemma tame_vault_put (P : Event -> Prop) (op : VaultOp) (path : string)
    (e : Entry) (taken : string) :
  P (EvVault op) -> tame (RS:=RS) P (@vault_put RS op path e taken).
Proof.
  intros HP w. unfold vault_put.
  destruct (w_vault w !! path) eqn:E; simpl.
  - split; [reflexivity|]. exists [EvVault op]. split; [reflexivity|].
    repeat constructor. exact HP.
  - split; [now apply insert_subseteq|]. exists [EvVault op].
    split; [reflexivity|]. repeat constructor. exact HP.
Qed.

Lemma tame_for_each (P : Event -> Prop) {A : Type} (items : list A) (body : A -> M RS unit) :
  (forall x, tame (RS:=RS) P (body x)) -> tame (RS:=RS) P (for_each items body).
Proof.
  intros Hbody. induction items as [|x items IH]; simpl.
  - apply tame_ret.
  - apply tame_bind; [apply Hbody | intros _; exact IH].
Qed.

Lemma tame_weaken (P Q : Event -> Prop) {A : Type} (m : M RS A) :
  (forall ev, P ev -> Q ev) -> tame (RS:=RS) P m -> tame Q m.
Proof.
  intros HPQ Hm w. destruct (Hm w) as [Hsub (new & Htrace & Hnew)].
  split; [exact Hsub|]. exists new. split; [exact Htrace|].
  eapply Forall_impl; eassumption.
Qed.

(** Writing the document fetches nothing and changes no existing entry. *)
Lemma write_collection_tame (collectionName : string) (ranges : list VerseRange)
    (built : JsSet * string) :
  tame (RS:=RS) no_fetch (write_collection normalizePath collectionName ranges built).
Proof.
  unfold write_collection.
  apply tame_bind; [apply tame_current_date | intros today].
  apply tame_bind; [now apply tame_getAbstractFileByPath | intros folder].
  apply tame_bind.
  { destruct folder; [apply tame_ret | now apply tame_vault_put]. }
  intros _. apply tame_bind; [now apply tame_vault_put | intros _].
  repeat (apply tame_bind; [now apply tame_ui | intros _]).
  apply tame_bind; [now apply tame_getAbstractFileByPath | intros file].
  destruct file as [[content|]|]; [now apply tame_ui | apply tame_ret | apply tame_ret].
Qed.

Lemma collect_ranges_tame (ranges : list VerseRange) (acc : JsSet * string) :
  tame (RS:=RS) (fun _ => True) (collect_ranges remote settings ranges acc).
Proof.
  revert acc. induction ranges as [|range rest IH]; intros acc; cbn [collect_ranges].
  - apply tame_ret.
  - unfold getChapter, getVersesByChapter.
    apply tame_bind; [now apply (tame_fetchJson _ (ReqChapter _ _)) | intros chapter].
    apply tame_bind;
      [now apply (tame_fetchJson _ (verses_by_chapter_request _ _)) | intros allVerses].
    apply IH.
Qed.

(** [createCollection] changes no existing entry of the vault. *)
Lemma createCollection_tame (collectionName : string) (ranges : list VerseRange) :
  tame (RS:=RS) (fun _ => True) (createCollection remote normalizePath settings collectionName ranges).
Proof.
  unfold createCollection.
  destruct (String.eqb collectionName "" || (length ranges =? 0)%nat).
  - now apply tame_ui.
  - apply tame_bind; [now apply tame_ui | intros _].
    apply tame_try_catch.
    + unfold collection_steps. apply tame_bind; [apply collect_ranges_tame | intros built].
      eapply tame_weaken; [|apply write_collection_tame]. auto.
    + intros e. apply tame_bind; [now apply tame_ui | intros _]. now apply tame_ui.
Qed.

Lemma not_fetch_in (new : list Event) (r : Request) (ok : bool) :
  Forall no_fetch new -> EvFetch r ok ∉ new.
Proof.
  intros H Hin. rewrite Forall_forall in H. exact (H _ Hin).
Qed.

(** C7: when a fetch of [createCollection] is rejected, the run touches the
    vault in no way (no folder, no document, not even an existence check),
    so the body built so far is dropped, and the last thing the user sees is
    the error notice with the message of the rejection. *)
Theorem createCollection_fetch_failure_writes_nothing
    (collectionName : string) (ranges : list VerseRange) (w w' : World RS)
    (res : Result unit) (new : list Event) (r : Request) :
  createCollection remote normalizePath settings collectionName ranges w = (res, w') ->
  w_trace w' = new ++ w_trace w ->
  EvFetch r false ∈ new ->
  w_vault w' = w_vault w
  /\ vault_ops new = []
  /\ exists e failed earlier,
       new = EvUi (NoticeShown ("Error creating collection: " +:+ message_of e))
             :: EvUi NoticeHidden :: EvFetch failed false :: earlier.
Proof.
  unfold createCollection.
  destruct (String.eqb collectionName "" || (length ranges =? 0)%nat).
  { intros Hrun Htrace Hin. inversion Hrun; subst; clear Hrun. simpl in Htrace.
    change (?x :: w_trace w) with ([x] ++ w_trace w) in Htrace.
    apply app_inv_tail in Htrace. subst new.
    apply list_elem_of_singleton in Hin. discriminate Hin. }
  unfold bind at 1. unfold ui at 1, log at 1.
  set (w0 := mkWorld _ _ _ _ _). unfold try_catch, collection_steps, bind.
  destruct (collect_ranges remote settings ranges ([], "") w0) as [[built|e] w1] eqn:Hloop;
    apply collect_ranges_effects in Hloop as [Hvault (newc & Htc & Hfc & Hres)].
  - (* every fetch was answered: the rejected fetch cannot be in the trace *)
    intros Hrun Htrace Hin. exfalso.
    destruct (write_collection_tame collectionName ranges built w1)
      as [_ (neww & Htw & Hfw)].
    destruct (write_collection normalizePath collectionName ranges built w1)
      as [[[]|e] w2]; simpl in *; inversion Hrun; subst res w'; clear Hrun.
    + rewrite Htw, Htc in Htrace. subst w0. simpl in Htrace.
      change (neww ++ newc ++ ?x :: w_trace w)
        with (neww ++ newc ++ [x] ++ w_trace w) in Htrace.
      rewrite !app_assoc in Htrace. apply app_inv_tail in Htrace. subst new.
      rewrite !elem_of_app in Hin. destruct Hin as [[Hin|Hin]|Hin].
      * exact (not_fetch_in _ _ _ Hfw Hin).
      * exact (Hres _ Hin).
      * apply list_elem_of_singleton in Hin. discriminate Hin.
    + simpl in Htrace. rewrite Htw, Htc in Htrace. subst w0. simpl in Htrace.
      change (?a :: ?b :: neww ++ newc ++ ?x :: w_trace w)
        with ([a; b] ++ neww ++ newc ++ [x] ++ w_trace w) in Htrace.
      rewrite !app_assoc in Htrace. apply app_inv_tail in Htrace. subst new.
      rewrite !elem_of_app in Hin. destruct Hin as [[[Hin|Hin]|Hin]|Hin].
      * repeat (apply elem_of_cons in Hin as [Hin|Hin]; [discriminate Hin|]).
        inversion Hin.
      * exact (not_fetch_in _ _ _ Hfw Hin).
      * exact (Hres _ Hin).
      * apply list_elem_of_singleton in Hin. discriminate Hin.
  - (* a fetch was rejected: the handler runs on an untouched vault *)
    intros Hrun Htrace _. inversion Hrun; subst res w'; clear Hrun.
    destruct Hres as (failed & earlier & ->).
    simpl in Htrace. rewrite Htc in Htrace. subst w0. simpl in Htrace.
    match type of Htrace with
    | ?a :: ?b :: ?c :: earlier ++ ?x :: _ = _ =>
        assert (E : a :: b :: c :: earlier ++ x :: w_trace w
                    = (a :: b :: c :: earlier ++ [x]) ++ w_trace w)
          by (simpl; now rewrite <- app_assoc)
    end.
    rewrite E in Htrace. apply app_inv_tail in Htrace. subst new.
    split; [exact Hvault|]. split.
    + apply vault_ops_fetches in Hfc. simpl in Hfc. simpl.
      rewrite vault_ops_app. rewrite Hfc. reflexivity.
    + eexists _, _, _. reflexivity.
Qed.

(** The loop over the ranges does not touch the clock. *)
Lemma collect_ranges_today (ranges : list VerseRange) (acc : JsSet * string)
    (w w' : World RS) (res : Result (JsSet * string)) :
  collect_ranges remote settings ranges acc w = (res, w') -> w_today w' = w_today w.
Proof.
  revert acc w. induction ranges as [|range rest IH]; intros acc w H.
  - now inversion H.
  - cbn [collect_ranges] in H. unfold bind, getChapter, getVersesByChapter, fetchJson in H.
    destruct (remote (ReqChapter (surah range) (language settings)) (w_remote w))
      as [[chapter|e] s1]; cbn [w_remote] in H; [|now inversion H].
    destruct (remote (verses_by_chapter_request (surah range) (collection_options settings)) s1)
      as [[allVerses|e] s2]; [|now inversion H].
    now apply IH in H.
Qed.

(** With the folder there and the path of the document free, the document
    is written, with the body that was built. *)
Lemma write_collection_fresh (collectionName : string) (ranges : list VerseRange)
    (built : JsSet * string) (w : World RS) :
  w_vault w !! collection_path normalizePath collectionName = None ->
  is_Some (w_vault w !! normalizePath "Quran/Collections") ->
  w_vault (write_collection normalizePath collectionName ranges built w).2
  = <[collection_path normalizePath collectionName :=
        File (collection_content collectionName (w_today w) ranges
                (sort_numeric built.1) built.2)]> (w_vault w).
Proof.
  intros Hdoc [folder Hfolder].
  unfold write_collection, bind, current_date, getAbstractFileByPath, create, vault_put.
  simpl. rewrite Hfolder. simpl. rewrite Hdoc. simpl.
  rewrite lookup_insert_eq. reflexivity.
Qed.

Lemma createCollection_writes (collectionName : string) (ranges : list VerseRange)
    (w wl : World RS) (built : JsSet * string) :
  collectionName <> "" -> ranges <> [] ->
  collect_ranges remote settings ranges ([], "") (creating w) = (Ok built, wl) ->
  w_vault w !! collection_path normalizePath collectionName = None ->
  is_Some (w_vault w !! normalizePath "Quran/Collections") ->
  w_vault (createCollection remote normalizePath settings collectionName ranges w).2
  = <[collection_path normalizePath collectionName :=
        File (collection_content collectionName (w_today w) ranges
                (sort_numeric built.1) built.2)]> (w_vault w).
Proof.
  intros Hname Hranges Hloop Hdoc Hfolder. unfold createCollection.
  assert (Hgo : String.eqb collectionName "" || (length ranges =? 0)%nat = false).
  { apply orb_false_iff. split.
    - now apply String.eqb_neq.
    - destruct ranges; [contradiction | reflexivity]. }
  rewrite Hgo. unfold bind at 1. unfold ui at 1, log at 1. fold (creating w).
  unfold try_catch, collection_steps, bind. rewrite Hloop.
  pose proof (collect_ranges_today _ _ _ _ _ Hloop) as Htoday.
  apply collect_ranges_effects in Hloop as [Hvault _].
  pose proof (write_collection_fresh collectionName ranges built wl) as Hfresh.
  rewrite Hvault in Hfresh. specialize (Hfresh Hdoc Hfolder).
  destruct (write_collection normalizePath collectionName ranges built wl)
    as [[[]|e] w2]; simpl in *; rewrite Hfresh, Htoday; reflexivity.
Qed.

End Collection.

(** ** Skip-if-exists generation *)

Lemma guarded_app (later earlier : list VaultOp) :
  guarded later = true -> guarded earlier = true -> guarded (later ++ earlier) = true.
Proof.
  intros Hl He. induction later as [|op later IH]; [exact He|].
  simpl in *. destruct (created_path op) as [path|].
  - destruct later as [|[checked [|]| |] later']; try discriminate.
    simpl in *. apply andb_true_iff in Hl as [Hp Hg].
    rewrite Hp. simpl. apply IH. exact Hg.
  - apply IH. exact Hl.
Qed.

Section Idempotence.

Context {RS : Type}.
Variable remote : Remote RS.
Variable normalizePath : string -> string.
Variable settings : QuranPluginSettings.

Lemma checks_first_bind {A B : Type} (m : M RS A) (k : A -> M RS B) :
  checks_first (RS:=RS) m -> (forall a, checks_first (RS:=RS) (k a)) -> checks_first (RS:=RS) (bind m k).
Proof.
  intros Hm Hk w. unfold bind. destruct (Hm w) as (new & Htrace & Hg).
  destruct (m w) as [[a|e] w1]; simpl in *.
  - destruct (Hk a w1) as (new' & Htrace' & Hg'). exists (new' ++ new). split.
    + rewrite Htrace', Htrace. apply app_assoc.
    + rewrite vault_ops_app. now apply guarded_app.
  - exists new. split; assumption.
Qed.

Lemma reruns_bind {A B : Type} (m : M RS A) (k : A -> M RS B) :
  tame (RS:=RS) (fun _ => True) m -> reruns (RS:=RS) m ->
  (forall a, tame (RS:=RS) (fun _ => True) (k a)) -> (forall a, reruns (RS:=RS) (k a)) ->
  reruns (RS:=RS) (bind m k).
Proof.
  intros Htm Hm Htk Hk w. unfold bind. specialize (Hm w).
  destruct (m w) as [[a|e] wa] eqn:Em.
  - specialize (Hk a wa). destruct (Htk a wa) as [Hgrow _].
    destruct (k a wa) as [[b|e] w1] eqn:Ek; simpl in *.
    + intros w' Hsub.
      destruct (Hm w') as [Hres Hvault]; [etransitivity; eassumption|].
      destruct (m w') as [res w'']; simpl in *; subst res.
      destruct (Hk w'') as [Hres' Hvault']; [now rewrite Hvault|].
      split; [exact Hres' | now rewrite Hvault'].
    + intros w' Heq.
      destruct (Hm w') as [Hres Hvault]; [now rewrite Heq|].
      destruct (m w') as [res w'']; simpl in *; subst res.
      destruct (Hk w'') as [Hres' Hvault']; [now rewrite Hvault|].
      split; [exact Hres' | now rewrite Hvault'].
  - intros w' Heq. destruct (Hm w' Heq) as [Hres Hvault].
    destruct (m w') as [res w'']; simpl in *; subst res. split; [reflexivity | exact Hvault].
Qed.

Lemma steady_bind {A B : Type} (m : M RS A) (k : A -> M RS B) :
  steady remote m -> (forall a, steady remote (k a)) -> steady remote (bind m k).
Proof.
  intros (Ht & Hc & Hr) Hk. split; [|split].
  - apply tame_bind; [exact Ht | intros a; apply Hk].
  - apply checks_first_bind; [exact Hc | intros a; apply Hk].
  - intros Hst.
    apply reruns_bind; [exact Ht | exact (Hr Hst) | intros a; apply Hk | intros a; now apply Hk].
Qed.

Lemma steady_ret {A : Type} (a : A) : steady remote (@ret RS A a).
Proof.
  split; [apply tame_ret | split].
  - intros w. exists []. split; reflexivity.
  - intros _ w. simpl. intros w' _. split; reflexivity.
Qed.

Lemma steady_ui (e : UiEvent) : steady remote (@ui RS e).
Proof.
  split; [now apply tame_ui | split].
  - intros w. exists [EvUi e]. split; reflexivity.
  - intros _ w. simpl. intros w' _. split; reflexivity.
Qed.

Lemma steady_fetchJson (r : Request) : steady remote (fetchJson remote r).
Proof.
  split; [now apply tame_fetchJson | split].
  - intros w. unfold fetchJson. destruct (remote r (w_remote w)) as [res s'].
    eexists [_]. split; reflexivity.
  - intros Hst w. unfold fetchJson. pose proof (Hst r (w_remote w)) as Hsame.
    destruct (remote r (w_remote w)) as [[a|e] s']; simpl in *;
      intros w' _; specialize (Hsame (w_remote w'));
      destruct (remote r (w_remote w')) as [res s'']; simpl in *; subst res;
      split; reflexivity.
Qed.

Lemma steady_for_each {A : Type} (items : list A) (body : A -> M RS unit) :
  (forall x, steady remote (body x)) -> steady remote (for_each items body).
Proof.
  intros Hbody. induction items as [|x items IH]; simpl.
  - apply steady_ret.
  - apply steady_bind; [apply Hbody | intros _; exact IH].
Qed.


Lemma skip_if_exists_found (path : string) (absent : M RS unit) (w : World RS) (e : Entry) :
  w_vault w !! path = Some e ->
  skip_if_exists path absent w = (Ok tt, checked w path).
Proof.
  intros H. unfold skip_if_exists, bind, getAbstractFileByPath, checked. now rewrite H.
Qed.

Lemma skip_if_exists_absent (path : string) (absent : M RS unit) (w : World RS) :
  w_vault w !! path = None ->
  skip_if_exists path absent w = absent (checked w path).
Proof.
  intros H. unfold skip_if_exists, bind, getAbstractFileByPath, checked. now rewrite H.
Qed.

Lemma steady_skip_if_exists (path : string) (absent : M RS unit) :
  tame (RS:=RS) (fun _ => True) absent -> creates remote path absent ->
  steady remote (skip_if_exists path absent).
Proof.
  intros Htame [Hout Huni]. split; [|split].
  - unfold skip_if_exists. apply tame_bind; [apply tame_getAbstractFileByPath; intros; exact I|].
    intros [e|]; [apply tame_ret | exact Htame].
  - intros w. destruct (w_vault w !! path) as [e|] eqn:E.
    + rewrite (skip_if_exists_found _ _ _ _ E). eexists [_]. split; reflexivity.
    + rewrite (skip_if_exists_absent _ _ _ E).
      destruct (Hout (checked w path) E) as (new & Htrace & Hcase).
      exists (new ++ [EvVault (OpExists path false)]). split.
      * rewrite Htrace. unfold checked. simpl. rewrite E.
        rewrite <- app_assoc. reflexivity.
      * rewrite vault_ops_app.
        destruct Hcase as [(_ & _ & op & -> & Hop) | (_ & _ & ->)]; simpl.
        -- rewrite Hop. now rewrite String.eqb_refl.
        -- reflexivity.
  - intros Hst w. specialize (Huni Hst). destruct (w_vault w !! path) as [e|] eqn:E.
    + rewrite (skip_if_exists_found _ _ _ _ E). intros w' Hsub.
      rewrite (skip_if_exists_found _ _ w' e); [split; reflexivity|].
      eapply lookup_weaken; [exact E | exact Hsub].
    + rewrite (skip_if_exists_absent _ _ _ E).
      destruct (Hout (checked w path) E) as (new & Htrace & Hcase).
      destruct (absent (checked w path)) as [[[]|e] w1] eqn:Erun; simpl in *.
      * destruct Hcase as [(_ & (entry & Hv) & _) | ((e & He) & _)]; [|discriminate He].
        intros w' Hsub.
        rewrite (skip_if_exists_found _ _ w' entry); [split; reflexivity|].
        eapply lookup_weaken; [|exact Hsub]. rewrite Hv. apply lookup_insert_eq.
      * destruct Hcase as [(Hok & _) | (_ & Hv & _)]; [discriminate Hok|].
        intros w' Heq.
        assert (E' : w_vault w' !! path = None) by (now rewrite Heq, Hv).
        rewrite (skip_if_exists_absent _ _ _ E').
        pose proof (Huni (checked w' path) (checked w path) E' E) as Hsame.
        rewrite Erun in Hsame. simpl in Hsame. split; [exact Hsame|].
        destruct (Hout (checked w' path) E') as (new' & _ & Hcase').
        destruct Hcase' as [(Hok & _) | (_ & Hv' & _)]; [congruence | exact Hv'].
Qed.

Lemma creates_vault_put (op : VaultOp) (path : string) (entry : Entry) (taken : string) :
  created_path op = Some path -> creates remote path (vault_put op path entry taken).
Proof.
  intros Hop. split.
  - intros w E. unfold vault_put. rewrite E. simpl. exists [EvVault op].
    split; [reflexivity|]. left. split; [reflexivity|]. split; [now exists entry|].
    exists op. split; [reflexivity | exact Hop].
  - intros _ w w' E E'. unfold vault_put. now rewrite E, E'.
Qed.

Lemma creates_after_fetch (path : string) (r : Request) (k : Response r -> M RS unit) :
  (forall a, creates remote path (k a)) ->
  creates remote path (bind (fetchJson remote r) k).
Proof.
  intros Hk. split.
  - intros w E. unfold bind, fetchJson.
    destruct (remote r (w_remote w)) as [[a|e] s'] eqn:Er; simpl.
    + destruct (Hk a) as [Hout _].
      destruct (Hout (fetched w r true s') E) as (new & Htrace & Hcase).
      unfold fetched in Htrace, Hcase. simpl in Htrace, Hcase.
      exists (new ++ [EvFetch r true]). split.
      * rewrite Htrace. now rewrite <- app_assoc.
      * rewrite vault_ops_app, app_nil_r. exact Hcase.
    + exists [EvFetch r false]. split; [reflexivity|]. right.
      split; [now exists e|]. split; reflexivity.
  - intros Hst w w' E E'. unfold bind, fetchJson.
    pose proof (Hst r (w_remote w) (w_remote w')) as Hsame.
    destruct (remote r (w_remote w)) as [[a|e] s1];
      destruct (remote r (w_remote w')) as [[a'|e'] s2]; simpl in *;
      try discriminate Hsame; inversion Hsame; subst.
    + destruct (Hk a') as [_ Huni]. apply (Huni Hst (fetched w r true s1) (fetched w' r true s2)); assumption.
    + reflexivity.
Qed.

Lemma creates_then_silent (path : string) (m post : M RS unit) :
  creates remote path m -> silent (RS:=RS) post -> creates remote path (m ;; post).
Proof.
  intros [Hout Huni] Hpost. split.
  - intros w E. unfold bind. destruct (Hout w E) as (new & Htrace & Hcase).
    destruct (m w) as [[[]|e] w1]; simpl in *.
    + destruct (Hpost w1) as (Hok & Hv & newp & Htp & Hnp).
      exists (newp ++ new). split; [rewrite Htp, Htrace; apply app_assoc|].
      destruct Hcase as [(_ & (entry & Hentry) & Hop) | ((e & He) & _)]; [|discriminate He].
      left. split; [exact Hok|]. split.
      * exists entry. now rewrite Hv.
      * rewrite vault_ops_app, Hnp. exact Hop.
    + exists new. split; [exact Htrace|].
      destruct Hcase as [(Hok & _) | Hthrow]; [discriminate Hok|]. right. exact Hthrow.
  - intros Hst w w' E E'. unfold bind. pose proof (Huni Hst w w' E E') as Hsame.
    destruct (m w) as [[[]|e] w1]; destruct (m w') as [[[]|e'] w2]; simpl in *;
      try discriminate Hsame.
    + destruct (Hpost w1) as [-> _]. now destruct (Hpost w2) as [-> _].
    + exact Hsame.
Qed.

Lemma silent_ret : silent (RS:=RS) (@ret RS unit tt).
Proof. intros w. repeat split. exists []. split; reflexivity. Qed.

Lemma silent_ui_ui (a b : UiEvent) : silent (RS:=RS) (@ui RS a ;; ui b).
Proof. intros w. repeat split. eexists [_; _]. split; reflexivity. Qed.


(** *** The phases of the generator *)

Lemma create_tame (path content : string) : tame (RS:=RS) (fun _ => True) (@create RS path content).
Proof. now apply tame_vault_put. Qed.

Lemma createFolder_tame (path : string) : tame (RS:=RS) (fun _ => True) (@createFolder RS path).
Proof. now apply tame_vault_put. Qed.

Lemma createFolders_steady : steady remote (@createFolders RS normalizePath).
Proof.
  unfold createFolders. apply steady_for_each. intros folder.
  apply (steady_skip_if_exists _ (createFolder _)).
  - apply createFolder_tame.
  - now apply creates_vault_put.
Qed.

Lemma generateSurahNotes_steady :
  steady remote (generateSurahNotes remote normalizePath settings).
Proof.
  unfold generateSurahNotes, getChapters.
  apply steady_bind; [exact (steady_fetchJson (ReqChapters _)) | intros chapters].
  apply steady_for_each. intros chapter.
  apply (steady_skip_if_exists _ (create _ _)).
  - apply create_tame.
  - now apply creates_vault_put.
Qed.

Lemma generatePageNotes_steady (options : VaultGeneratorOptions) :
  steady remote (generatePageNotes remote normalizePath settings options).
Proof.
  unfold generatePageNotes, getChapters, getJuzs.
  apply steady_bind; [exact (steady_fetchJson (ReqChapters _)) | intros allChapters].
  apply steady_bind; [exact (steady_fetchJson ReqJuzs) | intros juzs].
  apply steady_for_each. intros page. cbv zeta. unfold getVersesByPage.
  match goal with
  | |- steady remote (bind _ (fun found => match found with Some _ => _ | None => ?absent end)) =>
      apply (steady_skip_if_exists (page_path normalizePath page) absent)
  end.
  - apply tame_bind;
      [now apply (tame_fetchJson _ _ (verses_by_page_request _ _)) | intros verses].
    apply tame_bind; [apply create_tame | intros _].
    destruct (Z.rem page 10 =? 0); [|apply tame_ret].
    apply tame_bind; [now apply tame_ui | intros _]. now apply tame_ui.
  - apply (creates_after_fetch _ (verses_by_page_request _ _)). intros verses.
    apply creates_then_silent; [now apply creates_vault_put|].
    destruct (Z.rem page 10 =? 0); [apply silent_ui_ui | apply silent_ret].
Qed.

Lemma generateIndex_steady : steady remote (@generateIndex RS normalizePath).
Proof.
  unfold generateIndex.
  apply (steady_skip_if_exists _ (create _ _)).
  - apply create_tame.
  - now apply creates_vault_put.
Qed.

Lemma generate_steps_steady (options : VaultGeneratorOptions) :
  steady remote (generate_steps remote normalizePath settings options).
Proof.
  unfold generate_steps.
  apply steady_bind; [apply createFolders_steady | intros _].
  apply steady_bind; [apply steady_ui | intros _].
  apply steady_bind; [apply generateSurahNotes_steady | intros _].
  apply steady_bind; [apply steady_ui | intros _].
  apply steady_bind; [apply generatePageNotes_steady | intros _].
  apply steady_bind; [apply steady_ui | intros _].
  apply steady_bind; [apply generateIndex_steady | intros _].
  apply steady_bind; [apply steady_ui | intros _].
  apply steady_ui.
Qed.


Lemma checks_first_try_catch {A : Type} (m : M RS A) (h : Thrown -> M RS A) :
  checks_first (RS:=RS) m -> (forall e, checks_first (RS:=RS) (h e)) -> checks_first (RS:=RS) (try_catch m h).
Proof.
  intros Hm Hh w. unfold try_catch. destruct (Hm w) as (new & Htrace & Hg).
  destruct (m w) as [[a|e] w1]; simpl in *.
  - exists new. split; assumption.
  - destruct (Hh e w1) as (new' & Htrace' & Hg'). exists (new' ++ new). split.
    + rewrite Htrace', Htrace. apply app_assoc.
    + rewrite vault_ops_app. now apply guarded_app.
Qed.

Lemma failure_notice_steady (e : Thrown) : steady remote (failure_notice e).
Proof. apply steady_bind; [apply steady_ui | intros _; apply steady_ui]. Qed.

Lemma generateFullVault_tame (options : VaultGeneratorOptions) :
  tame (RS:=RS) (fun _ => True) (generateFullVault remote normalizePath settings options).
Proof.
  unfold generateFullVault. apply tame_bind; [now apply tame_ui | intros _].
  apply tame_try_catch; [apply generate_steps_steady|].
  intros e. apply (failure_notice_steady e).
Qed.

Lemma generateFullVault_checks_first (options : VaultGeneratorOptions) :
  checks_first (RS:=RS) (generateFullVault remote normalizePath settings options).
Proof.
  unfold generateFullVault.
  apply checks_first_bind; [apply steady_ui | intros _].
  apply checks_first_try_catch; [apply generate_steps_steady|].
  intros e. apply (failure_notice_steady e).
Qed.

Lemma generateFullVault_vault (options : VaultGeneratorOptions) (w : World RS) :
  w_vault (generateFullVault remote normalizePath settings options w).2
  = w_vault (generate_steps remote normalizePath settings options (started w)).2.
Proof.
  unfold generateFullVault, bind, ui, log, try_catch. simpl. fold (started w).
  destruct (generate_steps remote normalizePath settings options (started w))
    as [[a|e] wa]; reflexivity.
Qed.

(** A second run of the generator, right after the first, leaves the vault
    as the first run left it. *)
Lemma generateFullVault_twice (options : VaultGeneratorOptions) (w : World RS) :
  stationary remote ->
  let w1 := (generateFullVault remote normalizePath settings options w).2 in
  w_vault (generateFullVault remote normalizePath settings options w1).2 = w_vault w1.
Proof.
  intros Hst w1.
  destruct (generate_steps_steady options) as (_ & _ & Hre).
  specialize (Hre Hst (started w)).
  assert (Hw1 : w_vault w1
                = w_vault (generate_steps remote normalizePath settings options (started w)).2)
    by apply generateFullVault_vault.
  rewrite generateFullVault_vault.
  destruct (generate_steps remote normalizePath settings options (started w))
    as [[a|e] wa]; simpl in Hw1.
  - destruct (Hre (started w1)) as [_ Hvault]; [simpl; now rewrite Hw1|].
    rewrite Hvault. reflexivity.
  - destruct (Hre (started w1)) as [_ Hvault]; [simpl; now rewrite Hw1|].
    rewrite Hvault. reflexivity.
Qed.

(** When the document of a collection and its folder are already there,
    [create] is called all the same, is rejected by the vault, and the
    vault stays as it was. *)
Lemma write_collection_taken (collectionName : string) (ranges : list VerseRange)
    (built : JsSet * string) (w : World RS) :
  is_Some (w_vault w !! collection_path normalizePath collectionName) ->
  is_Some (w_vault w !! normalizePath "Quran/Collections") ->
  write_collection normalizePath collectionName ranges built w
  = (Throw (ErrorObject "File already exists."),
     mkWorld (w_remote w)
       (EvVault (OpCreate (collection_path normalizePath collectionName)
                   (collection_content collectionName (w_today w) ranges
                      (sort_numeric built.1) built.2))
        :: EvVault (OpExists (normalizePath "Quran/Collections") true)
        :: w_trace w)
       (w_chaptersCache w) (w_vault w) (w_today w)).
Proof.
  intros [doc Hdoc] [folder Hfolder].
  unfold write_collection, bind, current_date, getAbstractFileByPath, create, vault_put.
  simpl. rewrite Hfolder. simpl. rewrite Hdoc. reflexivity.
Qed.

Lemma createCollection_taken (collectionName : string) (ranges : list VerseRange)
    (w : World RS) :
  is_Some (w_vault w !! collection_path normalizePath collectionName) ->
  is_Some (w_vault w !! normalizePath "Quran/Collections") ->
  w_vault (createCollection remote normalizePath settings collectionName ranges w).2
  = w_vault w.
Proof.
  intros Hdoc Hfolder. unfold createCollection.
  destruct (String.eqb collectionName "" || (length ranges =? 0)%nat); [reflexivity|].
  unfold bind at 1. unfold ui at 1, log at 1.
  set (w0 := mkWorld _ _ _ _ _). unfold try_catch, collection_steps, bind.
  destruct (collect_ranges remote settings ranges ([], "") w0) as [[built|e] w1] eqn:Hloop;
    apply collect_ranges_effects in Hloop as [Hvault _].
  - rewrite write_collection_taken by (rewrite Hvault; assumption).
    simpl. exact Hvault.
  - simpl. exact Hvault.
Qed.

Lemma createCollection_taken_run (collectionName : string) (ranges : list VerseRange)
    (w wl : World RS) (built : JsSet * string) :
  collectionName <> "" -> ranges <> [] ->
  collect_ranges remote settings ranges ([], "") (creating w) = (Ok built, wl) ->
  is_Some (w_vault w !! collection_path normalizePath collectionName) ->
  is_Some (w_vault w !! normalizePath "Quran/Collections") ->
  w_trace (createCollection remote normalizePath settings collectionName ranges w).2
  = rejected_collection_trace collectionName ranges built normalizePath wl ++ w_trace wl.
Proof.
  intros Hname Hranges Hloop Hdoc Hfolder. unfold createCollection.
  assert (Hgo : String.eqb collectionName "" || (length ranges =? 0)%nat = false).
  { apply orb_false_iff. split.
    - now apply String.eqb_neq.
    - destruct ranges; [contradiction | reflexivity]. }
  rewrite Hgo. unfold bind at 1. unfold ui at 1, log at 1. fold (creating w).
  unfold try_catch, collection_steps, bind. rewrite Hloop.
  apply collect_ranges_effects in Hloop as [Hvault _].
  rewrite write_collection_taken by (rewrite Hvault; assumption).
  reflexivity.
Qed.

(** C3 (amended): the generator looks every path up right before it
    creates it and creates only what is missing: no existing entry of the
    vault is changed, and a second run right after the first, with a remote
    service that answers as before, leaves the vault as the first run left
    it.  The collection builder changes no existing entry either, but it
    does not look the document up: when the document and its folder exist,
    it calls [create] all the same, the vault rejects it, the error is
    shown, and the vault is left as it was. *)
Theorem generation_never_overwrites_and_is_idempotent :
  (forall options w,
     let w1 := (generateFullVault remote normalizePath settings options w).2 in
     w_vault w ⊆ w_vault w1
     /\ (exists new, w_trace w1 = new ++ w_trace w /\ guarded (vault_ops new) = true)
     /\ (stationary remote ->
         w_vault (generateFullVault remote normalizePath settings options w1).2
         = w_vault w1))
  /\ (forall collectionName ranges w,
       let w1 := (createCollection remote normalizePath settings collectionName ranges w).2 in
       w_vault w ⊆ w_vault w1
       /\ (is_Some (w_vault w !! collection_path normalizePath collectionName) ->
           is_Some (w_vault w !! normalizePath "Quran/Collections") ->
           w_vault w1 = w_vault w
           /\ forall built wl,
               collectionName <> "" -> ranges <> [] ->
               collect_ranges remote settings ranges ([], "") (creating w) = (Ok built, wl) ->
               w_trace w1
               = rejected_collection_trace collectionName ranges built normalizePath wl
                 ++ w_trace wl)).
Proof.
  split.
  - intros options w. cbn zeta. split; [|split].
    + apply generateFullVault_tame.
    + apply generateFullVault_checks_first.
    + intros Hst. now apply generateFullVault_twice.
  - intros collectionName ranges w. cbn zeta. split.
    + apply createCollection_tame.
    + intros Hdoc Hfolder. split.
      * now apply createCollection_taken.
      * intros built wl Hname Hranges Hloop. now apply createCollection_taken_run.
Qed.

End Idempotence.

(** ** The properties on sample data *)

Lemma sample_remote_stationary : stationary sample_remote.
Proof. intros r s s'. reflexivity. Qed.

(** The cache filled in English and read in Arabic. *)
Lemma getCachedChapters_ignores_language_sample :
  let w1 := (getCachedChapters sample_remote "en" sample_world).2 in
  fetch_events (w_trace w1) = (ReqChapters "en", true) :: fetch_events (w_trace sample_world)
  /\ getCachedChapters sample_remote "ar" w1 = (Ok sample_chapters, w1)
  /\ (forall calls, for_each calls (run_call sample_remote) w1 = (Ok tt, w1))
  /\ (forall w2, clearChaptersCache w1 = (Ok tt, w2) ->
      exists ok,
        fetch_events (w_trace (getCachedChapters sample_remote "ar" w2).2)
        = (ReqChapters "ar", ok) :: fetch_events (w_trace w1)).
Proof.
  apply (getCachedChapters_ignores_language sample_remote "en" "ar" sample_world);
    reflexivity.
Defined.


(** A page on which section 2 starts on line 3. *)
Lemma buildSurahStartLines_marks_first_word_sample :
  let markers := buildSurahStartLines ([] ++ opening_verse :: [second_verse]) in
  Map_get 3 markers = Some 2
  /\ forall other, Map_get other markers = Some 2 -> other = 3.
Proof.
  apply (buildSurahStartLines_marks_first_word [] [second_verse] opening_verse 3).
  - split; [reflexivity|]. eexists _, _. split; reflexivity.
  - intros u [<-|[]] Hn. discriminate Hn.
  - intros u [<-|[]] [Hn _]. discriminate Hn.
Defined.

(** C4 as stated fails: section 2 has exactly one item with position 1,
    with a first word on line 3, yet no marker is recorded for section 2,
    because the first item of section 3 starts on the same line and its
    marker replaces the one of section 2. *)
Lemma buildSurahStartLines_same_line_overwrites :
  let verses := [opening_verse; clashing_verse] in
  starts_on opening_verse 3
  /\ filter (fun v => VerseWithWords.verse_number v = 1
                     /\ VerseWithWords.chapter_id v = 2) verses = [opening_verse]
  /\ Map_get 3 (buildSurahStartLines verses) = Some 3
  /\ Map_get 3 (buildSurahStartLines verses) <> Some 2
  /\ forall line, Map_get line (buildSurahStartLines verses) <> Some 2.
Proof.
  cbn zeta. split; [|split; [|split; [|split]]].
  - split; [reflexivity|]. eexists _, _. split; reflexivity.
  - reflexivity.
  - reflexivity.
  - discriminate.
  - intros line. change (buildSurahStartLines [opening_verse; clashing_verse])
      with [(3, 3)]. unfold Map_get. destruct (3 =? line); intros H; inversion H.
Qed.

(** The plan of that page: header, banner, two lines, footer. *)
Lemma renderMushafPage_banner_sample :
  page_plan 2 sample_lines [(2, al_baqarah)] sample_markers
  = [surah_header al_baqarah; bismillah_banner;
     line_block [sample_word 3 "a"; sample_word 3 "b"];
     line_block [sample_word 4 "c"];
     page_footer 2 [(2, al_baqarah)]]
  /\ count_banners (page_plan 2 sample_lines [(2, al_baqarah)] sample_markers) = 1%nat.
Proof.
  destruct (renderMushafPage_banner 2 sample_lines [(2, al_baqarah)] sample_markers)
    as (Hcount & _ & Hplace).
  destruct (Hplace [] 3 [4] 2 al_baqarah) as (_ & _ & Hplan);
    [reflexivity | reflexivity | discriminate | discriminate | reflexivity |].
  split; [exact Hplan | exact Hcount].
Defined.

(** C5 as stated fails: a marker for section 2, whose metadata is in the
    lookup, gives no banner when its line is not a line of the line map,
    and two banners when the section has markers on two lines. *)
Lemma renderMushafPage_banner_not_exactly_once :
  count_banners (page_plan 2 [] [(2, al_baqarah)] [(3, 2)]) = 0%nat
  /\ count_banners
       (page_plan 2 [(3, [sample_word 3 "a"]); (4, [sample_word 4 "c"])]
          [(2, al_baqarah)] [(3, 2); (4, 2)]) = 2%nat.
Proof. split; reflexivity. Qed.

(** The first range is answered, the chapter of the second is not. *)
Lemma createCollection_fetch_failure_sample :
  let w' := (createCollection sample_remote same_path DEFAULT_SETTINGS "Mixed"
               broken_ranges sample_world).2 in
  w_vault w' = w_vault sample_world
  /\ vault_ops (w_trace w') = []
  /\ exists e failed earlier,
       w_trace w'
       = EvUi (NoticeShown ("Error creating collection: " +:+ message_of e))
         :: EvUi NoticeHidden :: EvFetch failed false :: earlier.
Proof.
  apply (createCollection_fetch_failure_writes_nothing sample_remote same_path
           DEFAULT_SETTINGS "Mixed" broken_ranges sample_world _ (Ok tt) _
           (ReqChapter 115 "en")).
  - reflexivity.
  - vm_compute. reflexivity.
  - vm_compute. apply list_elem_of_In. simpl. tauto.
Defined.

(** Two runs of the generator on an empty vault. *)
Lemma generation_idempotent_sample :
  let w1 := (generateFullVault sample_remote same_path DEFAULT_SETTINGS sample_options
               sample_world).2 in
  w_vault (generateFullVault sample_remote same_path DEFAULT_SETTINGS sample_options w1).2
  = w_vault w1.
Proof.
  destruct (generation_never_overwrites_and_is_idempotent sample_remote same_path
              DEFAULT_SETTINGS) as [Hgenerator _].
  destruct (Hgenerator sample_options sample_world) as (_ & _ & Hidem).
  exact (Hidem sample_remote_stationary).
Defined.

(** C3 as stated fails for collections: the builder calls [create] for the
    document without having looked its path up, and the run ends with an
    error notice rather than as a silent skip. *)
Lemma createCollection_creates_without_check :
  let w1 := (createCollection sample_remote same_path DEFAULT_SETTINGS "Ayatul Kursi"
               [ayatul_kursi] taken_world).2 in
  guarded (vault_ops (w_trace w1)) = false
  /\ map created_path (vault_ops (w_trace w1))
     = [Some "Quran/Collections/Ayatul Kursi.md"; None]
  /\ (OpExists "Quran/Collections/Ayatul Kursi.md" false ∉ vault_ops (w_trace w1))
  /\ head (w_trace w1)
     = Some (EvUi (NoticeShown "Error creating collection: File already exists."))
  /\ w_vault w1 = w_vault taken_world.
Proof.
  cbn zeta. split; [|split; [|split; [|split]]].
  - vm_compute. reflexivity.
  - vm_compute. reflexivity.
  - intros Hin. apply list_elem_of_In in Hin. vm_compute in Hin.
    destruct Hin as [H|[H|[]]]; discriminate H.
  - vm_compute. reflexivity.
  - apply createCollection_taken; vm_compute; eauto.
Qed.

(** ** Padded numbers *)

Lemma append_empty_l (s : string) : "" +:+ s = s.
Proof. reflexivity. Qed.

Lemma repeat_string_length (n : nat) (c : Ascii.ascii) :
  String.length (repeat_string n (String c "")) = n.
Proof.
  induction n as [|n IH]; [reflexivity|].
  cbn [repeat_string]. rewrite append_cons. cbn [String.length].
  now rewrite append_empty_l, IH.
Qed.

Lemma substring_all (s : string) : String.substring 0 (String.length s) s = s.
Proof. induction s as [|c s IH]; [reflexivity|]. simpl. now rewrite IH. Qed.

Lemma append_length (a b : string) :
  String.length (a +:+ b) = (String.length a + String.length b)%nat.
Proof.
  induction a as [|c a IH]; [reflexivity|].
  rewrite append_cons. simpl. now rewrite IH.
Qed.

Lemma padNumber_shape (n : Z) (width : nat) :
  padNumber n width
  = repeat_string (width - String.length (String_of_number n)) "0"
    +:+ String_of_number n.
Proof.
  unfold padNumber, padStart.
  destruct (width <=? String.length (String_of_number n))%nat eqn:E.
  - apply Nat.leb_le in E.
    replace (width - String.length (String_of_number n))%nat with 0%nat by lia.
    reflexivity.
  - change (String.eqb "0" "") with false. cbv iota.
    set (fill := (width - String.length (String_of_number n))%nat).
    rewrite <- (repeat_string_length fill zero_char) at 1.
    now rewrite substring_all.
Qed.

(** X1: [padNumber n width] is [String(n)] preceded by exactly as many
    zeros as it is shorter than [width]; a number that is too long is never
    cut. *)
Theorem padNumber_zeros_then_number (n : Z) (width : nat) :
  padNumber n width
  = repeat_string (width - String.length (String_of_number n)) "0"
    +:+ String_of_number n
  /\ String.length (padNumber n width)
     = Nat.max width (String.length (String_of_number n)).
Proof.
  split; [apply padNumber_shape|].
  rewrite padNumber_shape, append_length, (repeat_string_length _ zero_char). lia.
Qed.

(** The decimal form of a positive number does not start with a zero. *)
Lemma pretty_N_go_leading (x : N) (s : string) :
  (0 < x)%N ->
  exists c rest, pretty_N_go x s = String c rest /\ c <> zero_char.
Proof.
  revert s. induction (N.lt_wf_0 x) as [x _ IH]; intros s Hx.
  rewrite pretty_N_go_step by exact Hx.
  assert (x < 10 \/ 10 <= x)%N as [Hsmall|Hbig] by lia.
  - rewrite N.div_small by exact Hsmall. rewrite pretty_N_go_0.
    rewrite N.mod_small by exact Hsmall. eexists _, _. split; [reflexivity|].
    assert (x = 1 \/ x = 2 \/ x = 3 \/ x = 4 \/ x = 5 \/ x = 6
            \/ x = 7 \/ x = 8 \/ x = 9)%N as Hcases by lia.
    repeat (destruct Hcases as [->|Hcases]; [discriminate|]). subst. discriminate.
  - apply IH.
    + apply N.div_lt; lia.
    + apply N.div_str_pos. lia.
Qed.

Lemma String_of_number_leading (n : Z) :
  String_of_number n = "0"
  \/ exists c rest, String_of_number n = String c rest /\ c <> zero_char.
Proof.
  unfold String_of_number, pretty, pretty_Z. destruct n as [|p|p].
  - now left.
  - right. unfold pretty, pretty_positive, pretty, pretty_N.
    destruct (decide (N.pos p = 0%N)) as [H|_]; [discriminate H|].
    apply pretty_N_go_leading. lia.
  - right. eexists _, _. split; [reflexivity | discriminate].
Qed.

Lemma repeat_string_add (a b : nat) (s : string) :
  repeat_string (a + b) s = repeat_string a s +:+ repeat_string b s.
Proof.
  induction a as [|a IH]; [reflexivity|].
  simpl. now rewrite IH, append_assoc.
Qed.

Lemma append_inj_l (a b c : string) : a +:+ b = a +:+ c -> b = c.
Proof.
  induction a as [|x a IH]; [trivial|].
  rewrite !append_cons. intros H. inversion H. auto.
Qed.

(** More zeros in front of one number than in front of the other, and the
    same string: the numbers are the same and so are the zeros. *)
Lemma zeros_then_number_inj (k : nat) (n m : Z) :
  String_of_number n = repeat_string k "0" +:+ String_of_number m -> n = m.
Proof.
  intros H. destruct k as [|k].
  - apply (inj pretty). exact H.
  - exfalso. simpl in H. rewrite append_cons in H.
    destruct (String_of_number_leading n) as [Hzero | (c & rest & Hn & Hc)].
    + rewrite Hzero in H. inversion H as [Hrest].
      destruct (String_of_number_leading m) as [Hm | (c' & rest' & Hm & _)];
        rewrite Hm in Hrest; destruct (repeat_string k "0"); discriminate Hrest.
    + rewrite Hn in H. inversion H; subst. apply Hc. reflexivity.
Qed.

(** X2: two numbers padded to the same width give the same string only if
    they are the same number: distinct pages and distinct surah ids never
    share a file name. *)
Theorem padNumber_injective (n m : Z) (width : nat) :
  padNumber n width = padNumber m width -> n = m.
Proof.
  rewrite (padNumber_shape n), (padNumber_shape m).
  set (a := (width - String.length (String_of_number n))%nat).
  set (b := (width - String.length (String_of_number m))%nat).
  intros H. destruct (Nat.le_gt_cases a b) as [Hab|Hab].
  - replace b with (a + (b - a))%nat in H by lia.
    rewrite repeat_string_add, append_assoc in H. apply append_inj_l in H.
    now apply (zeros_then_number_inj (b - a)).
  - replace a with (b + (a - b))%nat in H by lia.
    rewrite repeat_string_add, append_assoc in H. apply append_inj_l in H.
    symmetry. now apply (zeros_then_number_inj (a - b)).
Qed.

(** ** Names of collections *)

Lemma all_chars_app (p : Ascii.ascii -> bool) (a b : string) :
  all_chars p (a +:+ b) = all_chars p a && all_chars p b.
Proof.
  induction a as [|c a IH]; [reflexivity|].
  rewrite append_cons. simpl. now rewrite IH, andb_assoc.
Qed.

Lemma safe_char_cases (c : Ascii.ascii) :
  (is_safe_char c = true /\ safe_char c = String c "")
  \/ (is_safe_char c = false
      /\ (safe_char c = "_" \/ safe_char c = "" \/ safe_char c = "__")).
Proof.
  unfold safe_char. fold (is_safe_char c).
  destruct (is_safe_char c); [left; split; reflexivity | right].
  split; [reflexivity|].
  destruct (Ascii.nat_of_ascii c <? 128)%nat; [now left|].
  destruct (Ascii.nat_of_ascii c <? 192)%nat; [now right; left|].
  destruct (Ascii.nat_of_ascii c <? 240)%nat; [now left | now right; right].
Qed.

Lemma sanitize_name_safe (s : string) : all_chars is_safe_char (sanitize_name s) = true.
Proof.
  induction s as [|c s IH]; [reflexivity|].
  cbn [sanitize_name]. rewrite all_chars_app, IH, andb_true_r.
  destruct (safe_char_cases c) as [[Hs E] | [_ [E | [E | E]]]]; rewrite E.
  - simpl. now rewrite Hs.
  - reflexivity.
  - reflexivity.
  - reflexivity.
Qed.

Lemma sanitize_name_fixed (s : string) :
  all_chars is_safe_char s = true -> sanitize_name s = s.
Proof.
  induction s as [|c s IH]; [reflexivity|].
  simpl. intros H. apply andb_true_iff in H as [Hc Hs].
  destruct (safe_char_cases c) as [[_ E] | [Hn _]]; [|congruence].
  rewrite E, append_cons, append_empty_l. now rewrite IH.
Qed.

(** X3: a sanitized collection name holds only letters, digits, spaces,
    underscores and hyphens (so no path separator and no dot); a name that
    is made of these is left as it is, and sanitizing twice is the same as
    sanitizing once. *)
Theorem sanitize_name_only_safe_characters (s : string) :
  all_chars is_safe_char (sanitize_name s) = true
  /\ (all_chars is_safe_char s = true -> sanitize_name s = s)
  /\ sanitize_name (sanitize_name s) = sanitize_name s.
Proof.
  split; [apply sanitize_name_safe | split].
  - apply sanitize_name_fixed.
  - apply sanitize_name_fixed, sanitize_name_safe.
Qed.

Example sanitize_name_path_characters :
  sanitize_name "../a/b.md" = "___a_b_md".
Proof. reflexivity. Qed.

(** ** Words grouped by line *)

Lemma groupWordsByLine_flat (verses : list VerseWithWords.t) :
  groupWordsByLine verses = foldl add_word [] (all_words verses).
Proof.
  unfold groupWordsByLine, all_words. generalize (@nil (Z * list Word.t)).
  induction verses as [|v verses IH]; intros m; [reflexivity|].
  simpl. rewrite foldl_app. apply IH.
Qed.

Lemma Map_get_add_word (m : JsMap (list Word.t)) (w : Word.t) (line : Z) :
  Map_get line (add_word m w)
  = if on_line line w then Some (default [] (Map_get line m) ++ [w]) else Map_get line m.
Proof.
  unfold add_word, on_line. rewrite Map_get_set.
  destruct (Word.line_number w =? line) eqn:E; [|reflexivity].
  apply Z.eqb_eq in E. now rewrite E.
Qed.

Lemma Map_get_add_words (words : list Word.t) (m : JsMap (list Word.t)) (line : Z) :
  Map_get line (foldl add_word m words)
  = match List.filter (on_line line) words with
    | [] => Map_get line m
    | added => Some (default [] (Map_get line m) ++ added)
    end.
Proof.
  revert m. induction words as [|w words IH]; intros m; [reflexivity|].
  simpl. rewrite IH, Map_get_add_word.
  destruct (on_line line w); [|reflexivity]. simpl.
  destruct (List.filter (on_line line) words); [reflexivity|].
  now rewrite <- app_assoc.
Qed.

Lemma Map_get_groupWordsByLine (verses : list VerseWithWords.t) (line : Z) :
  Map_get line (groupWordsByLine verses)
  = match List.filter (on_line line) (all_words verses) with
    | [] => None
    | words => Some words
    end.
Proof. rewrite groupWordsByLine_flat, Map_get_add_words. reflexivity. Qed.

Example groupWordsByLine_sample :
  groupWordsByLine [opening_verse; second_verse]
  = [(3, [sample_word 3 "a"; sample_word 3 "b"]); (4, [sample_word 4 "c"])].
Proof. reflexivity. Qed.

(** *** Keys in insertion order *)

Lemma Map_keys_set {V : Type} (k : Z) (v : V) (m : JsMap V) :
  Map_keys (Map_set k v m)
  = if includes k (Map_keys m) then Map_keys m else Map_keys m ++ [k].
Proof.
  unfold Map_keys, includes. induction m as [|[k0 v0] m IH]; [reflexivity|].
  simpl. rewrite (Z.eqb_sym k k0). destruct (k0 =? k) eqn:E; simpl.
  - apply Z.eqb_eq in E. now subst.
  - rewrite IH. destruct (existsb (Z.eqb k) (map fst m)); reflexivity.
Qed.

Lemma includes_In (x : Z) (l : list Z) : includes x l = true <-> In x l.
Proof.
  unfold includes. rewrite existsb_exists. split.
  - intros (y & Hin & E). apply Z.eqb_eq in E. now subst.
  - intros Hin. exists x. split; [exact Hin | apply Z.eqb_refl].
Qed.

Lemma Map_keys_In {V : Type} (k : Z) (m : JsMap V) :
  In k (Map_keys m) <-> is_Some (Map_get k m).
Proof.
  induction m as [|[k0 v0] m IH]; simpl.
  - split; [intros [] | intros [x Hx]; discriminate Hx].
  - destruct (k0 =? k) eqn:E.
    + apply Z.eqb_eq in E. split; [eauto | now left].
    + apply Z.eqb_neq in E. rewrite <- IH. split; [intros [H|H]; [contradiction | exact H] | now right].
Qed.

Lemma Map_set_NoDup {V : Type} (k : Z) (v : V) (m : JsMap V) :
  NoDup (Map_keys m) -> NoDup (Map_keys (Map_set k v m)).
Proof.
  intros H. rewrite Map_keys_set. destruct (includes k (Map_keys m)) eqn:E; [exact H|].
  apply NoDup_app. split; [exact H|]. split; [|apply NoDup_singleton].
  intros x Hx Hk. apply list_elem_of_singleton in Hk. subst x.
  apply list_elem_of_In, includes_In in Hx. congruence.
Qed.

Lemma groupWordsByLine_NoDup (verses : list VerseWithWords.t) :
  NoDup (Map_keys (groupWordsByLine verses)).
Proof.
  rewrite groupWordsByLine_flat. generalize (all_words verses). intros words.
  assert (H : NoDup (Map_keys (@nil (Z * list Word.t)))) by constructor.
  revert H. generalize (@nil (Z * list Word.t)).
  induction words as [|w words IH]; intros m H; [exact H|].
  simpl. apply IH. now apply Map_set_NoDup.
Qed.

(** X4: [groupWordsByLine] files every word under its own line number and
    nowhere else, keeps the reading order within a line, has no entry for
    a line without words, and has one entry per line. *)
Theorem groupWordsByLine_lines (verses : list VerseWithWords.t) :
  NoDup (Map_keys (groupWordsByLine verses))
  /\ forall line,
       Map_get line (groupWordsByLine verses)
       = match List.filter (on_line line) (all_words verses) with
         | [] => None
         | words => Some words
         end.
Proof.
  split; [apply groupWordsByLine_NoDup | apply Map_get_groupWordsByLine].
Qed.

Lemma sorted_NoDup_strict (l : list Z) :
  Sorted Z.le l -> NoDup l -> StronglySorted Z.lt l.
Proof.
  intros Hs Hn. apply Sorted_StronglySorted in Hs; [|intros x y z; lia].
  induction Hs as [|x l Hs IH Hall]; [constructor|].
  apply NoDup_cons in Hn as [Hx Hn]. constructor; [now apply IH|].
  rewrite Forall_forall in *. intros y Hy. specialize (Hall y Hy).
  assert (x <> y) by (intros ->; contradiction). lia.
Qed.

Lemma sort_numeric_strict (l : list Z) : NoDup l -> StronglySorted Z.lt (sort_numeric l).
Proof.
  intros H. unfold sort_numeric. apply sorted_NoDup_strict.
  - apply Sorted_merge_sort. intros x y. lia.
  - now rewrite merge_sort_Permutation.
Qed.

Lemma sort_numeric_In (l : list Z) (x : Z) : x ∈ sort_numeric l <-> x ∈ l.
Proof. unfold sort_numeric. now rewrite merge_sort_Permutation. Qed.

(** *** The lines of the plan *)

Lemma render_line_line_blocks (lineMap : JsMap (list Word.t)) (chapters : JsMap Chapter.t)
    (marks : JsMap Z) (lineNum : Z) :
  List.filter is_line_block (render_line lineMap chapters marks lineNum)
  = [line_block (default [] (Map_get lineNum lineMap))].
Proof.
  unfold render_line. rewrite List.filter_app.
  destruct (Map_get lineNum marks) as [c|]; [|reflexivity].
  destruct (Map_get c chapters) as [ch|]; [|reflexivity].
  destruct (negb (c =? 9) && negb (c =? 1)); reflexivity.
Qed.

Lemma page_plan_line_blocks (page : Z) (lineMap : JsMap (list Word.t))
    (chapters : JsMap Chapter.t) (marks : JsMap Z) :
  List.filter is_line_block (page_plan page lineMap chapters marks)
  = map (fun lineNum => line_block (default [] (Map_get lineNum lineMap)))
        (sort_numeric (Map_keys lineMap)).
Proof.
  unfold page_plan. rewrite List.filter_app. simpl. rewrite app_nil_r.
  induction (sort_numeric (Map_keys lineMap)) as [|l ls IH]; [reflexivity|].
  simpl. rewrite List.filter_app, render_line_line_blocks, IH. reflexivity.
Qed.

(** X5: the page plan built from the verses of a page has one line block
    for each line number that some word of the page carries, in strictly
    ascending order of line number, and the block of a line holds exactly
    the words of that line, in reading order. *)
Theorem page_plan_lines_ascending (page : Z) (verses : list VerseWithWords.t)
    (chapters : JsMap Chapter.t) (marks : JsMap Z) :
  let lineNumbers := sort_numeric (Map_keys (groupWordsByLine verses)) in
  StronglySorted Z.lt lineNumbers
  /\ (forall line, line ∈ lineNumbers
                   <-> exists word, word ∈ all_words verses
                                    /\ Word.line_number word = line)
  /\ List.filter is_line_block (page_plan page (groupWordsByLine verses) chapters marks)
     = map (fun line => line_block (List.filter (on_line line) (all_words verses)))
           lineNumbers.
Proof.
  cbn zeta. split; [|split].
  - apply sort_numeric_strict, groupWordsByLine_NoDup.
  - intros line. rewrite sort_numeric_In, list_elem_of_In, Map_keys_In.
    rewrite Map_get_groupWordsByLine.
    destruct (List.filter (on_line line) (all_words verses)) as [|w ws] eqn:E.
    + split; [intros [x Hx]; discriminate Hx|].
      intros (word & Hin & Hline). exfalso.
      assert (Hf : In word (List.filter (on_line line) (all_words verses))).
      { apply List.filter_In. split; [now apply list_elem_of_In|].
        unfold on_line. now apply Z.eqb_eq. }
      rewrite E in Hf. destruct Hf.
    + split; [intros _ | eauto].
      assert (Hf : In w (List.filter (on_line line) (all_words verses)))
        by (rewrite E; now left).
      apply List.filter_In in Hf as [Hin Hline]. exists w.
      split; [now apply list_elem_of_In | now apply Z.eqb_eq].
  - rewrite page_plan_line_blocks. apply map_ext_in. intros line Hin.
    rewrite Map_get_groupWordsByLine.
    destruct (List.filter (on_line line) (all_words verses)); reflexivity.
Qed.

(** ** Section starts: the last one on a line wins *)

Lemma Map_get_mark_surah_start (map : JsMap Z) (verse : VerseWithWords.t) (line : Z) :
  Map_get line (mark_surah_start map verse)
  = if starts_on_line line verse
    then Some (VerseWithWords.chapter_id verse)
    else Map_get line map.
Proof.
  unfold mark_surah_start, starts_on_line.
  destruct (VerseWithWords.verse_number verse =? 1); [|reflexivity].
  destruct (VerseWithWords.words verse) as [|fw rest]; [reflexivity|].
  simpl. apply Map_get_set.
Qed.

(** X6: the marker [buildSurahStartLines] leaves on a line is the section
    of the last verse of the page that starts a section there; a line on
    which no verse starts a section has no marker. *)
Theorem buildSurahStartLines_last_start (verses : list VerseWithWords.t) (line : Z) :
  Map_get line (buildSurahStartLines verses)
  = VerseWithWords.chapter_id <$> last (List.filter (starts_on_line line) verses).
Proof.
  unfold buildSurahStartLines.
  induction verses as [|v verses IH] using rev_ind; [reflexivity|].
  rewrite foldl_app, List.filter_app. simpl.
  rewrite Map_get_mark_surah_start.
  destruct (starts_on_line line v).
  - now rewrite last_snoc.
  - now rewrite app_nil_r.
Qed.

Example buildSurahStartLines_clash :
  buildSurahStartLines [opening_verse; clashing_verse] = [(3, 3)].
Proof. reflexivity. Qed.

(** ** From the verses of a page to its plan *)

Lemma starts_on_line_word (verse : VerseWithWords.t) (line : Z) :
  starts_on verse line ->
  exists word, In word (VerseWithWords.words verse) /\ on_line line word = true.
Proof.
  intros [_ (fw & rest & Hw & Hl)]. exists fw. rewrite Hw. split; [now left|].
  unfold on_line. now apply Z.eqb_eq.
Qed.

Lemma marker_line_has_words (verses : list VerseWithWords.t) (line c : Z) :
  Map_get line (buildSurahStartLines verses) = Some c ->
  List.filter (on_line line) (all_words verses) <> [].
Proof.
  intros H. apply markers_come_from_starts in H as [H | (v & Hin & Hs & _)];
    [discriminate H|].
  destruct (starts_on_line_word _ _ Hs) as (word & Hw & Hl).
  assert (Hf : In word (List.filter (on_line line) (all_words verses))).
  { apply List.filter_In. split; [|exact Hl].
    unfold all_words. apply in_concat. exists (VerseWithWords.words v).
    split; [now apply in_map | exact Hw]. }
  intros E. rewrite E in Hf. destruct Hf.
Qed.

Lemma page_plan_split (page : Z) (lineMap : JsMap (list Word.t))
    (chapters : JsMap Chapter.t) (marks : JsMap Z) (line : Z) :
  In line (Map_keys lineMap) ->
  exists before after,
    page_plan page lineMap chapters marks
    = before ++ render_line lineMap chapters marks line ++ after.
Proof.
  intros Hin. apply list_elem_of_In, sort_numeric_In, list_elem_of_split in Hin
    as (l1 & l2 & E).
  unfold page_plan. rewrite E, map_app, concat_app. simpl.
  exists (concat (map (render_line lineMap chapters marks) l1)),
    (concat (map (render_line lineMap chapters marks) l2) ++ [page_footer page chapters]).
  now rewrite <- !app_assoc.
Qed.

(** X7: in the pipeline of [fetchAndRenderPage] a section start is never
    lost between the two maps: the line of every marker of
    [buildSurahStartLines] is a line of [groupWordsByLine], so where the
    section's metadata is in the lookup the plan holds the section's
    header, then the banner unless the section is 1 or 9, then that line
    with its words. *)
Theorem section_start_is_rendered (page : Z) (verses : list VerseWithWords.t)
    (chapters : JsMap Chapter.t) (line c : Z) (chapter : Chapter.t) :
  Map_get line (buildSurahStartLines verses) = Some c ->
  Map_get c chapters = Some chapter ->
  exists before after,
    page_plan page (groupWordsByLine verses) chapters (buildSurahStartLines verses)
    = before
      ++ (surah_header chapter
          :: (if negb (c =? 9) && negb (c =? 1) then [bismillah_banner] else [])
          ++ [line_block (List.filter (on_line line) (all_words verses))])
      ++ after.
Proof.
  intros Hm Hc. pose proof (marker_line_has_words _ _ _ Hm) as Hw.
  assert (Hg : Map_get line (groupWordsByLine verses)
               = Some (List.filter (on_line line) (all_words verses))).
  { rewrite Map_get_groupWordsByLine.
    destruct (List.filter (on_line line) (all_words verses)); [contradiction | reflexivity]. }
  assert (Hk : In line (Map_keys (groupWordsByLine verses))).
  { apply Map_keys_In. rewrite Hg. eauto. }
  destruct (page_plan_split page _ chapters (buildSurahStartLines verses) _ Hk)
    as (before & after & E).
  exists before, after. rewrite E. unfold render_line. rewrite Hm, Hc, Hg. reflexivity.
Qed.

(** ** The chapters of a page *)

Lemma Map_get_chapters_for_ids (chapterIds : list Z) (all : list Chapter.t) (id : Z) :
  Map_get id (chapters_for_ids chapterIds all)
  = if includes id chapterIds then last (List.filter (has_id id) all) else None.
Proof.
  unfold chapters_for_ids.
  induction all as [|ch all IH] using rev_ind.
  - simpl. now destruct (includes id chapterIds).
  - rewrite foldl_app, List.filter_app. simpl. unfold has_id at 2.
    destruct (includes (Chapter.id ch) chapterIds) eqn:Ei.
    + rewrite Map_get_set. destruct (Chapter.id ch =? id) eqn:E.
      * apply Z.eqb_eq in E. rewrite <- E, Ei. now rewrite last_snoc.
      * now rewrite app_nil_r.
    + rewrite IH. destruct (Chapter.id ch =? id) eqn:E.
      * apply Z.eqb_eq in E. now rewrite <- E, Ei.
      * now rewrite app_nil_r.
Qed.

Section PageRender.

Context {RS : Type}.
Variable remote : Remote RS.

(** X8: on a filled cache [getChaptersForIds] makes no request and changes
    nothing; its map holds, for each requested id, the last chapter of the
    cached list with that id, filed under that id, and nothing for ids
    that were not requested or are not in the list. *)
Theorem getChaptersForIds_from_cache (chapterIds : list Z) (language : string)
    (w : World RS) (cached : list Chapter.t) :
  w_chaptersCache w = Some cached ->
  exists chapters,
    getChaptersForIds remote chapterIds language w = (Ok chapters, w)
    /\ forall id,
         Map_get id chapters
         = if includes id chapterIds then last (List.filter (has_id id) cached) else None.
Proof.
  intros H. exists (chapters_for_ids chapterIds cached). split.
  - unfold getChaptersForIds, bind. now rewrite (getCachedChapters_filled _ _ _ _ H).
  - intros id. apply Map_get_chapters_for_ids.
Qed.

End PageRender.

(** ** Rendering a page *)

Section PageOutcome.

Context {RS : Type}.
Variable remote : Remote RS.

(** The run of [fetchAndRenderPage], request by request. *)
Lemma fetchAndRenderPage_run (tag cls : string) (stale : list Node) (page : Z)
    (language : string) (w : World RS) :
  fetchAndRenderPage remote (Element tag cls stale) page language w
  = match remote (page_request page) (w_remote w) with
    | (Ok verses, s1) =>
        match getCachedChapters remote language
                (mkWorld s1 (EvFetch (page_request page) true :: loading_events ++ w_trace w)
                   (w_chaptersCache w) (w_vault w) (w_today w)) with
        | (Ok all, w2) =>
            (Ok (Element tag cls [page_element page verses all]),
             mkWorld (w_remote w2) (EvUi (RenderMushafPage page) :: w_trace w2)
               (w_chaptersCache w2) (w_vault w2) (w_today w2))
        | (Throw e, w2) =>
            (Ok (Element tag cls [error_block e]),
             mkWorld (w_remote w2) (error_events e ++ w_trace w2)
               (w_chaptersCache w2) (w_vault w2) (w_today w2))
        end
    | (Throw e, s1) =>
        (Ok (Element tag cls [error_block e]),
         mkWorld s1
           (error_events e ++ EvFetch (page_request page) false :: loading_events ++ w_trace w)
           (w_chaptersCache w) (w_vault w) (w_today w))
    end.
Proof.
  unfold loading_events, error_events. cbn [app].
  unfold fetchAndRenderPage, try_catch, getVersesByPageWithWords, getChaptersForIds.
  unfold bind at 1 2 3. unfold ui, log, fetchJson. cbn [fst snd w_remote w_trace w_chaptersCache w_vault w_today].
  destruct (remote (page_request page) (w_remote w)) as [[verses|e] s1].
  - unfold bind.
    cbn [is_Ok w_remote w_trace w_chaptersCache w_vault w_today].
    match goal with |- context [getCachedChapters remote language ?w1] =>
      destruct (getCachedChapters remote language w1) as [[all|e] w2] end; reflexivity.
  - reflexivity.
Qed.

(** X9: [fetchAndRenderPage] never throws and never leaves the loading line
    behind: whatever the remote service does and whatever the container
    held, the container comes back with exactly one child, a page element
    or an error block, and the vault is not touched. *)
Theorem fetchAndRenderPage_total (tag cls : string) (stale : list Node) (page : Z)
    (language : string) (w : World RS) :
  exists child w',
    fetchAndRenderPage remote (Element tag cls stale) page language w
    = (Ok (Element tag cls [child]), w')
    /\ ((exists e, child = error_block e)
        \/ (exists verses all, child = page_element page verses all))
    /\ w_vault w' = w_vault w.
Proof.
  rewrite fetchAndRenderPage_run.
  destruct (remote (page_request page) (w_remote w)) as [[verses|e] s1].
  - destruct (w_chaptersCache w) as [cached|] eqn:Ec.
    + rewrite (getCachedChapters_filled remote language _ cached) by reflexivity.
      eexists _, _. split; [reflexivity|]. split; [|reflexivity].
      right. now exists verses, cached.
    + rewrite getCachedChapters_empty by reflexivity. cbn [w_remote].
      destruct (remote (ReqChapters language) s1) as [[all|e] s2].
      * eexists _, _. split; [reflexivity|]. split; [|reflexivity].
        right. now exists verses, all.
      * eexists _, _. split; [reflexivity|]. split; [|reflexivity].
        left. now exists e.
  - eexists _, _. split; [reflexivity|]. split; [|reflexivity].
    left. now exists e.
Qed.


(** X11: on a filled cache a page is rendered with one request, the one
    for the page: the container ends up with the page element built from
    the verses and the cached chapters, and the cache is as before. *)
Theorem fetchAndRenderPage_cached (tag cls : string) (stale : list Node)
    (page : Z) (language : string) (w : World RS)
    (verses : list VerseWithWords.t) (cached : list Chapter.t) (s1 : RS) :
  w_chaptersCache w = Some cached ->
  remote (page_request page) (w_remote w) = (Ok verses, s1) ->
  fetchAndRenderPage remote (Element tag cls stale) page language w
  = (Ok (Element tag cls [page_element page verses cached]),
     mkWorld s1
       ([EvUi (RenderMushafPage page); EvFetch (page_request page) true]
        ++ loading_events ++ w_trace w)
       (Some cached) (w_vault w) (w_today w)).
Proof.
  intros Hc Hp. rewrite fetchAndRenderPage_run, Hp.
  rewrite (getCachedChapters_filled remote language _ cached) by exact Hc.
  cbn [w_remote w_trace w_chaptersCache w_vault w_today]. rewrite Hc. reflexivity.
Qed.

(** X12: the first page rendered on an empty cache asks for the page and
    then for the list of chapters, and leaves the list in the cache; so
    the next page, whatever its language, costs one request. *)
Theorem fetchAndRenderPage_fills_cache (tag cls : string) (stale : list Node)
    (page next : Z) (language other : string) (w : World RS)
    (verses more : list VerseWithWords.t) (all : list Chapter.t) (s1 s2 s3 : RS) :
  w_chaptersCache w = None ->
  remote (page_request page) (w_remote w) = (Ok verses, s1) ->
  remote (ReqChapters language) s1 = (Ok all, s2) ->
  remote (page_request next) s2 = (Ok more, s3) ->
  exists w1 w2,
    fetchAndRenderPage remote (Element tag cls stale) page language w
    = (Ok (Element tag cls [page_element page verses all]), w1)
    /\ w_chaptersCache w1 = Some all
    /\ fetch_events (w_trace w1)
       = [(ReqChapters language, true); (page_request page, true)]
         ++ fetch_events (w_trace w)
    /\ fetchAndRenderPage remote (Element tag cls [page_element page verses all])
         next other w1
       = (Ok (Element tag cls [page_element next more all]), w2)
    /\ fetch_events (w_trace w2)
       = (page_request next, true) :: fetch_events (w_trace w1).
Proof.
  intros Hc Hp Hch Hn.
  eexists _, _. split; [|split; [|split; [|split]]].
  - rewrite fetchAndRenderPage_run, Hp.
    rewrite getCachedChapters_empty by exact Hc. cbn [w_remote]. rewrite Hch.
    reflexivity.
  - reflexivity.
  - reflexivity.
  - rewrite fetchAndRenderPage_run. cbn [w_remote]. rewrite Hn.
    rewrite (getCachedChapters_filled remote other _ all) by reflexivity.
    reflexivity.
  - reflexivity.
Qed.

End PageOutcome.

(** ** The outcome of a generator run *)

Section Outcome.

Context {RS : Type}.
Variable remote : Remote RS.
Variable normalizePath : string -> string.
Variable settings : QuranPluginSettings.


















End Outcome.

(** ** What a complete run leaves in the vault *)

Section Completeness.

Context {RS : Type}.
Variable remote : Remote RS.
Variable normalizePath : string -> string.
Variable settings : QuranPluginSettings.

Lemma provides_bind_l (paths : list string) {A B : Type} (m : M RS A) (k : A -> M RS B) :
  provides (RS:=RS) paths m -> (forall a, tame (RS:=RS) (fun _ => True) (k a)) ->
  provides (RS:=RS) paths (bind m k).
Proof.
  intros Hm Hk w. unfold bind. specialize (Hm w).
  destruct (m w) as [[a|e] w1]; simpl in *; [|discriminate].
  intros _. destruct (Hk a w1) as [Hgrow _].
  eapply Forall_impl; [exact (Hm eq_refl)|].
  intros path [entry Hentry]. exists entry. eapply lookup_weaken; eassumption.
Qed.

Lemma provides_bind_r (paths : list string) {A B : Type} (m : M RS A) (k : A -> M RS B) :
  (forall a, provides (RS:=RS) paths (k a)) -> provides (RS:=RS) paths (bind m k).
Proof.
  intros Hk w. unfold bind. destruct (m w) as [[a|e] w1]; simpl; [apply Hk | discriminate].
Qed.

Lemma provides_app (ps qs : list string) {A : Type} (m : M RS A) :
  provides (RS:=RS) ps m -> provides (RS:=RS) qs m -> provides (RS:=RS) (ps ++ qs) m.
Proof. intros Hp Hq w Hok. apply Forall_app. split; [now apply Hp | now apply Hq]. Qed.

Lemma provides_for_each {A : Type} (f : A -> string) (items : list A)
    (body : A -> M RS unit) :
  (forall x, provides (RS:=RS) [f x] (body x)) ->
  (forall x, tame (RS:=RS) (fun _ => True) (body x)) ->
  provides (RS:=RS) (map f items) (for_each items body).
Proof.
  intros Hbody Htame. induction items as [|x items IH]; simpl.
  - intros w _. constructor.
  - apply (provides_app [f x]).
    + apply provides_bind_l; [apply Hbody|]. intros _. now apply tame_for_each.
    + apply provides_bind_r. intros _. exact IH.
Qed.

Lemma provides_skip (path : string) (absent : M RS unit) :
  creates remote path absent -> provides (RS:=RS) [path] (skip_if_exists path absent).
Proof.
  intros [Hout _] w. destruct (w_vault w !! path) as [e|] eqn:E.
  - rewrite (skip_if_exists_found _ _ _ e E). intros _. repeat constructor.
    simpl. rewrite E. eauto.
  - rewrite (skip_if_exists_absent _ _ _ E).
    destruct (Hout (checked w path) E) as (new & _ & Hcase). intros Hok.
    destruct Hcase as [(_ & (entry & Hv) & _) | ((e & He) & _)].
    + repeat constructor. rewrite Hv. exists entry. apply lookup_insert_eq.
    + rewrite He in Hok. discriminate Hok.
Qed.

(** The request is answered with [a], whenever it is made. *)
Lemma provides_after_fetch (paths : list string) (r : Request) (a : Response r)
    (k : Response r -> M RS unit) :
  (forall s, (remote r s).1 = Ok a) -> provides (RS:=RS) paths (k a) ->
  provides (RS:=RS) paths (bind (fetchJson remote r) k).
Proof.
  intros Hr Hk w. unfold bind, fetchJson. specialize (Hr (w_remote w)).
  destruct (remote r (w_remote w)) as [res s']. simpl in Hr. subst res. apply Hk.
Qed.

Lemma createFolders_provides :
  provides (RS:=RS) (folder_paths normalizePath) (@createFolders RS normalizePath).
Proof.
  unfold createFolders, folder_paths.
  apply (provides_for_each (fun folder => normalizePath (cat [baseFolder; "/"; folder]))).
  - intros folder. apply (provides_skip _ (createFolder _)). now apply creates_vault_put.
  - intros folder.
    apply tame_bind; [apply tame_getAbstractFileByPath; intros; exact I|].
    intros [e|]; [apply tame_ret | apply createFolder_tame].
Qed.

Lemma page_absent_creates (options : VaultGeneratorOptions) (page : Z)
    (chapterMap : JsMap Chapter.t) (juzPageMap : JsMap Z) :
  creates remote (page_path normalizePath page)
    (let* verses := getVersesByPage remote page (page_options options) in
     let chapters := page_chapters chapterMap verses in
     let juzNumber := juzNumber_of_page juzPageMap page in
     let content := buildPageContent page verses chapters juzNumber options in
     create (page_path normalizePath page) content ;;
     if Z.rem page 10 =? 0
     then ui (NoticeShown (cat ["Generated "; String_of_number page; "/604 pages..."])) ;;
          ui (Slept 100)
     else ret tt).
Proof.
  unfold getVersesByPage.
  apply (creates_after_fetch _ _ (verses_by_page_request _ _)). intros verses.
  apply creates_then_silent; [now apply creates_vault_put|].
  destruct (Z.rem page 10 =? 0); [apply silent_ui_ui | apply silent_ret].
Qed.

Lemma generatePageNotes_provides (options : VaultGeneratorOptions) :
  provides (RS:=RS) (map (page_path normalizePath) all_pages)
    (generatePageNotes remote normalizePath settings options).
Proof.
  unfold generatePageNotes.
  apply provides_bind_r. intros allChapters. apply provides_bind_r. intros juzs.
  apply (provides_for_each (page_path normalizePath)).
  - intros page. cbv zeta.
    match goal with
    | |- provides _ (bind _ (fun found => match found with Some _ => _ | None => ?absent end)) =>
        apply (provides_skip (page_path normalizePath page) absent)
    end.
    apply page_absent_creates.
  - intros page. cbv zeta. unfold getVersesByPage.
    apply tame_bind; [apply tame_getAbstractFileByPath; intros; exact I|].
    intros [e|]; [apply tame_ret|].
    apply tame_bind;
      [now apply (tame_fetchJson _ _ (verses_by_page_request _ _)) | intros verses].
    apply tame_bind; [apply create_tame | intros _].
    destruct (Z.rem page 10 =? 0); [|apply tame_ret].
    apply tame_bind; [now apply tame_ui | intros _]. now apply tame_ui.
Qed.

Lemma generateIndex_provides :
  provides (RS:=RS) [index_path normalizePath] (@generateIndex RS normalizePath).
Proof.
  unfold generateIndex. apply (provides_skip _ (create _ _)). now apply creates_vault_put.
Qed.

Lemma generateSurahNotes_provides (chapters : list Chapter.t) :
  (forall s, (remote (ReqChapters (language settings)) s).1 = Ok chapters) ->
  provides (RS:=RS) (map (surah_path normalizePath) chapters)
    (generateSurahNotes remote normalizePath settings).
Proof.
  intros Hr. unfold generateSurahNotes, getChapters.
  apply (provides_after_fetch _ (ReqChapters _) chapters); [exact Hr|].
  apply (provides_for_each (surah_path normalizePath)).
  - intros chapter. apply (provides_skip _ (create _ _)). now apply creates_vault_put.
  - intros chapter.
    apply tame_bind; [apply tame_getAbstractFileByPath; intros; exact I|].
    intros [e|]; [apply tame_ret | apply create_tame].
Qed.

Ltac tame_ui_step := apply tame_bind; [now apply tame_ui | intros _].

Lemma after_index_tame :
  tame (RS:=RS) (fun _ => True)
    (ui NoticeHidden ;; ui (NoticeShown "Quran vault generated successfully!")).
Proof. tame_ui_step. now apply tame_ui. Qed.

Lemma after_pages_tame :
  tame (RS:=RS) (fun _ => True)
    (ui (NoticeSet "Generating index...") ;;
     generateIndex normalizePath ;;
     ui NoticeHidden ;; ui (NoticeShown "Quran vault generated successfully!")).
Proof.
  tame_ui_step. apply tame_bind; [apply (generateIndex_steady remote normalizePath) | intros _].
  apply after_index_tame.
Qed.

Lemma after_surahs_tame (options : VaultGeneratorOptions) :
  tame (RS:=RS) (fun _ => True)
    (ui (NoticeSet "Generating page notes (this may take a few minutes)...") ;;
     generatePageNotes remote normalizePath settings options ;;
     ui (NoticeSet "Generating index...") ;;
     generateIndex normalizePath ;;
     ui NoticeHidden ;; ui (NoticeShown "Quran vault generated successfully!")).
Proof.
  tame_ui_step. apply tame_bind; [apply (generatePageNotes_steady remote normalizePath settings options) | intros _].
  apply after_pages_tame.
Qed.

Lemma after_folders_tame (options : VaultGeneratorOptions) :
  tame (RS:=RS) (fun _ => True)
    (ui (NoticeSet "Generating surah notes...") ;;
     generateSurahNotes remote normalizePath settings ;;
     ui (NoticeSet "Generating page notes (this may take a few minutes)...") ;;
     generatePageNotes remote normalizePath settings options ;;
     ui (NoticeSet "Generating index...") ;;
     generateIndex normalizePath ;;
     ui NoticeHidden ;; ui (NoticeShown "Quran vault generated successfully!")).
Proof.
  tame_ui_step. apply tame_bind; [apply (generateSurahNotes_steady remote normalizePath settings) | intros _].
  apply after_surahs_tame.
Qed.

Lemma generate_steps_provides (options : VaultGeneratorOptions) :
  provides (RS:=RS) (generated_paths normalizePath)
    (generate_steps remote normalizePath settings options).
Proof.
  unfold generate_steps, generated_paths. apply provides_app; [|apply provides_app].
  - apply provides_bind_l; [apply createFolders_provides|]. intros _.
    apply after_folders_tame.
  - do 4 (apply provides_bind_r; intros _).
    apply provides_bind_l; [apply generatePageNotes_provides|]. intros _.
    apply after_pages_tame.
  - do 6 (apply provides_bind_r; intros _).
    apply provides_bind_l; [apply generateIndex_provides|]. intros _.
    apply after_index_tame.
Qed.

Lemma generate_steps_provides_surahs (options : VaultGeneratorOptions)
    (chapters : list Chapter.t) :
  (forall s, (remote (ReqChapters (language settings)) s).1 = Ok chapters) ->
  provides (RS:=RS) (map (surah_path normalizePath) chapters)
    (generate_steps remote normalizePath settings options).
Proof.
  intros Hr. unfold generate_steps. do 2 (apply provides_bind_r; intros _).
  apply provides_bind_l; [now apply generateSurahNotes_provides|]. intros _.
  apply after_surahs_tame.
Qed.

Lemma failure_is_not_success (e : Thrown) (earlier later : list Event) :
  failure_events e ++ earlier <> success_notice :: later.
Proof.
  unfold failure_events, success_notice. simpl. rewrite append_cons.
  intros H. inversion H.
Qed.

(** X14: a run of the generator that ends with the success notice leaves
    the whole vault behind: the four folders, a document for each of the
    604 pages and the index, whether it made them or found them; and a
    document for every chapter, when the remote service answers the request
    for the chapters with the same list each time. *)
Theorem generateFullVault_success_is_complete (options : VaultGeneratorOptions)
    (w : World RS) (earlier : list Event) :
  let w' := (generateFullVault remote normalizePath settings options w).2 in
  w_trace w' = success_notice :: earlier ->
  Forall (fun path => is_Some (w_vault w' !! path)) (generated_paths normalizePath)
  /\ forall chapters,
       (forall s, (remote (ReqChapters (language settings)) s).1 = Ok chapters) ->
       Forall (fun path => is_Some (w_vault w' !! path))
              (map (surah_path normalizePath) chapters).
Proof.
  cbv zeta. rewrite generateFullVault_vault.
  unfold generateFullVault, bind, ui, log, try_catch. cbn [fst snd]. fold (started w).
  pose proof (generate_steps_provides options (started w)) as Hall.
  pose proof (fun chapters Hr =>
                generate_steps_provides_surahs options chapters Hr (started w)) as Hsurahs.
  destruct (generate_steps remote normalizePath settings options (started w))
    as [[[]|e] w1]; cbn [fst snd w_trace] in *.
  - intros _. split; [now apply Hall|]. intros chapters Hr. now apply (Hsurahs chapters).
  - intros H. exfalso. exact (failure_is_not_success e (w_trace w1) earlier H).
Qed.

End Completeness.

(** ** Pages that are already there *)

Section Resume.

Context {RS : Type}.
Variable remote : Remote RS.
Variable normalizePath : string -> string.
Variable settings : QuranPluginSettings.

Lemma quiet_of_tame (P : Event -> Prop) (path : string) {A : Type} (m : M RS A) :
  tame (RS:=RS) P m -> quiet (RS:=RS) P path m.
Proof.
  intros Hm w [entry Hentry]. destruct (Hm w) as [Hgrow Hnew].
  split; [|exact Hnew]. exists entry. eapply lookup_weaken; eassumption.
Qed.

Lemma quiet_bind (P : Event -> Prop) (path : string) {A B : Type}
    (m : M RS A) (k : A -> M RS B) :
  quiet (RS:=RS) P path m -> (forall a, quiet (RS:=RS) P path (k a)) ->
  quiet (RS:=RS) P path (bind m k).
Proof.
  intros Hm Hk w Hw. unfold bind. destruct (Hm w Hw) as [Hw1 (new & Htrace & Hnew)].
  destruct (m w) as [[a|e] w1]; simpl in *.
  - destruct (Hk a w1 Hw1) as [Hw2 (new' & Htrace' & Hnew')].
    split; [exact Hw2|]. exists (new' ++ new).
    split; [rewrite Htrace', Htrace; apply app_assoc|].
    apply Forall_app. split; assumption.
  - split; [exact Hw1|]. exists new. split; assumption.
Qed.

Lemma quiet_try_catch (P : Event -> Prop) (path : string) {A : Type}
    (m : M RS A) (h : Thrown -> M RS A) :
  quiet (RS:=RS) P path m -> (forall e, quiet (RS:=RS) P path (h e)) ->
  quiet (RS:=RS) P path (try_catch m h).
Proof.
  intros Hm Hh w Hw. unfold try_catch. destruct (Hm w Hw) as [Hw1 (new & Htrace & Hnew)].
  destruct (m w) as [[a|e] w1]; simpl in *.
  - split; [exact Hw1|]. exists new. split; assumption.
  - destruct (Hh e w1 Hw1) as [Hw2 (new' & Htrace' & Hnew')].
    split; [exact Hw2|]. exists (new' ++ new).
    split; [rewrite Htrace', Htrace; apply app_assoc|].
    apply Forall_app. split; assumption.
Qed.

Lemma quiet_for_each (P : Event -> Prop) (path : string) {A : Type}
    (items : list A) (body : A -> M RS unit) :
  (forall x, quiet (RS:=RS) P path (body x)) ->
  quiet (RS:=RS) P path (for_each items body).
Proof.
  intros Hbody. induction items as [|x items IH]; simpl.
  - apply quiet_of_tame, tame_ret.
  - apply quiet_bind; [apply Hbody | intros _; exact IH].
Qed.

(** A step that looks another path up may do as it likes when the path is
    not the one in the vault; when it is, the step does nothing. *)
Lemma quiet_skip (P : Event -> Prop) (path looked : string) (absent : M RS unit) :
  (forall found, P (EvVault (OpExists looked found))) ->
  (looked <> path -> tame (RS:=RS) P absent) ->
  quiet (RS:=RS) P path (skip_if_exists looked absent).
Proof.
  intros Hcheck Habsent. destruct (decide (looked = path)) as [->|Hne].
  - intros w [entry Hentry]. rewrite (skip_if_exists_found _ _ _ entry Hentry).
    split; [simpl; eauto|]. eexists [_]. split; [reflexivity|].
    repeat constructor. apply Hcheck.
  - apply quiet_of_tame. unfold skip_if_exists.
    apply tame_bind; [now apply tame_getAbstractFileByPath|].
    intros [e|]; [apply tame_ret | now apply Habsent].
Qed.

Lemma not_page_fetch_vault (options : VaultGeneratorOptions) (page : Z) (op : VaultOp) :
  ~ fetches_page options page (EvVault op).
Proof. intros [ok H]. discriminate H. Qed.

Lemma not_page_fetch_ui (options : VaultGeneratorOptions) (page : Z) (e : UiEvent) :
  ~ fetches_page options page (EvUi e).
Proof. intros [ok H]. discriminate H. Qed.

Lemma createFolders_fetches_no_page (options : VaultGeneratorOptions) (page : Z) :
  tame (RS:=RS) (fun ev => ~ fetches_page options page ev) (@createFolders RS normalizePath).
Proof.
  unfold createFolders. apply tame_for_each. intros folder.
  apply tame_bind;
    [apply tame_getAbstractFileByPath; intros; apply not_page_fetch_vault|].
  intros [e|]; [apply tame_ret | apply tame_vault_put, not_page_fetch_vault].
Qed.

Lemma generateSurahNotes_fetches_no_page (options : VaultGeneratorOptions) (page : Z) :
  tame (RS:=RS) (fun ev => ~ fetches_page options page ev)
    (generateSurahNotes remote normalizePath settings).
Proof.
  unfold generateSurahNotes, getChapters.
  apply tame_bind.
  { apply (tame_fetchJson _ _ (ReqChapters _)). intros ok [ok' H]. discriminate H. }
  intros chapters. apply tame_for_each. intros chapter.
  apply tame_bind;
    [apply tame_getAbstractFileByPath; intros; apply not_page_fetch_vault|].
  intros [e|]; [apply tame_ret | apply tame_vault_put, not_page_fetch_vault].
Qed.

Lemma generateIndex_fetches_no_page (options : VaultGeneratorOptions) (page : Z) :
  tame (RS:=RS) (fun ev => ~ fetches_page options page ev) (@generateIndex RS normalizePath).
Proof.
  unfold generateIndex.
  apply tame_bind;
    [apply tame_getAbstractFileByPath; intros; apply not_page_fetch_vault|].
  intros [e|]; [apply tame_ret | apply tame_vault_put, not_page_fetch_vault].
Qed.

Lemma generatePageNotes_skips (options : VaultGeneratorOptions) (page : Z) :
  quiet (RS:=RS) (fun ev => ~ fetches_page options page ev)
    (page_path normalizePath page)
    (generatePageNotes remote normalizePath settings options).
Proof.
  unfold generatePageNotes, getChapters, getJuzs.
  apply quiet_bind.
  { apply quiet_of_tame, (tame_fetchJson _ _ (ReqChapters _)).
    intros ok [ok' H]. discriminate H. }
  intros allChapters. apply quiet_bind.
  { apply quiet_of_tame, (tame_fetchJson _ _ ReqJuzs).
    intros ok [ok' H]. discriminate H. }
  intros juzs. apply quiet_for_each. intros other. cbv zeta. unfold getVersesByPage.
  match goal with
  | |- quiet _ _ (bind _ (fun found => match found with Some _ => _ | None => ?absent end)) =>
      apply (quiet_skip _ _ (page_path normalizePath other) absent)
  end.
  - intros found. apply not_page_fetch_vault.
  - intros Hne. apply tame_bind.
    { apply (tame_fetchJson _ _ (verses_by_page_request _ _)).
      intros ok [ok' H]. apply Hne. unfold verses_by_page_request in H.
      inversion H. reflexivity. }
    intros verses. apply tame_bind; [apply tame_vault_put, not_page_fetch_vault | intros _].
    destruct (Z.rem other 10 =? 0); [|apply tame_ret].
    apply tame_bind; [apply tame_ui, not_page_fetch_ui | intros _].
    apply tame_ui, not_page_fetch_ui.
Qed.

(** X15: a run of the generator never asks the remote service for a page
    whose document is in the vault when the run starts; so a run that
    resumes after a failure asks only for the pages that are still
    missing. *)
Theorem generateFullVault_skips_existing_pages (options : VaultGeneratorOptions)
    (w : World RS) (page : Z) :
  is_Some (w_vault w !! page_path normalizePath page) ->
  exists new,
    w_trace (generateFullVault remote normalizePath settings options w).2
    = new ++ w_trace w
    /\ Forall (fun ev => ~ fetches_page options page ev) new.
Proof.
  intros Hpage.
  assert (Hq : quiet (RS:=RS) (fun ev => ~ fetches_page options page ev)
                 (page_path normalizePath page)
                 (generateFullVault remote normalizePath settings options)).
  { unfold generateFullVault.
    apply quiet_bind; [apply quiet_of_tame, tame_ui, not_page_fetch_ui | intros _].
    apply quiet_try_catch.
    - unfold generate_steps.
      apply quiet_bind; [apply quiet_of_tame, createFolders_fetches_no_page | intros _].
      apply quiet_bind; [apply quiet_of_tame, tame_ui, not_page_fetch_ui | intros _].
      apply quiet_bind;
        [apply quiet_of_tame, generateSurahNotes_fetches_no_page | intros _].
      apply quiet_bind; [apply quiet_of_tame, tame_ui, not_page_fetch_ui | intros _].
      apply quiet_bind; [apply generatePageNotes_skips | intros _].
      apply quiet_bind; [apply quiet_of_tame, tame_ui, not_page_fetch_ui | intros _].
      apply quiet_bind; [apply quiet_of_tame, generateIndex_fetches_no_page | intros _].
      apply quiet_bind; [apply quiet_of_tame, tame_ui, not_page_fetch_ui | intros _].
      apply quiet_of_tame, tame_ui, not_page_fetch_ui.
    - intros e.
      apply quiet_bind; [apply quiet_of_tame, tame_ui, not_page_fetch_ui | intros _].
      apply quiet_of_tame, tame_ui, not_page_fetch_ui. }
  exact (proj2 (Hq w Hpage)).
Qed.

End Resume.

(** ** Pages no juz record holds *)

Lemma assign_page_none (page : Z) (juzs : list Juz.t) (pageToJuz : JsMap Z) :
  1 <= page <= 604 ->
  (forall j, In j (map Juz.juz_number juzs) -> 1 <= j <= 30) ->
  ~ In (juz_holding page) (map Juz.juz_number juzs) ->
  assign_page page juzs pageToJuz = pageToJuz.
Proof.
  intros Hp. induction juzs as [|juz rest IH]; intros Hall Hnot; simpl in *; [reflexivity|].
  rewrite page_in_juz_number, ranges_partition_pages by auto.
  destruct (Juz.juz_number juz =? juz_holding page) eqn:E.
  - apply Z.eqb_eq in E. exfalso. apply Hnot. now left.
  - apply IH; [auto|]. intros H. apply Hnot. now right.
Qed.

Lemma assign_page_other (page other : Z) (juzs : list Juz.t) (pageToJuz : JsMap Z) :
  other <> page ->
  Map_get page (assign_page other juzs pageToJuz) = Map_get page pageToJuz.
Proof.
  intros Hne. induction juzs as [|juz rest IH]; simpl; [reflexivity|].
  destruct (page_in_juz other juz); [now apply Map_get_set_ne | exact IH].
Qed.

Lemma ceil_of_page (page : Z) :
  1 <= page <= 604 ->
  Z_of_number (Math_ceil (number_of_Z page / 20)%float) = (page + 19) / 20.
Proof.
  intros Hp.
  assert (H : forallb (fun p => Z_of_number (Math_ceil (number_of_Z p / 20)%float)
                               =? (p + 19) / 20)
                      (seqZ 1 604) = true) by (vm_compute; reflexivity).
  pose proof (forallb_seqZ _ _ _ H page ltac:(lia)) as H1. cbn beta in H1. lia.
Qed.

(** X16: when the juz records the remote service sent (numbered within
    1..30) lack the one whose range holds the page, the page gets
    [Math.ceil(page / 20)] instead, whatever other records there are; for
    the pages after 600 that is 31, a juz that does not exist. *)
Theorem juzNumber_of_page_fallback (juzs : list Juz.t) (page : Z) :
  1 <= page <= 604 ->
  (forall j, In j (map Juz.juz_number juzs) -> 1 <= j <= 30) ->
  ~ In (juz_holding page) (map Juz.juz_number juzs) ->
  juzNumber_of_page (buildJuzPageMap juzs) page = (page + 19) / 20
  /\ (600 < page -> juzNumber_of_page (buildJuzPageMap juzs) page = 31).
Proof.
  intros Hp Hall Hnot.
  assert (Hnone : Map_get page (buildJuzPageMap juzs) = None).
  { unfold buildJuzPageMap. generalize all_pages. intros pages.
    change (Map_get page (foldl (fun m p => assign_page p juzs m) [] pages)
            = Map_get page (@nil (Z * Z))).
    generalize (@nil (Z * Z)).
    induction pages as [|q pages IH]; intros m; [reflexivity|].
    simpl. rewrite IH. destruct (Z.eq_dec q page) as [->|Hne].
    - now rewrite assign_page_none.
    - now apply assign_page_other. }
  assert (Hfall : juzNumber_of_page (buildJuzPageMap juzs) page = (page + 19) / 20).
  { unfold juzNumber_of_page. rewrite Hnone. now apply ceil_of_page. }
  split; [exact Hfall|]. intros Hlast. rewrite Hfall.
  assert (page = 601 \/ page = 602 \/ page = 603 \/ page = 604) as [->|[->|[->| ->]]]
    by lia; reflexivity.
Qed.

(** ** Sets in insertion order *)

Lemma Set_add_In (x y : Z) (s : JsSet) : In y (Set_add x s) <-> y = x \/ In y s.
Proof.
  unfold Set_add. destruct (includes x s) eqn:E.
  - apply includes_In in E. split; [now right | intros [->|H]; assumption].
  - rewrite in_app_iff. simpl. split; [intros [H|[H|[]]]; auto | intros [H|H]; auto].
Qed.

Lemma Set_add_NoDup (x : Z) (s : JsSet) : NoDup s -> NoDup (Set_add x s).
Proof.
  intros H. unfold Set_add. destruct (includes x s) eqn:E; [exact H|].
  apply NoDup_app. split; [exact H|]. split; [|apply NoDup_singleton].
  intros y Hy Hx. apply list_elem_of_singleton in Hx. subst y.
  apply list_elem_of_In, includes_In in Hy. congruence.
Qed.

Lemma Set_fill_In (l : list Z) (s : JsSet) (y : Z) :
  In y (foldl (fun s x => Set_add x s) s l) <-> In y s \/ In y l.
Proof.
  revert s. induction l as [|x l IH]; intros s; simpl; [tauto|].
  rewrite IH, Set_add_In. split; [intros [[->|H]|H] | intros [H|[->|H]]]; auto.
Qed.

Lemma Set_fill_NoDup (l : list Z) (s : JsSet) :
  NoDup s -> NoDup (foldl (fun s x => Set_add x s) s l).
Proof.
  revert s. induction l as [|x l IH]; intros s H; simpl; [exact H|].
  now apply IH, Set_add_NoDup.
Qed.

(** ** The sections of a page note *)

Lemma Map_get_chapter_index (all : list Chapter.t) (id : Z) :
  Map_get id (foldl (fun m ch => Map_set (Chapter.id ch) ch m) [] all)
  = last (List.filter (has_id id) all).
Proof.
  induction all as [|ch all IH] using rev_ind; [reflexivity|].
  rewrite foldl_app, List.filter_app. simpl. unfold has_id at 2.
  rewrite Map_get_set. destruct (Chapter.id ch =? id).
  - now rewrite last_snoc.
  - now rewrite app_nil_r.
Qed.

Lemma last_filter_In {A : Type} (f : A -> bool) (l : list A) (x : A) :
  last (List.filter f l) = Some x -> In x l /\ f x = true.
Proof.
  intros H. apply List.filter_In. apply list_elem_of_In.
  now apply last_Some_elem_of.
Qed.

Lemma omap_ids_NoDup (m : JsMap Chapter.t) (ids : list Z) :
  (forall id ch, Map_get id m = Some ch -> Chapter.id ch = id) ->
  NoDup ids ->
  NoDup (map Chapter.id (omap (fun id => Map_get id m) ids))
  /\ forall ch, In ch (omap (fun id => Map_get id m) ids) -> In (Chapter.id ch) ids.
Proof.
  intros Hkey. induction ids as [|id ids IH]; intros Hnd; simpl.
  - split; [constructor | intros ch []].
  - apply NoDup_cons in Hnd as [Hid Hnd]. destruct (IH Hnd) as [IH1 IH2].
    destruct (Map_get id m) as [ch|] eqn:E; simpl.
    + split.
      * apply NoDup_cons. split; [|exact IH1].
        rewrite (Hkey _ _ E). intros Hin. apply Hid.
        apply list_elem_of_In in Hin. apply in_map_iff in Hin as (ch' & Hsame & Hin).
        apply IH2 in Hin. rewrite Hsame in Hin. now apply list_elem_of_In.
      * intros ch' [<-|Hin]; [left; symmetry; now apply Hkey | right; now apply IH2].
    + split; [exact IH1 | intros ch' Hin; right; now apply IH2].
Qed.

(** X17: the sections a page note lists are taken from the list of all
    chapters by the section numbers of the page's verses: each section
    once, however many verses of it the page has, none for a verse whose
    section number is not positive, and each listed section is one a verse
    of the page belongs to. *)
Theorem page_chapters_distinct (allChapters : list Chapter.t) (verses : list Verse.t) :
  let chapterMap := foldl (fun m ch => Map_set (Chapter.id ch) ch m) [] allChapters in
  let chapters := page_chapters chapterMap verses in
  NoDup (map Chapter.id chapters)
  /\ forall ch, In ch chapters ->
       In ch allChapters
       /\ 0 < Chapter.id ch
       /\ exists verse, In verse verses /\ Verse.chapter_id verse = Chapter.id ch.
Proof.
  cbn zeta. unfold page_chapters.
  set (m := foldl (fun m ch => Map_set (Chapter.id ch) ch m) [] allChapters).
  set (ids := Set_of (filter (fun id => 0 < id) (map Verse.chapter_id verses))).
  assert (Hkey : forall id ch, Map_get id m = Some ch -> Chapter.id ch = id /\ In ch allChapters).
  { intros id ch H. unfold m in H. rewrite Map_get_chapter_index in H.
    apply last_filter_In in H as [Hin Hid]. split; [now apply Z.eqb_eq | exact Hin]. }
  assert (Hnd : NoDup ids) by (apply Set_fill_NoDup; constructor).
  destruct (omap_ids_NoDup m ids (fun id ch H => proj1 (Hkey id ch H)) Hnd) as [H1 H2].
  split; [exact H1|]. intros ch Hin. pose proof (H2 ch Hin) as Hid.
  apply Set_fill_In in Hid as [[]|Hid].
  apply list_elem_of_In, list_elem_of_filter in Hid as [Hpos Hid].
  apply list_elem_of_In, in_map_iff in Hid as (verse & Hsame & Hverse).
  split; [|split; [exact Hpos | now exists verse]].
  apply list_elem_of_In, list_elem_of_omap in Hin as (id & _ & Hget).
  now apply Hkey in Hget.
Qed.

(** ** The pages a collection touches *)

Lemma foldl_add_verse_pages (verses : list Verse.t) (acc : JsSet * string) :
  (foldl add_verse acc verses).1
  = foldl (fun s p => Set_add p s) acc.1 (omap nonzero_page verses).
Proof.
  revert acc. induction verses as [|v verses IH]; intros [pages body]; [reflexivity|].
  simpl. rewrite IH. unfold nonzero_page. simpl.
  destruct (Verse.page_number v) as [p|]; [|reflexivity].
  destruct (p =? 0); reflexivity.
Qed.

(** X18: the page list in the front matter of a collection is strictly
    ascending, so free of duplicates, and holds exactly the page numbers
    of the emitted verses, but for a missing or zero page number. *)
Theorem collection_pages_sorted_distinct (verses : list Verse.t) :
  let sortedPages := sort_numeric (foldl add_verse ([], "") verses).1 in
  StronglySorted Z.lt sortedPages
  /\ forall p, In p sortedPages
               <-> p <> 0 /\ exists verse, In verse verses
                                           /\ Verse.page_number verse = Some p.
Proof.
  cbn zeta. rewrite foldl_add_verse_pages. split.
  - apply sort_numeric_strict, Set_fill_NoDup. constructor.
  - intros p. rewrite <- list_elem_of_In, sort_numeric_In, list_elem_of_In, Set_fill_In.
    simpl. rewrite <- list_elem_of_In, list_elem_of_omap. unfold nonzero_page. split.
    + intros [[]|(verse & Hin & Hp)]. apply list_elem_of_In in Hin.
      destruct (Verse.page_number verse) as [q|] eqn:E; [|discriminate Hp].
      destruct (q =? 0) eqn:E0; [discriminate Hp|]. inversion Hp; subst q.
      apply Z.eqb_neq in E0. split; [exact E0 | now exists verse].
    + intros [Hne (verse & Hin & Hp)]. right. exists verse.
      split; [now apply list_elem_of_In|]. rewrite Hp.
      apply Z.eqb_neq in Hne. now rewrite Hne.
Qed.

(** ** The body and the pages of any collection *)

Section CollectionBody.

Context {RS : Type}.
Variable remote : Remote RS.
Variable normalizePath : string -> string.
Variable settings : QuranPluginSettings.

Lemma cat_app (a b : list string) : cat (a ++ b) = cat a +:+ cat b.
Proof.
  induction a as [|x a IH]; simpl.
  - reflexivity.
  - rewrite !cat_cons, IH. now rewrite append_assoc.
Qed.

Lemma foldl_add_verse_heading (verses : list Verse.t) (pages : JsSet) (body : string) :
  (foldl add_verse (pages, body) verses).1 = (foldl add_verse (pages, "") verses).1.
Proof. now rewrite !foldl_add_verse_pages. Qed.

Lemma collect_ranges_answered (ranges : list VerseRange)
    (chapter_of : VerseRange -> Chapter.t) (verses_of : VerseRange -> list Verse.t)
    (acc : JsSet * string) (w : World RS) :
  (forall range, In range ranges ->
     forall s, (remote (chapter_request settings range) s).1 = Ok (chapter_of range)
               /\ (remote (verses_request settings range) s).1 = Ok (verses_of range)) ->
  exists built w',
    collect_ranges remote settings ranges acc w = (Ok built, w')
    /\ built.2 = acc.2 +:+ cat (map (fun range => range_output range (chapter_of range)
                                                   (verses_of range)) ranges)
    /\ built.1 = (foldl add_verse (acc.1, "")
                    (concat (map (fun range => range_filter range (verses_of range))
                                 ranges))).1
    /\ fetch_events (w_trace w')
       = rev (concat (map (range_requests settings) ranges)) ++ fetch_events (w_trace w).
Proof.
  revert acc w. induction ranges as [|range rest IH]; intros acc w Hanswer.
  - exists acc, w. split; [reflexivity|]. split; [|split].
    + simpl. unfold cat. simpl. now rewrite append_empty_r.
    + reflexivity.
    + reflexivity.
  - destruct (Hanswer range (or_introl eq_refl) (w_remote w)) as [Hc _].
    destruct (remote (chapter_request settings range) (w_remote w)) as [res1 s1] eqn:E1.
    simpl in Hc. subst res1.
    destruct (Hanswer range (or_introl eq_refl) s1) as [_ Hv].
    destruct (remote (verses_request settings range) s1) as [res2 s2] eqn:E2.
    simpl in Hv. subst res2.
    rewrite (collect_ranges_step remote settings _ _ _ _ _ _ _ _ E1 E2).
    destruct (IH (foldl add_verse (acc.1, acc.2 +:+ range_heading range (chapter_of range))
                    (range_filter range (verses_of range)))
                 (fetched (fetched w (chapter_request settings range) true s1)
                    (verses_request settings range) true s2))
      as (built & w' & Hrun & Hbody & Hpages & Hfetch).
    { intros r Hr. apply Hanswer. now right. }
    exists built, w'. split; [exact Hrun|]. split; [|split].
    + rewrite Hbody, body_after_range. simpl map. rewrite cat_cons.
      now rewrite append_assoc.
    + rewrite Hpages. simpl map. simpl concat. rewrite foldl_app.
      rewrite (foldl_add_verse_heading _ acc.1).
      destruct (foldl add_verse (acc.1, "") (range_filter range (verses_of range)))
        as [pages body] eqn:E.
      simpl. rewrite (foldl_add_verse_heading _ pages body). reflexivity.
    + rewrite Hfetch. simpl. rewrite <- !app_assoc. reflexivity.
Qed.

(** X19: when every request for a range is answered, the body of a
    collection is the outputs of its ranges one after the other, in the
    order of the ranges; the page set is the one of all emitted verses;
    and each range costs its own two requests, also when two ranges name
    the same section. *)
Theorem collect_ranges_concatenates (ranges : list VerseRange)
    (chapter_of : VerseRange -> Chapter.t) (verses_of : VerseRange -> list Verse.t)
    (w : World RS) :
  (forall range, In range ranges ->
     forall s, (remote (chapter_request settings range) s).1 = Ok (chapter_of range)
               /\ (remote (verses_request settings range) s).1 = Ok (verses_of range)) ->
  let emitted := concat (map (fun range => range_filter range (verses_of range)) ranges) in
  exists w',
    collect_ranges remote settings ranges ([], "") w
    = (Ok ((foldl add_verse ([], "") emitted).1,
           cat (map (fun range => range_output range (chapter_of range) (verses_of range))
                    ranges)),
       w')
    /\ fetch_events (w_trace w')
       = rev (concat (map (range_requests settings) ranges)) ++ fetch_events (w_trace w).
Proof.
  intros Hanswer emitted.
  destruct (collect_ranges_answered ranges chapter_of verses_of ([], "") w Hanswer)
    as ([pages body] & w' & Hrun & Hbody & Hpages & Hfetch).
  simpl in Hbody, Hpages. subst pages body. exists w'. split; [|exact Hfetch].
  rewrite Hrun. now rewrite append_empty_l.
Qed.

(** ** Writing the document of a collection *)

Lemma write_collection_no_folder (collectionName : string) (ranges : list VerseRange)
    (built : JsSet * string) (w : World RS) :
  w_vault w !! collection_path normalizePath collectionName = None ->
  w_vault w !! normalizePath "Quran/Collections" = None ->
  normalizePath "Quran/Collections" <> collection_path normalizePath collectionName ->
  write_collection normalizePath collectionName ranges built w
  = (Ok tt,
     mkWorld (w_remote w)
       (written_events normalizePath collectionName (w_today w) ranges built ++ w_trace w)
       (w_chaptersCache w)
       (<[collection_path normalizePath collectionName :=
            File (collection_content collectionName (w_today w) ranges
                    (sort_numeric built.1) built.2)]>
          (<[normalizePath "Quran/Collections" := Folder]> (w_vault w)))
       (w_today w)).
Proof.
  intros Hdoc Hfolder Hne.
  unfold write_collection, bind, current_date, getAbstractFileByPath, createFolder,
    create, vault_put, ui, log.
  simpl. rewrite Hfolder. simpl. rewrite Hfolder. simpl.
  rewrite lookup_insert_ne by exact Hne. rewrite Hdoc. simpl.
  rewrite lookup_insert_eq. reflexivity.
Qed.

(** X20: on a vault that has neither the folder of the collections nor
    the document, [createCollection] creates the folder, then the
    document, and opens it; it looks the folder up before it creates it,
    and looks the document up only after it has created it. *)
Theorem createCollection_creates_folder (collectionName : string)
    (ranges : list VerseRange) (w wl : World RS) (built : JsSet * string) :
  collectionName <> "" -> ranges <> [] ->
  collect_ranges remote settings ranges ([], "") (creating w) = (Ok built, wl) ->
  let path := collection_path normalizePath collectionName in
  let folderPath := normalizePath "Quran/Collections" in
  let content := collection_content collectionName (w_today w) ranges
                   (sort_numeric built.1) built.2 in
  w_vault w !! path = None ->
  w_vault w !! folderPath = None ->
  folderPath <> path ->
  let run := createCollection remote normalizePath settings collectionName ranges w in
  run.1 = Ok tt
  /\ w_vault run.2 = <[path := File content]> (<[folderPath := Folder]> (w_vault w))
  /\ head (w_trace run.2) = Some (EvUi (FileOpened path))
  /\ vault_ops (w_trace run.2)
     = [OpExists path true; OpCreate path content; OpCreateFolder folderPath;
        OpExists folderPath false] ++ vault_ops (w_trace w).
Proof.
  intros Hname Hranges Hloop path folderPath content Hdoc Hfolder Hne run.
  subst run path folderPath content.
  assert (Hgo : String.eqb collectionName "" || (length ranges =? 0)%nat = false).
  { apply orb_false_iff. split.
    - now apply String.eqb_neq.
    - destruct ranges; [contradiction | reflexivity]. }
  pose proof (collect_ranges_today _ _ _ _ _ _ _ Hloop) as Htoday.
  destruct (collect_ranges_effects _ _ _ _ _ _ _ Hloop) as (Hvault & new & Htrace & Hnew & _).
  simpl in Hvault, Htoday.
  assert (Hrun : createCollection remote normalizePath settings collectionName ranges w
                 = (Ok tt,
                    mkWorld (w_remote wl)
                      (written_events normalizePath collectionName (w_today w) ranges built
                       ++ w_trace wl)
                      (w_chaptersCache wl)
                      (<[collection_path normalizePath collectionName :=
                           File (collection_content collectionName (w_today w) ranges
                                   (sort_numeric built.1) built.2)]>
                         (<[normalizePath "Quran/Collections" := Folder]> (w_vault w)))
                      (w_today w))).
  { unfold createCollection. rewrite Hgo.
    unfold bind at 1. unfold ui at 1, log at 1. fold (creating w).
    unfold try_catch, collection_steps, bind. rewrite Hloop.
    rewrite write_collection_no_folder by (rewrite ?Hvault; assumption).
    now rewrite Hvault, Htoday. }
  rewrite Hrun. cbn [fst snd w_vault w_trace]. rewrite Htrace.
  split; [reflexivity|]. split; [reflexivity|]. split; [reflexivity|].
  unfold written_events, creating. cbn [w_trace].
  rewrite !vault_ops_app, (vault_ops_fetches new Hnew). reflexivity.
Qed.

(** X21: [createCollection] never throws, whatever the remote service and
    the vault do; and with an empty name or without a range it shows one
    notice and does nothing else: no request, no vault operation. *)
Theorem createCollection_never_throws (collectionName : string)
    (ranges : list VerseRange) (w : World RS) :
  (createCollection remote normalizePath settings collectionName ranges w).1 = Ok tt
  /\ (collectionName = "" \/ ranges = [] ->
      createCollection remote normalizePath settings collectionName ranges w
      = (Ok tt, refused w)).
Proof.
  unfold createCollection. split.
  - destruct (String.eqb collectionName "" || (length ranges =? 0)%nat); [reflexivity|].
    unfold bind at 1. unfold ui at 1, log at 1. unfold try_catch.
    destruct (collection_steps remote normalizePath settings collectionName ranges _)
      as [[[]|e] w1]; reflexivity.
  - intros [-> | ->]; [reflexivity|]. simpl. rewrite orb_true_r. reflexivity.
Qed.

End CollectionBody.

(** ** The document of a collection *)

(** Brings a concatenation of strings to its right-nested form. *)
Ltac string_nf :=
  repeat first
    [ progress unfold cat, unlines
    | progress cbn [String.concat map]
    | rewrite append_assoc
    | rewrite append_empty_l
    | rewrite append_empty_r ].

(** The item block of a verse, piece by piece. *)
Lemma verse_block_text (verse : Verse.t) :
  verse_block verse
  = cat ["### "; Verse.verse_key verse; nl; nl;
         "> "; default "" (Verse.text_uthmani verse); nl; nl;
         match Verse.translations verse with
         | Some (t :: _) => cat [Translation.text t; nl; nl]
         | _ => ""
         end;
         "---"; nl; nl].
Proof.
  unfold verse_block, translation_text.
  destruct (Verse.translations verse) as [[|t ts]|];
    rewrite ?stripHtml_returns_input; string_nf; reflexivity.
Qed.

(** The document of a collection, piece by piece, around its body. *)
Lemma collection_content_text (collectionName today : string) (ranges : list VerseRange)
    (sortedPages : list Z) (body : string) :
  collection_content collectionName today ranges sortedPages body
  = cat ["---"; nl;
         "type: collection"; nl;
         "name: "; dquote; collectionName; dquote; nl;
         "created: "; today; nl;
         "ranges: "; json_ranges ranges; nl;
         "pages: ["; join ", " (map String_of_number sortedPages); "]"; nl;
         "status: "; dquote; "not_started"; dquote; nl;
         "tags: [quran, collection, custom]"; nl;
         "---"; nl;
         nl;
         "# "; collectionName; nl;
         nl;
         body;
         nl;
         "## Progress"; nl;
         nl;
         "- [ ] Started"; nl;
         "- [ ] Completed"; nl;
         "- [ ] Memorized"; nl;
         nl;
         "## Notes"; nl;
         nl].
Proof.
  unfold collection_content.
  generalize (json_ranges ranges) (join ", " (map String_of_number sortedPages)).
  intros rangesText pagesText. string_nf. reflexivity.
Qed.

(** What the two ranges of section 18 select. *)
Lemma range_filter_kahf_first (allVerses : list Verse.t) :
  range_filter kahf_first allVerses
  = filter (fun v => 1 <= Verse.verse_number v <= 10) allVerses.
Proof.
  unfold range_filter. apply list_filter_iff. intros v. simpl.
  rewrite Z.leb_le. tauto.
Qed.

Lemma range_filter_kahf_second (allVerses : list Verse.t) :
  range_filter kahf_second allVerses
  = filter (fun v => 5 <= Verse.verse_number v <= 15) allVerses.
Proof.
  unfold range_filter. apply list_filter_iff. intros v. simpl.
  rewrite Z.leb_le. tauto.
Qed.

Lemma verse_blocks_text (verses : list Verse.t) :
  verse_blocks verses
  = cat (map (fun verse =>
                cat ["### "; Verse.verse_key verse; nl; nl;
                     "> "; default "" (Verse.text_uthmani verse); nl; nl;
                     match Verse.translations verse with
                     | Some (t :: _) => cat [Translation.text t; nl; nl]
                     | _ => ""
                     end;
                     "---"; nl; nl])
              verses).
Proof.
  unfold verse_blocks. f_equal. apply map_ext. intros verse. apply verse_block_text.
Qed.

(** A string that occurs in two pieces of a text occurs twice in the
    text. *)
Lemma cat_twice (pre mid post : list string) (x a1 b1 a2 b2 : string) :
  exists a b c,
    cat (pre ++ (a1 +:+ x +:+ b1) :: mid ++ (a2 +:+ x +:+ b2) :: post)
    = a +:+ x +:+ b +:+ x +:+ c.
Proof.
  exists (cat pre +:+ a1), (b1 +:+ cat mid +:+ a2), (b2 +:+ cat post).
  rewrite cat_app, cat_cons, cat_app, cat_cons.
  repeat rewrite append_assoc. reflexivity.
Qed.

Lemma cat_twice_at (pieces : list string) (i j : nat) (x a1 b1 a2 b2 : string) :
  (i < j)%nat ->
  pieces !! i = Some (a1 +:+ x +:+ b1) ->
  pieces !! j = Some (a2 +:+ x +:+ b2) ->
  exists a b c, cat pieces = a +:+ x +:+ b +:+ x +:+ c.
Proof.
  intros Hij Hi Hj.
  pose proof (take_drop_middle _ _ _ Hi) as E1.
  assert (Hj' : drop (S i) pieces !! (j - S i)%nat = Some (a2 +:+ x +:+ b2)).
  { rewrite lookup_drop. replace (S i + (j - S i))%nat with j by lia. exact Hj. }
  pose proof (take_drop_middle _ _ _ Hj') as E2.
  rewrite <- E1, <- E2. apply cat_twice.
Qed.

Lemma cat_map_split {A : Type} (f : A -> string) (l : list A) (x : A) :
  x ∈ l -> exists a b, cat (map f l) = a +:+ f x +:+ b.
Proof.
  intros Hin. apply list_elem_of_split in Hin as (l1 & l2 & ->).
  exists (cat (map f l1)), (cat (map f l2)).
  now rewrite map_app, cat_app, map_cons, cat_cons.
Qed.

Section Documents.

Context {RS : Type}.
Variable remote : Remote RS.
Variable normalizePath : string -> string.
Variable settings : QuranPluginSettings.

(** Once the loop over the ranges is through, the document is written at
    the path of the collection, whether the folder of the collections is
    there or has to be created. *)
Lemma createCollection_document (collectionName : string) (ranges : list VerseRange)
    (w wl : World RS) (built : JsSet * string) :
  collectionName <> "" -> ranges <> [] ->
  collect_ranges remote settings ranges ([], "") (creating w) = (Ok built, wl) ->
  w_vault w !! collection_path normalizePath collectionName = None ->
  normalizePath "Quran/Collections" <> collection_path normalizePath collectionName ->
  w_vault (createCollection remote normalizePath settings collectionName ranges w).2
  !! collection_path normalizePath collectionName
  = Some (File (collection_content collectionName (w_today w) ranges
                  (sort_numeric built.1) built.2)).
Proof.
  intros Hname Hranges Hloop Hdoc Hne.
  destruct (w_vault w !! normalizePath "Quran/Collections") as [folder|] eqn:Hfolder.
  - rewrite (createCollection_writes remote normalizePath settings _ _ _ _ _
               Hname Hranges Hloop Hdoc (ltac:(rewrite Hfolder; eauto))).
    apply lookup_insert_eq.
  - assert (Hgo : String.eqb collectionName "" || (length ranges =? 0)%nat = false).
    { apply orb_false_iff. split.
      - now apply String.eqb_neq.
      - destruct ranges; [contradiction | reflexivity]. }
    pose proof (collect_ranges_today _ _ _ _ _ _ _ Hloop) as Htoday.
    destruct (collect_ranges_effects _ _ _ _ _ _ _ Hloop) as (Hvault & _).
    simpl in Hvault, Htoday.
    unfold createCollection. rewrite Hgo.
    unfold bind at 1. unfold ui at 1, log at 1. fold (creating w).
    unfold try_catch, collection_steps, bind. rewrite Hloop.
    rewrite write_collection_no_folder by (rewrite ?Hvault; assumption).
    cbn [snd w_vault]. rewrite Htoday. apply lookup_insert_eq.
Qed.

(** C8 (amended): for the range of section 2 from item 255 to item 255,
    when the verse list fetched for section 2 holds exactly one verse with
    position 255, the document written for the collection is the front
    matter, the title, the sub-heading of the range, exactly one item
    block and the progress list; the block is keyed with the [verse_key]
    the fetched record carries, whatever it is. *)
Theorem collection_ayatul_kursi_one_block
    (w : World RS) (chapter : Chapter.t) (allVerses : list Verse.t)
    (verse : Verse.t) (s1 s2 : RS) (collectionName : string) :
  remote (chapter_request settings ayatul_kursi) (w_remote w) = (Ok chapter, s1) ->
  remote (verses_request settings ayatul_kursi) s1 = (Ok allVerses, s2) ->
  filter (fun v => Verse.verse_number v = 255) allVerses = [verse] ->
  collectionName <> "" ->
  w_vault w !! collection_path normalizePath collectionName = None ->
  normalizePath "Quran/Collections" <> collection_path normalizePath collectionName ->
  let block :=
    cat ["### "; Verse.verse_key verse; nl; nl;
         "> "; default "" (Verse.text_uthmani verse); nl; nl;
         match Verse.translations verse with
         | Some (t :: _) => cat [Translation.text t; nl; nl]
         | _ => ""
         end;
         "---"; nl; nl] in
  let pages :=
    match Verse.page_number verse with
    | Some p => if p =? 0 then "" else String_of_number p
    | None => ""
    end in
  let document :=
    cat ["---"; nl;
         "type: collection"; nl;
         "name: "; dquote; collectionName; dquote; nl;
         "created: "; w_today w; nl;
         "ranges: [{"; dquote; "surah"; dquote; ":2,"; dquote; "startVerse"; dquote;
         ":255,"; dquote; "endVerse"; dquote; ":255}]"; nl;
         "pages: ["; pages; "]"; nl;
         "status: "; dquote; "not_started"; dquote; nl;
         "tags: [quran, collection, custom]"; nl;
         "---"; nl;
         nl;
         "# "; collectionName; nl;
         nl;
         nl;
         "## "; Chapter.name_simple chapter; " (2:255-255)"; nl;
         "**Link:** [[002 - "; Chapter.name_simple chapter; "]]"; nl;
         nl;
         block;
         nl;
         "## Progress"; nl;
         nl;
         "- [ ] Started"; nl;
         "- [ ] Completed"; nl;
         "- [ ] Memorized"; nl;
         nl;
         "## Notes"; nl;
         nl] in
  w_vault (createCollection remote normalizePath settings collectionName
             [ayatul_kursi] w).2
  !! collection_path normalizePath collectionName
  = Some (File document).
Proof.
  intros Hc Hv Hone Hname Hdoc Hne block pages document.
  assert (Hloop : exists wl,
            collect_ranges remote settings [ayatul_kursi] ([], "") (creating w)
            = (Ok (foldl add_verse ([], "" +:+ range_heading ayatul_kursi chapter) [verse]),
               wl)).
  { change (w_remote w) with (w_remote (creating w)) in Hc.
    rewrite (collect_ranges_step remote settings _ _ _ _ _ _ _ _ Hc Hv).
    rewrite range_filter_ayatul_kursi, Hone. eexists. reflexivity. }
  destruct Hloop as [wl Hloop].
  assert (Hranges : [ayatul_kursi] <> []) by discriminate.
  rewrite (createCollection_document _ _ _ _ _ Hname Hranges Hloop Hdoc Hne).
  do 2 f_equal. rewrite collection_content_text. subst document.
  assert (Hpages : join ", " (map String_of_number
                     (sort_numeric (foldl add_verse
                        ([], "" +:+ range_heading ayatul_kursi chapter) [verse]).1))
                   = pages).
  { subst pages. rewrite foldl_add_verse_pages. simpl. unfold nonzero_page.
    destruct (Verse.page_number verse) as [p|]; [|reflexivity].
    destruct (p =? 0); reflexivity. }
  rewrite Hpages.
  assert (Hbody : (foldl add_verse ([], "" +:+ range_heading ayatul_kursi chapter)
                     [verse]).2
                  = cat [nl; "## "; Chapter.name_simple chapter; " (2:255-255)"; nl;
                         "**Link:** [[002 - "; Chapter.name_simple chapter; "]]"; nl;
                         nl; block]).
  { rewrite foldl_add_verse_body. unfold verse_blocks. simpl map.
    rewrite verse_block_text. fold block. unfold range_heading. simpl.
    string_nf. reflexivity. }
  rewrite Hbody. string_nf. reflexivity.
Qed.

(** C9: for the ranges 18:1-10 and 18:5-15, in that order, the document
    written for the collection holds, after the front matter and the
    title, the sub-heading of the first range with the item blocks of all
    fetched verses of positions 1..10, then the sub-heading of the second
    range with the item blocks of all fetched verses of positions 5..15,
    each in fetched order, then the progress list; so the item block of
    every fetched verse of positions 5..10 stands in the document twice,
    once in the output of each range: nothing is merged or left out. *)
Theorem collection_overlapping_ranges_repeat
    (w : World RS) (ch1 ch2 : Chapter.t) (vs1 vs2 : list Verse.t) (s1 s2 s3 s4 : RS)
    (collectionName : string) :
  remote (chapter_request settings kahf_first) (w_remote w) = (Ok ch1, s1) ->
  remote (verses_request settings kahf_first) s1 = (Ok vs1, s2) ->
  remote (chapter_request settings kahf_second) s2 = (Ok ch2, s3) ->
  remote (verses_request settings kahf_second) s3 = (Ok vs2, s4) ->
  collectionName <> "" ->
  w_vault w !! collection_path normalizePath collectionName = None ->
  normalizePath "Quran/Collections" <> collection_path normalizePath collectionName ->
  let block := fun verse : Verse.t =>
    cat ["### "; Verse.verse_key verse; nl; nl;
         "> "; default "" (Verse.text_uthmani verse); nl; nl;
         match Verse.translations verse with
         | Some (t :: _) => cat [Translation.text t; nl; nl]
         | _ => ""
         end;
         "---"; nl; nl] in
  let first := filter (fun v => 1 <= Verse.verse_number v <= 10) vs1 in
  let second := filter (fun v => 5 <= Verse.verse_number v <= 15) vs2 in
  exists (sortedPages : list Z) (document : string),
    w_vault (createCollection remote normalizePath settings collectionName
               [kahf_first; kahf_second] w).2
    !! collection_path normalizePath collectionName
    = Some (File document)
    /\ document
       = cat ["---"; nl;
              "type: collection"; nl;
              "name: "; dquote; collectionName; dquote; nl;
              "created: "; w_today w; nl;
              "ranges: [{"; dquote; "surah"; dquote; ":18,"; dquote; "startVerse"; dquote;
              ":1,"; dquote; "endVerse"; dquote; ":10},{"; dquote; "surah"; dquote;
              ":18,"; dquote; "startVerse"; dquote; ":5,"; dquote; "endVerse"; dquote;
              ":15}]"; nl;
              "pages: ["; join ", " (map String_of_number sortedPages); "]"; nl;
              "status: "; dquote; "not_started"; dquote; nl;
              "tags: [quran, collection, custom]"; nl;
              "---"; nl;
              nl;
              "# "; collectionName; nl;
              nl;
              nl;
              "## "; Chapter.name_simple ch1; " (18:1-10)"; nl;
              "**Link:** [[018 - "; Chapter.name_simple ch1; "]]"; nl;
              nl;
              cat (map block first);
              nl;
              "## "; Chapter.name_simple ch2; " (18:5-15)"; nl;
              "**Link:** [[018 - "; Chapter.name_simple ch2; "]]"; nl;
              nl;
              cat (map block second);
              nl;
              "## Progress"; nl;
              nl;
              "- [ ] Started"; nl;
              "- [ ] Completed"; nl;
              "- [ ] Memorized"; nl;
              nl;
              "## Notes"; nl;
              nl]
    /\ forall verse,
         verse ∈ vs1 -> verse ∈ vs2 -> 5 <= Verse.verse_number verse <= 10 ->
         verse ∈ first /\ verse ∈ second
         /\ exists a b c, document = a +:+ block verse +:+ b +:+ block verse +:+ c.
Proof.
  intros H1 H2 H3 H4 Hname Hdoc Hne block first second.
  assert (Hloop : exists built wl,
            collect_ranges remote settings [kahf_first; kahf_second] ([], "") (creating w)
            = (Ok built, wl)
            /\ built.2 = range_output kahf_first ch1 vs1
                         +:+ range_output kahf_second ch2 vs2).
  { change (w_remote w) with (w_remote (creating w)) in H1.
    rewrite (collect_ranges_step remote settings _ _ _ _ _ _ _ _ H1 H2).
    rewrite (collect_ranges_step remote settings kahf_second [] _
               (fetched (fetched (creating w) _ true s1) _ true s2) ch2 vs2 s3 s4 H3 H4).
    cbn [collect_ranges]. unfold ret. eexists _, _. split; [reflexivity|].
    rewrite body_after_range. f_equal.
    rewrite (body_after_range kahf_first ch1 vs1 ([], "")). reflexivity. }
  destruct Hloop as (built & wl & Hloop & Hbody).
  assert (Hranges : [kahf_first; kahf_second] <> []) by discriminate.
  exists (sort_numeric built.1). eexists. split; [|split; [reflexivity|]].
  - rewrite (createCollection_document _ _ _ _ _ Hname Hranges Hloop Hdoc Hne).
    do 2 f_equal. rewrite collection_content_text, Hbody.
    unfold range_output. rewrite !verse_blocks_text.
    rewrite range_filter_kahf_first, range_filter_kahf_second.
    fold block. fold first. fold second.
    unfold range_heading. simpl.
    generalize (cat (map block first)) (cat (map block second)).
    intros blocks1 blocks2. string_nf. reflexivity.
  - intros verse Hin1 Hin2 Hover.
    assert (Hfirst : verse ∈ first).
    { apply list_elem_of_filter. split; [lia | exact Hin1]. }
    assert (Hsecond : verse ∈ second).
    { apply list_elem_of_filter. split; [lia | exact Hin2]. }
    split; [exact Hfirst|]. split; [exact Hsecond|].
    destruct (cat_map_split block first verse Hfirst) as (a1 & b1 & E1).
    destruct (cat_map_split block second verse Hsecond) as (a2 & b2 & E2).
    rewrite E1, E2.
    apply (cat_twice_at _ 66 77 (block verse) a1 b1 a2 b2); [lia | reflexivity | reflexivity].
Qed.

End Documents.

(** The collection of the single verse 2:255, as the sample service
    answers it. *)
Lemma collection_ayatul_kursi_sample :
  w_vault (createCollection sample_remote same_path DEFAULT_SETTINGS "Ayatul Kursi"
             [ayatul_kursi] sample_world).2
  !! "Quran/Collections/Ayatul Kursi.md"
  = Some (File (cat ["---"; nl;
                   "type: collection"; nl;
                   "name: "; dquote; "Ayatul Kursi"; dquote; nl;
                   "created: 2026-01-01"; nl;
                   "ranges: [{"; dquote; "surah"; dquote; ":2,"; dquote; "startVerse"; dquote;
                   ":255,"; dquote; "endVerse"; dquote; ":255}]"; nl;
                   "pages: [42]"; nl;
                   "status: "; dquote; "not_started"; dquote; nl;
                   "tags: [quran, collection, custom]"; nl;
                   "---"; nl;
                   nl;
                   "# Ayatul Kursi"; nl;
                   nl;
                   nl;
                   "## Al-Baqarah (2:255-255)"; nl;
                   "**Link:** [[002 - Al-Baqarah]]"; nl;
                   nl;
                   "### 2:255"; nl;
                   nl;
                   "> ..."; nl;
                   nl;
                   "<p>meaning</p>"; nl;
                   nl;
                   "---"; nl;
                   nl;
                   nl;
                   "## Progress"; nl;
                   nl;
                   "- [ ] Started"; nl;
                   "- [ ] Completed"; nl;
                   "- [ ] Memorized"; nl;
                   nl;
                   "## Notes"; nl;
                   nl])).
Proof.
  apply (collection_ayatul_kursi_one_block sample_remote same_path DEFAULT_SETTINGS
           sample_world al_baqarah (sample_verses 2) (sample_verse 2 255 42) tt tt
           "Ayatul Kursi");
    [reflexivity | reflexivity | reflexivity | discriminate | reflexivity | discriminate].
Defined.

(** C8 as stated fails when the record at position 255 of section 2
    carries another key: the list fetched for section 2 holds exactly one
    verse of position 255, the document holds exactly one item block, and
    the block is keyed 9:9, the key field of the record, not 2:255. *)
Lemma collection_block_keyed_by_record :
  let document :=
    cat ["---"; nl;
         "type: collection"; nl;
         "name: "; dquote; "Ayatul Kursi"; dquote; nl;
         "created: 2026-01-01"; nl;
         "ranges: [{"; dquote; "surah"; dquote; ":2,"; dquote; "startVerse"; dquote;
         ":255,"; dquote; "endVerse"; dquote; ":255}]"; nl;
         "pages: [42]"; nl;
         "status: "; dquote; "not_started"; dquote; nl;
         "tags: [quran, collection, custom]"; nl;
         "---"; nl;
         nl;
         "# Ayatul Kursi"; nl;
         nl;
         nl;
         "## Al-Baqarah (2:255-255)"; nl;
         "**Link:** [[002 - Al-Baqarah]]"; nl;
         nl;
         "### 9:9"; nl;
         nl;
         "> ..."; nl;
         nl;
         "<p>meaning</p>"; nl;
         nl;
         "---"; nl;
         nl;
         nl;
         "## Progress"; nl;
         nl;
         "- [ ] Started"; nl;
         "- [ ] Completed"; nl;
         "- [ ] Memorized"; nl;
         nl;
         "## Notes"; nl;
         nl] in
  odd_remote (verses_request DEFAULT_SETTINGS ayatul_kursi) tt = (Ok [odd_verse], tt)
  /\ filter (fun v => Verse.verse_number v = 255) [odd_verse] = [odd_verse]
  /\ w_vault (createCollection odd_remote same_path DEFAULT_SETTINGS "Ayatul Kursi"
                [ayatul_kursi] folder_world).2
     !! "Quran/Collections/Ayatul Kursi.md"
     = Some (File document)
  /\ count_occurrences "### " document = 1%nat
  /\ occurs "### 9:9" document = true
  /\ occurs "### 2:255" document = false.
Proof. cbn zeta. repeat split; vm_compute; reflexivity. Qed.

(** The two overlapping ranges of section 18, as the sample service
    answers them: the block of item 18:7 stands twice in the document. *)
Lemma collection_overlapping_ranges_sample :
  let block := cat ["### 18:7"; nl; nl; "> ..."; nl; nl; "<p>meaning</p>"; nl; nl;
                    "---"; nl; nl] in
  exists a b c,
    w_vault (createCollection sample_remote same_path DEFAULT_SETTINGS "Kahf"
               [kahf_first; kahf_second] folder_world).2
    !! "Quran/Collections/Kahf.md"
    = Some (File (a +:+ block +:+ b +:+ block +:+ c)).
Proof.
  cbn zeta.
  destruct (collection_overlapping_ranges_repeat sample_remote same_path DEFAULT_SETTINGS
              folder_world al_kahf al_kahf (sample_verses 18) (sample_verses 18)
              tt tt tt tt "Kahf")
    as (pages & document & Hvault & _ & Htwice);
    [reflexivity | reflexivity | reflexivity | reflexivity | discriminate | reflexivity
    | discriminate |].
  destruct (Htwice (sample_verse 18 7 293)) as (_ & _ & a & b & c & E).
  - apply (list_elem_of_lookup_2 _ 6%nat). reflexivity.
  - apply (list_elem_of_lookup_2 _ 6%nat). reflexivity.
  - simpl. lia.
  - exists a, b, c. rewrite E in Hvault. exact Hvault.
Defined.

(** How often the heading of each item 18:1 .. 18:15 stands in that
    document. *)
Example overlap_blocks_counted :
  let document :=
    match w_vault (createCollection sample_remote same_path DEFAULT_SETTINGS "Kahf"
                     [kahf_first; kahf_second] folder_world).2
          !! "Quran/Collections/Kahf.md" with
    | Some (File text) => text
    | _ => ""
    end in
  map (fun n => count_occurrences (cat ["### 18:"; String_of_number n; nl]) document)
      (seqZ 1 15)
  = [1; 1; 1; 1; 2; 2; 2; 2; 2; 2; 1; 1; 1; 1; 1]%nat.
Proof. vm_compute. reflexivity. Qed.

(** ** The views *)

Section ViewProperties.

Context {RS : Type}.
Variable remote : Remote RS.
Variable settings : QuranPluginSettings.

(** X22: opening the surah list never throws and makes one request; the
    container ends up with the heading and a list of one item per chapter,
    in the order the remote service sent them, or, when the request is
    rejected, with the error block alone and the chapters of the view as
    they were; the loading line is gone either way. *)
Theorem SurahListView_onOpen_outcome (chapters : list Chapter.t)
    (tag cls : string) (stale : list Node) (w : World RS) :
  exists now children w',
    SurahListView_onOpen remote settings chapters (Element tag cls stale) w
    = (Ok (now, Element tag (join " " (add_token (class_tokens cls) "quran-surah-list"))
                  children), w')
    /\ w_vault w' = w_vault w
    /\ match (remote (ReqChapters (language settings)) (w_remote w)).1 with
       | Ok fetched =>
           now = fetched
           /\ children = [createEl "h2" (Some "Surahs of the Quran") "surah-list-header";
                          Element "div" "surah-list" (map surah_item fetched)]
           /\ w_trace w' = EvFetch (ReqChapters (language settings)) true :: w_trace w
       | Throw e =>
           now = chapters
           /\ children = [surah_list_error e]
           /\ w_trace w' = EvFetch (ReqChapters (language settings)) false :: w_trace w
       end.
Proof.
  unfold SurahListView_onOpen, try_catch, bind, getChapters, fetchJson, ret.
  destruct (remote (ReqChapters (language settings)) (w_remote w)) as [[fetched|e] s'];
    simpl; eexists _, _, _; (split; [reflexivity|]); split; try reflexivity;
    split; try reflexivity; split; reflexivity.
Qed.

Lemma fetchAndRenderPage_returns (container : Node) (page : Z) (language : string)
    (w : World RS) :
  exists rendered w',
    fetchAndRenderPage remote container page language w = (Ok rendered, w').
Proof.
  unfold fetchAndRenderPage, try_catch, bind, ui, log, ret. simpl.
  match goal with
  | |- context [match ?m with pair _ _ => _ end] => destruct m as [[a|e] w1]
  end; eexists _, _; reflexivity.
Qed.

(** X23: [navigatePage] keeps the view inside the book and never throws:
    from a page of 1..604, a step that would leave 1..604 changes nothing
    and asks nothing; any other step, on an open view, moves the view and
    its page input to the new page, whatever the remote service answers,
    so also when the page could not be fetched and the wrapper shows the
    error. *)
Theorem navigatePage_stays_in_book (view : MushafView) (delta : Z) (w : World RS) :
  1 <= currentPage view <= 604 ->
  let next := currentPage view + delta in
  exists view' w',
    navigatePage remote settings view delta w = (Ok view', w')
    /\ 1 <= currentPage view' <= 604
    /\ (~ 1 <= next <= 604 -> view' = view /\ w' = w)
    /\ (1 <= next <= 604 -> wrapper view = None -> view' = view /\ w' = w)
    /\ (1 <= next <= 604 -> is_Some (wrapper view) ->
        currentPage view' = next
        /\ pageInput view' = (fun _ => String_of_number next) <$> pageInput view
        /\ is_Some (wrapper view')).
Proof.
  intros Hpage next. unfold navigatePage. fold next.
  destruct ((1 <=? next) && (next <=? 604)) eqn:E.
  - apply andb_true_iff in E as [E1 E2]. apply Z.leb_le in E1, E2.
    unfold loadPage. destruct (wrapper view) as [wrapperEl|] eqn:Ew.
    + destruct (fetchAndRenderPage_returns wrapperEl next (language settings) w)
        as (rendered & w' & Hrun).
      unfold bind. rewrite Hrun. eexists _, _. split; [reflexivity|].
      split; [simpl; lia|]. split; [intros H; lia|].
      split; [intros _ H; discriminate H|]. intros _ _. simpl. eauto.
    + exists view, w. split; [reflexivity|]. split; [exact Hpage|].
      split; [auto|]. split; [auto|]. intros _ [x Hx]. discriminate Hx.
  - exists view, w. split; [reflexivity|]. split; [exact Hpage|].
    split; [auto|]. apply andb_false_iff in E.
    split; intros H; exfalso; destruct E as [E|E]; apply Z.leb_gt in E; lia.
Qed.

End ViewProperties.

(** ** The page of a code block *)

Example parsePage_examples :
  parsePage "page: 3" = Some (number_of_Z 3)
  /\ parsePage ("  PaGe :  042  " +:+ nl +:+ "page: 7") = Some (number_of_Z 42)
  /\ parsePage ("pages: 3" +:+ nl +:+ "page: 3a" +:+ nl +:+ "page:") = None
  /\ parsePage "" = None.
Proof. repeat split; reflexivity. Qed.

Lemma pretty_N_char_digit (k : N) :
  (k < 10)%N ->
  is_digit (pretty_N_char k) = true
  /\ Z.of_nat (Ascii.nat_of_ascii (pretty_N_char k) - 48) = Z.of_N k.
Proof.
  intros Hk.
  assert (k = 0 \/ k = 1 \/ k = 2 \/ k = 3 \/ k = 4 \/ k = 5 \/ k = 6 \/ k = 7
          \/ k = 8 \/ k = 9)%N as Hcases by lia.
  repeat (destruct Hcases as [->|Hcases]; [split; reflexivity|]).
  subst. split; reflexivity.
Qed.

Lemma pretty_N_go_digits (x : N) (s : string) :
  all_chars is_digit (pretty_N_go x s) = all_chars is_digit s.
Proof.
  revert s. induction (N.lt_wf_0 x) as [x _ IH]; intros s.
  destruct (N.eq_dec x 0%N) as [->|Hx]; [now rewrite pretty_N_go_0|].
  rewrite pretty_N_go_step by lia. rewrite IH by (apply N.div_lt; lia).
  simpl. destruct (pretty_N_char_digit (x mod 10)) as [-> _]; [|reflexivity].
  apply N.mod_lt. lia.
Qed.

Lemma pretty_N_go_value (x : N) (s : string) :
  decimal_value (pretty_N_go x s) 0 = decimal_value s (Z.of_N x).
Proof.
  revert s. induction (N.lt_wf_0 x) as [x _ IH]; intros s.
  destruct (N.eq_dec x 0%N) as [->|Hx]; [now rewrite pretty_N_go_0|].
  rewrite pretty_N_go_step by lia. rewrite IH by (apply N.div_lt; lia).
  simpl. destruct (pretty_N_char_digit (x mod 10)) as [_ ->]; [apply N.mod_lt; lia|].
  f_equal. rewrite (N.div_mod x 10) at 3 by lia. lia.
Qed.

(** The decimal form of a number that is not negative: digits only, at
    least one, and they stand for the number. *)
Lemma String_of_number_digits (n : Z) :
  0 <= n ->
  all_chars is_digit (String_of_number n) = true
  /\ String_of_number n <> ""
  /\ decimal_value (String_of_number n) 0 = n.
Proof.
  intros Hn. unfold String_of_number, pretty, pretty_Z. destruct n as [|p|p]; [| |lia].
  - repeat split. discriminate.
  - unfold pretty, pretty_positive, pretty, pretty_N.
    destruct (decide (N.pos p = 0%N)) as [H|_]; [discriminate H|].
    split; [now rewrite pretty_N_go_digits|]. split.
    + destruct (pretty_N_go_leading (N.pos p) "") as (c & rest & -> & _); [lia | discriminate].
    + rewrite pretty_N_go_value. reflexivity.
Qed.

Lemma String_of_number_negative (n : Z) :
  n < 0 ->
  exists rest,
    String_of_number n = String (Ascii.ascii_of_nat 45) rest
    /\ all_chars is_digit rest = true.
Proof.
  intros Hn. unfold String_of_number, pretty, pretty_Z. destruct n as [|p|p]; [lia | lia |].
  exists (pretty_N_go (N.pos p) ""). split; [reflexivity|].
  now rewrite pretty_N_go_digits.
Qed.

Lemma take_digits_none (c : Ascii.ascii) (rest : string) :
  is_digit c = false -> take_digits (String c rest) = ("", String c rest).
Proof. intros H. cbn [take_digits]. now rewrite H. Qed.

Lemma take_digits_all (digits : string) :
  all_chars is_digit digits = true -> take_digits digits = (digits, "").
Proof.
  induction digits as [|c digits IH]; [reflexivity|].
  simpl. intros H. apply andb_true_iff in H as [Hc Hrest].
  now rewrite Hc, IH.
Qed.

Lemma skip_space_ascii (c : Ascii.ascii) (rest : string) :
  (Ascii.nat_of_ascii c <? 128)%nat = true ->
  is_space1 (Ascii.nat_of_ascii c) = false ->
  skip_space (String c rest) = String c rest.
Proof.
  intros H E1. apply Nat.ltb_lt in H. cbn [skip_space]. rewrite E1.
  destruct rest as [|c2 rest2]; [reflexivity|].
  assert (E2 : (Ascii.nat_of_ascii c =? 194)%nat = false) by (apply Nat.eqb_neq; lia).
  rewrite E2. cbn [andb]. destruct rest2 as [|c3 rest3]; [reflexivity|].
  unfold is_space3.
  assert (E225 : (Ascii.nat_of_ascii c =? 225)%nat = false) by (apply Nat.eqb_neq; lia).
  assert (E226 : (Ascii.nat_of_ascii c =? 226)%nat = false) by (apply Nat.eqb_neq; lia).
  assert (E227 : (Ascii.nat_of_ascii c =? 227)%nat = false) by (apply Nat.eqb_neq; lia).
  assert (E239 : (Ascii.nat_of_ascii c =? 239)%nat = false) by (apply Nat.eqb_neq; lia).
  rewrite E225, E226, E227, E239. reflexivity.
Qed.

Lemma skip_space_digit (c : Ascii.ascii) (rest : string) :
  is_digit c = true -> skip_space (String c rest) = String c rest.
Proof.
  unfold is_digit. intros H. apply andb_true_iff in H as [H1 H2].
  apply Nat.leb_le in H1, H2. apply skip_space_ascii.
  - apply Nat.ltb_lt. lia.
  - unfold is_space1. apply orb_false_iff. split.
    + apply andb_false_iff. right. apply Nat.leb_gt. lia.
    + apply Nat.eqb_neq. lia.
Qed.

Lemma expect_letter_found (upper : nat) (c : Ascii.ascii) (rest : string) :
  ((Ascii.nat_of_ascii c =? upper) || (Ascii.nat_of_ascii c =? upper + 32))%nat = true ->
  expect_letter upper (String c rest) = Some rest.
Proof. intros H. unfold expect_letter. now rewrite H. Qed.

Lemma expect_colon_found (c : Ascii.ascii) (rest : string) :
  (Ascii.nat_of_ascii c =? 58)%nat = true -> expect_colon (String c rest) = Some rest.
Proof. intros H. unfold expect_colon. now rewrite H. Qed.

Lemma skip_space_space (rest : string) :
  skip_space (String (Ascii.ascii_of_nat 32) rest) = skip_space rest.
Proof. reflexivity. Qed.

Lemma split_lines_digits (digits current : string) :
  all_chars is_digit digits = true ->
  split_lines digits current = [current +:+ digits].
Proof.
  revert current. induction digits as [|c digits IH]; intros current H.
  - now rewrite append_empty_r.
  - simpl in H. apply andb_true_iff in H as [Hc Hrest]. cbn [split_lines].
    assert (E : (Ascii.nat_of_ascii c =? 10)%nat = false).
    { unfold is_digit in Hc. apply andb_true_iff in Hc as [H1 _].
      apply Nat.leb_le in H1. apply Nat.eqb_neq. lia. }
    rewrite E, IH by exact Hrest. now rewrite append_assoc, append_cons, append_empty_l.
Qed.

Lemma split_lines_prefix (prefix s current : string) :
  all_chars (fun c => negb (Ascii.nat_of_ascii c =? 10)%nat) prefix = true ->
  split_lines (prefix +:+ s) current = split_lines s (current +:+ prefix).
Proof.
  revert current. induction prefix as [|c prefix IH]; intros current H.
  - now rewrite append_empty_l, append_empty_r.
  - simpl in H. apply andb_true_iff in H as [Hc Hrest]. rewrite append_cons.
    cbn [split_lines]. apply negb_true_iff in Hc. rewrite Hc, IH by exact Hrest.
    now rewrite append_assoc, append_cons, append_empty_l.
Qed.

(** X24: [parsePage] reads the line the documentation of the block gives:
    for a number that is not negative, the source [page: n] gives the
    number (as the float nearest to it); for a negative number, whose
    decimal form starts with a sign, it gives nothing. *)
Theorem parsePage_reads_page_line (n : Z) :
  parsePage (cat ["page: "; String_of_number n])
  = if 0 <=? n then Some (number_of_Z n) else None.
Proof.
  unfold parsePage. rewrite !cat_cons. unfold cat at 1. simpl String.concat.
  rewrite append_empty_r.
  destruct (0 <=? n) eqn:E.
  - apply Z.leb_le in E. destruct (String_of_number_digits n E) as (Hd & Hne & Hv).
    rewrite (split_lines_prefix "page: ") by reflexivity.
    rewrite split_lines_digits by exact Hd. rewrite append_empty_l.
    cbn [first_page]. unfold match_page_line.
    destruct (String_of_number n) as [|c digits] eqn:Es; [contradiction|].
    assert (Hc : is_digit c = true) by (simpl in Hd; now apply andb_true_iff in Hd).
    rewrite !append_cons, append_empty_l.
    rewrite skip_space_ascii by reflexivity.
    rewrite (expect_letter_found 80) by reflexivity. cbn [mbind option_bind].
    rewrite (expect_letter_found 65) by reflexivity. cbn [mbind option_bind].
    rewrite (expect_letter_found 71) by reflexivity. cbn [mbind option_bind].
    rewrite (expect_letter_found 69) by reflexivity. cbn [mbind option_bind].
    rewrite skip_space_ascii by reflexivity.
    rewrite expect_colon_found by reflexivity. cbn [mbind option_bind].
    rewrite skip_space_space, skip_space_digit by exact Hc.
    rewrite take_digits_all by exact Hd. cbn [skip_space String.eqb].
    unfold Number_of_digits. now rewrite Hv.
  - apply Z.leb_gt in E. destruct (String_of_number_negative n E) as (rest & Es & Hd).
    rewrite Es. rewrite (split_lines_prefix "page: -" rest) by reflexivity.
    rewrite split_lines_digits by exact Hd. rewrite append_empty_l.
    cbn [first_page]. unfold match_page_line.
    rewrite !append_cons, append_empty_l.
    rewrite skip_space_ascii by reflexivity.
    rewrite (expect_letter_found 80) by reflexivity. cbn [mbind option_bind].
    rewrite (expect_letter_found 65) by reflexivity. cbn [mbind option_bind].
    rewrite (expect_letter_found 71) by reflexivity. cbn [mbind option_bind].
    rewrite (expect_letter_found 69) by reflexivity. cbn [mbind option_bind].
    rewrite skip_space_ascii by reflexivity.
    rewrite expect_colon_found by reflexivity. cbn [mbind option_bind].
    rewrite skip_space_space, skip_space_ascii by reflexivity.
    rewrite take_digits_none by reflexivity. reflexivity.
Qed.

(** ** The footer of a page *)

Lemma Map_values_set_fresh {V : Type} (k : Z) (v : V) (m : JsMap V) :
  ~ In k (Map_keys m) -> Map_values (Map_set k v m) = Map_values m ++ [v].
Proof.
  unfold Map_keys, Map_values. induction m as [|[k0 v0] m IH]; intros H; [reflexivity|].
  simpl in *. destruct (k0 =? k) eqn:E.
  - apply Z.eqb_eq in E. exfalso. apply H. now left.
  - simpl. f_equal. apply IH. intros Hin. apply H. now right.
Qed.

Lemma chapters_for_ids_keys (chapterIds : list Z) (all : list Chapter.t) (id : Z) :
  In id (Map_keys (chapters_for_ids chapterIds all)) -> In id (map Chapter.id all).
Proof.
  intros H. apply Map_keys_In in H as [ch Hch]. rewrite Map_get_chapters_for_ids in Hch.
  destruct (includes id chapterIds); [|discriminate Hch].
  apply last_filter_In in Hch as [Hin Hid]. apply Z.eqb_eq in Hid.
  apply in_map_iff. now exists ch.
Qed.

Lemma includes_Set_of (x : Z) (l : list Z) : includes x (Set_of l) = includes x l.
Proof.
  apply eq_true_iff_eq. rewrite !includes_In. unfold Set_of. rewrite Set_fill_In.
  simpl. tauto.
Qed.

Lemma chapters_for_ids_snoc (chapterIds : list Z) (all : list Chapter.t) (ch : Chapter.t) :
  chapters_for_ids chapterIds (all ++ [ch])
  = if includes (Chapter.id ch) chapterIds
    then Map_set (Chapter.id ch) ch (chapters_for_ids chapterIds all)
    else chapters_for_ids chapterIds all.
Proof. unfold chapters_for_ids. now rewrite foldl_app. Qed.

(** X25: the footer of a page names the chapters of the page in the order
    of the list of all chapters, not in the order in which the page meets
    them, and each once: with a list of chapters of distinct ids, the
    chapters [fetchAndRenderPage] hands to the renderer are the chapters of
    the list whose id is the section of some verse, in list order. *)
Theorem footer_chapters_in_list_order (ids : list Z) (all : list Chapter.t) :
  NoDup (map Chapter.id all) ->
  Map_values (chapters_for_ids (Set_of ids) all)
  = List.filter (fun ch => includes (Chapter.id ch) ids) all.
Proof.
  induction all as [|ch all IH] using rev_ind; intros Hnd; [reflexivity|].
  rewrite map_app in Hnd. apply NoDup_app in Hnd as (Hnd & Hfresh & _).
  rewrite chapters_for_ids_snoc, List.filter_app. simpl.
  rewrite includes_Set_of. destruct (includes (Chapter.id ch) ids).
  - rewrite Map_values_set_fresh; [now rewrite IH|].
    intros Hin. apply chapters_for_ids_keys in Hin.
    apply (Hfresh (Chapter.id ch)); [now apply list_elem_of_In | now left].
  - rewrite IH by assumption. now rewrite app_nil_r.
Qed.

(** ** A rejected request for the chapters is not remembered *)

Section CacheRetry.

Context {RS : Type}.
Variable remote : Remote RS.

(** X26: when the request that should fill the cache is rejected,
    [getCachedChapters] throws what the remote service answered and leaves
    the cache empty, so the next call asks again, and fills the cache when
    it is answered. *)
Theorem getCachedChapters_retries (l1 l2 : string) (w : World RS) (e : Thrown)
    (chapters : list Chapter.t) (s1 s2 : RS) :
  w_chaptersCache w = None ->
  remote (ReqChapters l1) (w_remote w) = (Throw e, s1) ->
  remote (ReqChapters l2) s1 = (Ok chapters, s2) ->
  exists w1 w2,
    getCachedChapters remote l1 w = (Throw e, w1)
    /\ w_chaptersCache w1 = None
    /\ getCachedChapters remote l2 w1 = (Ok chapters, w2)
    /\ w_chaptersCache w2 = Some chapters
    /\ fetch_events (w_trace w2)
       = [(ReqChapters l2, true); (ReqChapters l1, false)] ++ fetch_events (w_trace w).
Proof.
  intros Hc H1 H2. eexists _, _. split; [|split; [|split; [|split]]].
  - rewrite getCachedChapters_empty by exact Hc. rewrite H1. reflexivity.
  - reflexivity.
  - rewrite getCachedChapters_empty by reflexivity. cbn [w_remote]. rewrite H2.
    reflexivity.
  - reflexivity.
  - reflexivity.
Qed.

End CacheRetry.

(** ** Where the program writes *)

Section Writes.

Context {RS : Type}.
Variable remote : Remote RS.
Variable normalizePath : string -> string.
Variable settings : QuranPluginSettings.

Lemma under_quran_ui (e : UiEvent) : under_quran normalizePath (EvUi e).
Proof. exact I. Qed.

Lemma under_quran_fetch (r : Request) (ok : bool) : under_quran normalizePath (EvFetch r ok).
Proof. exact I. Qed.

Lemma under_quran_check (path : string) (found : bool) :
  under_quran normalizePath (EvVault (OpExists path found)).
Proof. exact I. Qed.

Lemma skip_if_exists_under_quran (rest : string) (absent : M RS unit) :
  tame (RS:=RS) (under_quran normalizePath) absent ->
  tame (RS:=RS) (under_quran normalizePath)
    (skip_if_exists (normalizePath ("Quran/" +:+ rest)) absent).
Proof.
  intros H. unfold skip_if_exists.
  apply tame_bind; [apply tame_getAbstractFileByPath; intros; apply under_quran_check|].
  intros [e|]; [apply tame_ret | exact H].
Qed.

Lemma generate_steps_under_quran (options : VaultGeneratorOptions) :
  tame (RS:=RS) (under_quran normalizePath)
    (generate_steps remote normalizePath settings options).
Proof.
  unfold generate_steps.
  apply tame_bind.
  { unfold createFolders. apply tame_for_each. intros folder.
    apply (skip_if_exists_under_quran folder (createFolder _)).
    apply tame_vault_put. now exists folder. }
  intros _. apply tame_bind; [apply tame_ui, under_quran_ui | intros _].
  apply tame_bind.
  { unfold generateSurahNotes, getChapters.
    apply tame_bind;
      [apply (tame_fetchJson _ _ (ReqChapters _)); intros; apply under_quran_fetch|].
    intros chapters. apply tame_for_each. intros chapter.
    apply (skip_if_exists_under_quran
             ("Surahs/" +:+ cat [padNumber (Chapter.id chapter) 3; " - ";
                                 Chapter.name_simple chapter; ".md"])
             (create _ _)).
    apply tame_vault_put. eexists. reflexivity. }
  intros _. apply tame_bind; [apply tame_ui, under_quran_ui | intros _].
  apply tame_bind.
  { unfold generatePageNotes, getChapters, getJuzs.
    apply tame_bind;
      [apply (tame_fetchJson _ _ (ReqChapters _)); intros; apply under_quran_fetch|].
    intros allChapters.
    apply tame_bind; [apply (tame_fetchJson _ _ ReqJuzs); intros; apply under_quran_fetch|].
    intros juzs. apply tame_for_each. intros page. cbv zeta. unfold getVersesByPage.
    match goal with
    | |- tame _ (bind _ (fun found => match found with Some _ => _ | None => ?absent end)) =>
        apply (skip_if_exists_under_quran
                 ("Pages/" +:+ cat ["Page "; padNumber page 3; ".md"]) absent)
    end.
    apply tame_bind;
      [apply (tame_fetchJson _ _ (verses_by_page_request _ _)); intros;
       apply under_quran_fetch|].
    intros verses. apply tame_bind.
    { apply tame_vault_put. eexists. reflexivity. }
    intros _. destruct (Z.rem page 10 =? 0); [|apply tame_ret].
    apply tame_bind; [apply tame_ui, under_quran_ui | intros _].
    apply tame_ui, under_quran_ui. }
  intros _. apply tame_bind; [apply tame_ui, under_quran_ui | intros _].
  apply tame_bind.
  { unfold generateIndex.
    apply (skip_if_exists_under_quran "_Index.md" (create _ _)).
    apply tame_vault_put. now exists "_Index.md". }
  intros _. apply tame_bind; [apply tame_ui, under_quran_ui | intros _].
  apply tame_ui, under_quran_ui.
Qed.

Lemma collect_ranges_under_quran (ranges : list VerseRange) (acc : JsSet * string) :
  tame (RS:=RS) (under_quran normalizePath) (collect_ranges remote settings ranges acc).
Proof.
  revert acc. induction ranges as [|range rest IH]; intros acc; cbn [collect_ranges].
  - apply tame_ret.
  - unfold getChapter, getVersesByChapter.
    apply tame_bind;
      [apply (tame_fetchJson _ _ (ReqChapter _ _)); intros; apply under_quran_fetch|].
    intros chapter.
    apply tame_bind;
      [apply (tame_fetchJson _ _ (verses_by_chapter_request _ _)); intros;
       apply under_quran_fetch|].
    intros allVerses. apply IH.
Qed.

(** X27: whatever the remote service sends and whatever names the user
    gives, the generator and the collection builder create folders and
    documents only at paths of the form [normalizePath("Quran/...")], and
    change no entry the vault already has. *)
Theorem writes_only_under_quran (options : VaultGeneratorOptions)
    (collectionName : string) (ranges : list VerseRange) :
  tame (under_quran normalizePath) (generateFullVault remote normalizePath settings options)
  /\ tame (under_quran normalizePath)
       (createCollection remote normalizePath settings collectionName ranges).
Proof.
  split.
  - unfold generateFullVault.
    apply tame_bind; [apply tame_ui, under_quran_ui | intros _].
    apply tame_try_catch; [apply generate_steps_under_quran|].
    intros e. apply tame_bind; [apply tame_ui, under_quran_ui | intros _].
    apply tame_ui, under_quran_ui.
  - unfold createCollection.
    destruct (String.eqb collectionName "" || (length ranges =? 0)%nat);
      [apply tame_ui, under_quran_ui|].
    apply tame_bind; [apply tame_ui, under_quran_ui | intros _].
    apply tame_try_catch.
    + unfold collection_steps. apply tame_bind.
      { apply collect_ranges_under_quran. }
      intros built. unfold write_collection.
      apply tame_bind; [apply tame_current_date | intros today].
      apply tame_bind;
        [apply tame_getAbstractFileByPath; intros; apply under_quran_check | intros folder].
      apply tame_bind.
      { destruct folder; [apply tame_ret|]. apply tame_vault_put. now exists "Collections". }
      intros _. apply tame_bind.
      { apply tame_vault_put. eexists. reflexivity. }
      intros _. repeat (apply tame_bind; [apply tame_ui, under_quran_ui | intros _]).
      apply tame_bind;
        [apply tame_getAbstractFileByPath; intros; apply under_quran_check | intros file].
      destruct file as [[content|]|];
        [apply tame_ui, under_quran_ui | apply tame_ret | apply tame_ret].
    + intros e. apply tame_bind; [apply tame_ui, under_quran_ui | intros _].
      apply tame_ui, under_quran_ui.
Qed.

End Writes.

(** ** The verses a range selects *)

(** X28: a range selects the fetched verses from its first verse number up
    to its last, in the order in which they were fetched; the last verse
    number 999 stands for no upper bound at all, also when the user has
    typed it. *)
Theorem range_filter_bounds (range : VerseRange) (allVerses : list Verse.t) :
  range_filter range allVerses `sublist_of` allVerses
  /\ forall verse,
       verse ∈ range_filter range allVerses
       <-> verse ∈ allVerses
           /\ startVerse range <= Verse.verse_number verse
           /\ (endVerse range = 999 \/ Verse.verse_number verse <= endVerse range).
Proof.
  unfold range_filter. split; [apply sublist_filter|].
  intros verse. rewrite list_elem_of_filter.
  destruct (endVerse range =? 999) eqn:E; simpl.
  - apply Z.eqb_eq in E. intuition.
  - apply Z.eqb_neq in E. rewrite Z.leb_le. intuition.
Qed.

(** ** The further properties on sample data *)

Lemma padNumber_injective_sample : 7 = 7.
Proof. apply (padNumber_injective 7 7 3). reflexivity. Defined.

(** Section 2 starts on line 3 of the sample page. *)
Lemma section_start_is_rendered_sample :
  exists before after,
    page_plan 2 (groupWordsByLine [opening_verse; second_verse]) [(2, al_baqarah)]
      (buildSurahStartLines [opening_verse; second_verse])
    = before
      ++ (surah_header al_baqarah
          :: (if negb (2 =? 9) && negb (2 =? 1) then [bismillah_banner] else [])
          ++ [line_block (List.filter (on_line 3) (all_words [opening_verse; second_verse]))])
      ++ after.
Proof.
  apply (section_start_is_rendered 2 [opening_verse; second_verse] [(2, al_baqarah)] 3 2
           al_baqarah); reflexivity.
Defined.

Lemma getChaptersForIds_from_cache_sample :
  exists chapters,
    getChaptersForIds sample_remote [2; 18] "ar" cached_world = (Ok chapters, cached_world)
    /\ forall id,
         Map_get id chapters
         = if includes id [2; 18]
           then last (List.filter (has_id id) sample_chapters)
           else None.
Proof.
  apply (getChaptersForIds_from_cache sample_remote [2; 18] "ar" cached_world sample_chapters).
  reflexivity.
Defined.


Lemma fetchAndRenderPage_cached_sample :
  fetchAndRenderPage sample_remote (Element "div" "mushaf-page-wrapper" []) 2 "en"
    cached_world
  = (Ok (Element "div" "mushaf-page-wrapper"
           [page_element 2 [opening_verse; second_verse] sample_chapters]),
     mkWorld tt
       ([EvUi (RenderMushafPage 2); EvFetch (page_request 2) true]
        ++ loading_events ++ w_trace cached_world)
       (Some sample_chapters) (w_vault cached_world) (w_today cached_world)).
Proof.
  apply (fetchAndRenderPage_cached sample_remote "div" "mushaf-page-wrapper" [] 2 "en"
           cached_world [opening_verse; second_verse] sample_chapters tt);
    reflexivity.
Defined.

Lemma fetchAndRenderPage_fills_cache_sample :
  exists w1 w2,
    fetchAndRenderPage sample_remote (Element "div" "mushaf-page-wrapper" []) 2 "en"
      sample_world
    = (Ok (Element "div" "mushaf-page-wrapper"
             [page_element 2 [opening_verse; second_verse] sample_chapters]), w1)
    /\ w_chaptersCache w1 = Some sample_chapters
    /\ fetch_events (w_trace w1)
       = [(ReqChapters "en", true); (page_request 2, true)]
         ++ fetch_events (w_trace sample_world)
    /\ fetchAndRenderPage sample_remote
         (Element "div" "mushaf-page-wrapper"
            [page_element 2 [opening_verse; second_verse] sample_chapters])
         3 "ar" w1
       = (Ok (Element "div" "mushaf-page-wrapper"
                [page_element 3 [opening_verse; second_verse] sample_chapters]), w2)
    /\ fetch_events (w_trace w2)
       = (page_request 3, true) :: fetch_events (w_trace w1).
Proof.
  apply (fetchAndRenderPage_fills_cache sample_remote "div" "mushaf-page-wrapper" []
           2 3 "en" "ar" sample_world [opening_verse; second_verse]
           [opening_verse; second_verse] sample_chapters tt tt tt);
    reflexivity.
Defined.

(** A run of the generator on the empty vault, with every request
    answered. *)
Lemma generateFullVault_success_is_complete_sample :
  let w' := (generateFullVault sample_remote same_path DEFAULT_SETTINGS sample_options
               sample_world).2 in
  Forall (fun path => is_Some (w_vault w' !! path)) (generated_paths same_path)
  /\ forall chapters,
       (forall s, (sample_remote (ReqChapters (language DEFAULT_SETTINGS)) s).1
                  = Ok chapters) ->
       Forall (fun path => is_Some (w_vault w' !! path))
              (map (surah_path same_path) chapters).
Proof.
  apply (generateFullVault_success_is_complete sample_remote same_path DEFAULT_SETTINGS
           sample_options sample_world
           (tail (w_trace (generateFullVault sample_remote same_path DEFAULT_SETTINGS
                             sample_options sample_world).2))).
  vm_compute. reflexivity.
Defined.

(** A run on a vault that holds the document of page 1. *)
Lemma generateFullVault_skips_existing_pages_sample :
  exists new,
    w_trace (generateFullVault sample_remote same_path DEFAULT_SETTINGS sample_options
               resumed_world).2
    = new ++ w_trace resumed_world
    /\ Forall (fun ev => ~ fetches_page sample_options 1 ev) new.
Proof.
  apply (generateFullVault_skips_existing_pages sample_remote same_path DEFAULT_SETTINGS
           sample_options resumed_world 1).
  exists (File "kept"). vm_compute. reflexivity.
Defined.

(** No juz record at all: page 604 lands in juz 31. *)
Lemma juzNumber_of_page_fallback_sample :
  juzNumber_of_page (buildJuzPageMap []) 604 = (604 + 19) / 20
  /\ (600 < 604 -> juzNumber_of_page (buildJuzPageMap []) 604 = 31).
Proof.
  apply (juzNumber_of_page_fallback [] 604); [lia | intros j [] | intros []].
Defined.

(** Two ranges of different sections. *)
Lemma collect_ranges_concatenates_sample :
  let ranges := [ayatul_kursi; kahf_first] in
  let emitted :=
    concat (map (fun range => range_filter range (sample_verses_of range)) ranges) in
  exists w',
    collect_ranges sample_remote DEFAULT_SETTINGS ranges ([], "") sample_world
    = (Ok ((foldl add_verse ([], "") emitted).1,
           cat (map (fun range => range_output range (sample_chapter_of range)
                                    (sample_verses_of range)) ranges)),
       w')
    /\ fetch_events (w_trace w')
       = rev (concat (map (range_requests DEFAULT_SETTINGS) ranges))
         ++ fetch_events (w_trace sample_world).
Proof.
  apply (collect_ranges_concatenates sample_remote DEFAULT_SETTINGS
           [ayatul_kursi; kahf_first] sample_chapter_of sample_verses_of sample_world).
  intros range [<-|[<-|[]]] s; split; reflexivity.
Defined.

(** The collection of the single verse 2:255 on the empty vault. *)
Lemma createCollection_creates_folder_sample :
  let built := ([42], range_output ayatul_kursi al_baqarah (sample_verses 2)) in
  let path := collection_path same_path "Ayatul Kursi" in
  let folderPath := same_path "Quran/Collections" in
  let content := collection_content "Ayatul Kursi" (w_today sample_world) [ayatul_kursi]
                   (sort_numeric built.1) built.2 in
  let run := createCollection sample_remote same_path DEFAULT_SETTINGS "Ayatul Kursi"
               [ayatul_kursi] sample_world in
  run.1 = Ok tt
  /\ w_vault run.2
     = <[path := File content]> (<[folderPath := Folder]> (w_vault sample_world))
  /\ head (w_trace run.2) = Some (EvUi (FileOpened path))
  /\ vault_ops (w_trace run.2)
     = [OpExists path true; OpCreate path content; OpCreateFolder folderPath;
        OpExists folderPath false] ++ vault_ops (w_trace sample_world).
Proof.
  apply (createCollection_creates_folder sample_remote same_path DEFAULT_SETTINGS
           "Ayatul Kursi" [ayatul_kursi] sample_world
           (collect_ranges sample_remote DEFAULT_SETTINGS [ayatul_kursi] ([], "")
              (creating sample_world)).2
           ([42], range_output ayatul_kursi al_baqarah (sample_verses 2))).
  - discriminate.
  - discriminate.
  - vm_compute. reflexivity.
  - reflexivity.
  - reflexivity.
  - intros H. vm_compute in H. discriminate H.
Defined.

(** The button for the next page on the last page of the book. *)
Lemma navigatePage_stays_in_book_sample :
  let next := currentPage last_page_view + 1 in
  exists view' w',
    navigatePage sample_remote DEFAULT_SETTINGS last_page_view 1 sample_world
    = (Ok view', w')
    /\ 1 <= currentPage view' <= 604
    /\ (~ 1 <= next <= 604 -> view' = last_page_view /\ w' = sample_world)
    /\ (1 <= next <= 604 -> wrapper last_page_view = None ->
        view' = last_page_view /\ w' = sample_world)
    /\ (1 <= next <= 604 -> is_Some (wrapper last_page_view) ->
        currentPage view' = next
        /\ pageInput view' = (fun _ => String_of_number next) <$> pageInput last_page_view
        /\ is_Some (wrapper view')).
Proof.
  apply (navigatePage_stays_in_book sample_remote DEFAULT_SETTINGS last_page_view 1
           sample_world).
  simpl. lia.
Defined.


(** The chapters of a page that meets chapter 18 before chapter 2. *)
Lemma footer_chapters_in_list_order_sample :
  Map_values (chapters_for_ids (Set_of [18; 2; 18]) sample_chapters)
  = List.filter (fun ch => includes (Chapter.id ch) [18; 2; 18]) sample_chapters.
Proof.
  apply (footer_chapters_in_list_order [18; 2; 18] sample_chapters).
  apply (bool_decide_unpack _). vm_compute. exact I.
Defined.

Example footer_order_sample :
  map Chapter.name_simple (Map_values (chapters_for_ids (Set_of [18; 2; 18]) sample_chapters))
  = ["Al-Baqarah"; "Al-Kahf"].
Proof. reflexivity. Qed.

(** The list of chapters asked for twice from a service that rejects the
    first request. *)
Lemma getCachedChapters_retries_sample :
  exists w1 w2,
    getCachedChapters flaky_remote "en" flaky_world = (Throw not_found, w1)
    /\ w_chaptersCache w1 = None
    /\ getCachedChapters flaky_remote "ar" w1 = (Ok sample_chapters, w2)
    /\ w_chaptersCache w2 = Some sample_chapters
    /\ fetch_events (w_trace w2)
       = [(ReqChapters "ar", true); (ReqChapters "en", false)]
         ++ fetch_events (w_trace flaky_world).
Proof.
  apply (getCachedChapters_retries flaky_remote "en" "ar" flaky_world not_found
           sample_chapters 1%nat 2%nat); reflexivity.
Defined.
